(** * loz-watch: incident ingestion, sanitising and map display state

    A shallow embedding of the parts of the repository that the
    specification makes claims about:

    - [lib/sanitize.ts]            (module [Sanitize])
    - [lib/local-intelligence.ts]  (modules [Classifier], [Geocode], [Aggregator])
    - the [Map] component          (module [MapState])

    JavaScript strings are sequences of UTF-16 code units; they are modelled
    as lists of code units ([N], each below 65536).  Numbers that only ever
    hold integers are modelled in [Z].  A coordinate is a binary64 number:
    the arithmetic on coordinates is carried out in binary64 (module
    [Double]) and a coordinate is recorded by its exact value, a rational
    ([Q]), on which comparisons are those of the binary64 numbers. *)

From Stdlib Require Import ZArith NArith QArith Qabs List Ascii String Lia Permutation Sorted.
From Stdlib Require Import DecimalString SpecFloat.
From stdpp Require Import base decidable option list strings gmap sets.

Local Open Scope N_scope.

(** ** JavaScript strings *)

Module JsString.

(** A string literal of the source, as code units. *)
Definition lit (s : string) : list N :=
  List.map N_of_ascii (list_ascii_of_string s).

(** [s.startsWith(p)] *)
Fixpoint startsWith (s p : list N) {struct p} : bool :=
  match p, s with
  | [], _ => true
  | _ :: _, [] => false
  | c :: p', d :: s' => (c =? d) && startsWith s' p'
  end.

(** [s.includes(sub)] *)
Fixpoint includes (s sub : list N) : bool :=
  startsWith s sub ||
  match s with
  | [] => false
  | _ :: s' => includes s' sub
  end.

(** The WhiteSpace and LineTerminator code points of ECMAScript: what
    [String.prototype.trim] strips and what [\s] matches. *)
Definition isWhiteSpace (c : N) : bool :=
  ((9 <=? c) && (c <=? 13)) || (c =? 32) || (c =? 160) || (c =? 5760) ||
  ((8192 <=? c) && (c <=? 8202)) || (c =? 8232) || (c =? 8233) ||
  (c =? 8239) || (c =? 8287) || (c =? 12288) || (c =? 65279).

Fixpoint trimStart (s : list N) : list N :=
  match s with
  | [] => []
  | c :: s' => if isWhiteSpace c then trimStart s' else s
  end.

Definition trimEnd (s : list N) : list N := rev (trimStart (rev s)).

(** [s.trim()] *)
Definition trim (s : list N) : list N := trimEnd (trimStart s).

(** Lower-casing of one code unit.  Every code unit whose lower-case form
    holds a code unit below U+0100 is mapped as the Unicode case tables map
    it: A-Z and U+00C0..U+00DE (except the multiplication sign U+00D7) move
    up by 32; the capital I with a dot, U+0130, becomes i followed by the
    combining dot U+0307; the Kelvin sign U+212A becomes k, the Angstrom
    sign U+212B the a with a ring U+00E5, U+0178 becomes U+00FF and U+1E9E
    becomes U+00DF.  The tables for the other letters above U+00FF are not
    embedded and those code units are left as they are: their lower-case
    forms hold code units above U+00FF only, so a search for a string of
    code units below U+0100 in the lower-cased text finds what it finds in
    [String.prototype.toLowerCase] of the host. *)
Definition lowerUnit (c : N) : list N :=
  if ((65 <=? c) && (c <=? 90)) ||
     ((192 <=? c) && (c <=? 222) && negb (c =? 215))
  then [c + 32]
  else if c =? 304 then [105; 775]
  else if c =? 376 then [255]
  else if c =? 7838 then [223]
  else if c =? 8490 then [107]
  else if c =? 8491 then [229]
  else [c].

(** [s.toLowerCase()] *)
Definition toLowerCase (s : list N) : list N := flat_map lowerUnit s.

(** Canonicalisation used by a case-insensitive (non-unicode) regular
    expression when the pattern character is an ASCII letter: only the two
    ASCII cases of the letter match it. *)
Definition upperAscii (c : N) : N :=
  if (97 <=? c) && (c <=? 122) then c - 32 else c.

Fixpoint startsWith_ci (s p : list N) {struct p} : bool :=
  match p, s with
  | [], _ => true
  | _ :: _, [] => false
  | c :: p', d :: s' => (upperAscii c =? upperAscii d) && startsWith_ci s' p'
  end.

(** [s.substring(0, n)] for an integer [n]: the bound is clamped to
    [0 .. s.length]. *)
Definition substring0 (s : list N) (n : Z) : list N :=
  firstn (Z.to_nat n) s.

(** [s.replace(re, f)] for a regular expression with the [g] flag.
    The expression is given by its matcher [m]: at a position, [m] applied
    to the rest of the string returns the length of the leftmost match that
    starts there together with its replacement, or [None].  Scanning goes
    left to right; after a match it resumes behind the match.  [skip] counts
    the code units of the current match still to be consumed. *)
Fixpoint replaceAll (m : list N -> option (nat * list N)) (skip : nat)
    (s : list N) : list N :=
  match s with
  | [] => []
  | c :: s' =>
      match skip with
      | S k => replaceAll m k s'
      | O =>
          match m s with
          | Some (S n, r) => r ++ replaceAll m n s'
          | Some (O, r) => r ++ c :: replaceAll m 0 s'
          | None => c :: replaceAll m 0 s'
          end
      end
  end.

(** Longest prefix whose code units all satisfy [p] (a greedy [[...]*]). *)
Fixpoint takeWhile (p : N -> bool) (s : list N) : list N :=
  match s with
  | [] => []
  | c :: s' => if p c then c :: takeWhile p s' else []
  end.

(** Position of the first code unit equal to [x]. *)
Fixpoint indexOf (x : N) (s : list N) : option nat :=
  match s with
  | [] => None
  | c :: s' => if c =? x then Some O else option_map S (indexOf x s')
  end.

End JsString.

Import JsString.

(** ** lib/sanitize.ts *)

Module Sanitize.

Definition AMP : N := 38.
Definition LT : N := 60.
Definition GT : N := 62.
Definition QUOT : N := 34.
Definition APOS : N := 39.

(** [escapeHtml]: the [map] object, applied to each of the five reserved
    characters (ampersand, angle brackets, double and single quote). *)
Definition escapeMap (c : N) : option (list N) :=
  if c =? AMP then Some (lit "&amp;")
  else if c =? LT then Some (lit "&lt;")
  else if c =? GT then Some (lit "&gt;")
  else if c =? QUOT then Some (lit "&quot;")
  else if c =? APOS then Some (lit "&#039;")
  else None.

Definition escapeMatcher (s : list N) : option (nat * list N) :=
  match s with
  | [] => None
  | c :: _ => option_map (fun r => (1%nat, r)) (escapeMap c)
  end.

Definition escapeHtml (text : list N) : list N :=
  replaceAll escapeMatcher 0 text.

(** [/<[^>]*>/g]: a [<], then everything up to the first [>] behind it. *)
Definition tagMatcher (s : list N) : option (nat * list N) :=
  match s with
  | c :: r =>
      if c =? LT then
        option_map (fun i => (S (S i), [])) (indexOf GT r)
      else None
  | [] => None
  end.

(** [new RegExp(entity, 'g')] for an entity without special characters. *)
Definition literalMatcher (entity char : list N) (s : list N)
  : option (nat * list N) :=
  if startsWith s entity then Some (length entity, char) else None.

Definition entityMap : list (list N * list N) :=
  [ (lit "&amp;", [AMP]); (lit "&lt;", [LT]); (lit "&gt;", [GT]);
    (lit "&quot;", [QUOT]); (lit "&#039;", [APOS]); (lit "&apos;", [APOS]) ].

Definition isDigit (c : N) : bool := (48 <=? c) && (c <=? 57).

Definition isHexDigit (c : N) : bool :=
  isDigit c || ((97 <=? c) && (c <=? 102)) || ((65 <=? c) && (c <=? 70)).

Definition digitValue (c : N) : N :=
  if isDigit c then c - 48
  else if (97 <=? c) && (c <=? 102) then c - 87
  else c - 55.

(** The mathematical integer that [parseInt(digits, radix)] reads. *)
Definition parseDigits (radix : N) (digits : list N) : N :=
  fold_left (fun acc c => acc * radix + digitValue c) digits 0.

(** Rounding of a non-negative integer to the nearest IEEE double (ties to
    even): integers below 2^53 are exact, larger ones keep 53 significant
    bits. *)
Definition toDouble (n : N) : N :=
  if n <? 2 ^ 53 then n
  else
    let e := N.log2 n - 52 in
    let q := N.shiftr n e in
    let r := n - N.shiftl q e in
    let half := N.shiftl 1 (e - 1) in
    let q' := if (half <? r) || ((r =? half) && N.odd q) then q + 1 else q in
    N.shiftl q' e.

(** [String.fromCharCode(x)]: [ToUint16] of the number. *)
Definition fromCharCode (x : N) : N := x mod 65536.

(** [/&#(\d+);/g] with [String.fromCharCode(parseInt(num, 10))]. *)
Definition decimalEntityMatcher (s : list N) : option (nat * list N) :=
  match s with
  | a :: h :: r =>
      if (a =? AMP) && (h =? 35) then
        let digits := takeWhile isDigit r in
        match digits, skipn (length digits) r with
        | _ :: _, semi :: _ =>
            if semi =? 59
            then Some (length digits + 3,
                       [fromCharCode (toDouble (parseDigits 10 digits))])%nat
            else None
        | _, _ => None
        end
      else None
  | _ => None
  end.

(** [/&#x([0-9a-fA-F]+);/g] with [String.fromCharCode(parseInt(hex, 16))]. *)
Definition hexEntityMatcher (s : list N) : option (nat * list N) :=
  match s with
  | a :: h :: x :: r =>
      if (a =? AMP) && (h =? 35) && (x =? 120) then
        let digits := takeWhile isHexDigit r in
        match digits, skipn (length digits) r with
        | _ :: _, semi :: _ =>
            if semi =? 59
            then Some (length digits + 4,
                       [fromCharCode (toDouble (parseDigits 16 digits))])%nat
            else None
        | _, _ => None
        end
      else None
  | _ => None
  end.

Definition decodeHtmlEntities (text : list N) : list N :=
  let decoded :=
    fold_left (fun d '(entity, char) =>
                 replaceAll (literalMatcher entity char) 0 d)
              entityMap text in
  let decoded := replaceAll decimalEntityMatcher 0 decoded in
  replaceAll hexEntityMatcher 0 decoded.

(** [/\s+/g] replaced by one space. *)
Definition whitespaceMatcher (s : list N) : option (nat * list N) :=
  match takeWhile isWhiteSpace s with
  | [] => None
  | run => Some (length run, [32])
  end.

Definition sanitizeHtml (html : list N) : list N :=
  match html with
  | [] => []
  | _ =>
      let sanitized := replaceAll tagMatcher 0 html in
      let sanitized := decodeHtmlEntities sanitized in
      let sanitized := escapeHtml sanitized in
      trim (replaceAll whitespaceMatcher 0 sanitized)
  end.

Definition sanitizeText (text : list N) : list N :=
  match text with
  | [] => []
  | _ => escapeHtml (trim text)
  end.

Definition dangerousSchemes : list (list N) :=
  [lit "javascript:"; lit "data:"; lit "vbscript:"; lit "file:"].

(** [/^(https?:\/\/|\/)/i] *)
Definition matchesAllowedPrefix (s : list N) : bool :=
  startsWith_ci s (lit "http://") || startsWith_ci s (lit "https://") ||
  startsWith s (lit "/").

Definition sanitizeUrl (url : list N) : list N :=
  match url with
  | [] => []
  | _ =>
      let trimmed := trim url in
      let lowerUrl := toLowerCase trimmed in
      if existsb (startsWith lowerUrl) dangerousSchemes then lit "#"
      else if negb (matchesAllowedPrefix trimmed) then lit "#"
      else trimmed
  end.

Definition truncateText (text : list N) (maxLength : Z) : list N :=
  match text with
  | [] => []
  | _ =>
      if (Z.of_nat (length text) <=? maxLength)%Z then text
      else substring0 text maxLength ++ lit "..."
  end.

(** A code unit that is not an angle bracket. *)
Definition noAngle (c : N) : Prop := c <> LT /\ c <> GT.

End Sanitize.

(** ** lib/local-intelligence.ts: category and severity *)

Module Classifier.

Inductive IncidentCategory :=
  Crime | Accident | Boating | Fire | Advisory | Other.

Inductive IncidentSeverity := SevInfo | SevAdvisory | SevAlert.

(** [summary || ''] for the optional parameter. *)
Definition orEmpty (summary : option (list N)) : list N :=
  match summary with
  | Some s => s
  | None => []
  end.

(** The template [`${type} ${title} ${summary || ''}`], lower-cased. *)
Definition typeText (type title : list N) (summary : option (list N)) : list N :=
  toLowerCase (type ++ lit " " ++ title ++ lit " " ++ orEmpty summary).

(** The keyword tests of one [if], joined by [||]. *)
Definition anyOf (text : list N) (keywords : list string) : bool :=
  existsb (fun k => includes text (lit k)) keywords.

Definition boatingWords : list string := ["boat"; "marine"; "watercraft"]%string.
Definition fireWords : list string := ["fire"; "blaze"; "burn"]%string.
Definition accidentWords : list string := ["accident"; "crash"; "collision"]%string.
Definition crimeWords : list string := ["crime"; "arrest"; "theft"; "police"]%string.
Definition advisoryWords : list string := ["advisory"; "warning"; "alert"]%string.

Definition classifyText (text : list N) : IncidentCategory :=
  if anyOf text boatingWords then Boating
  else if anyOf text fireWords then Fire
  else if anyOf text accidentWords then Accident
  else if anyOf text crimeWords then Crime
  else if anyOf text advisoryWords then Advisory
  else Other.

Definition normalizeIncidentType (type title : list N)
    (summary : option (list N)) : IncidentCategory :=
  classifyText (typeText type title summary).

Definition category_eqb (a b : IncidentCategory) : bool :=
  match a, b with
  | Crime, Crime | Accident, Accident | Boating, Boating
  | Fire, Fire | Advisory, Advisory | Other, Other => true
  | _, _ => false
  end.

(** The template [`${title} ${summary || ''}`], lower-cased. *)
Definition severityText (title : list N) (summary : option (list N)) : list N :=
  toLowerCase (title ++ lit " " ++ orEmpty summary).

Definition determineIncidentSeverity (type : IncidentCategory)
    (title : list N) (summary : option (list N)) : IncidentSeverity :=
  let text := severityText title summary in
  if category_eqb type Fire ||
     (category_eqb type Accident &&
      (includes text (lit "fatal") || includes text (lit "serious")))
  then SevAlert
  else if category_eqb type Boating || category_eqb type Crime then SevAdvisory
  else if category_eqb type Accident || category_eqb type Advisory then SevAdvisory
  else SevInfo.

End Classifier.

(** ** Numbers: binary64 arithmetic *)

Module Double.

(** A Number of JavaScript is a binary64 floating-point number (IEEE 754,
    53 bits of precision, rounding to nearest, ties to even). *)
Definition t : Type := spec_float.

Definition prec : Z := 53.
Definition emax : Z := 1024.

(** An integer as a Number (exact below 2^53). *)
Definition ofZ (z : Z) : t := binary_normalize prec emax z 0 false.

Definition add : t -> t -> t := SFadd prec emax.
Definition mul : t -> t -> t := SFmul prec emax.
Definition div : t -> t -> t := SFdiv prec emax.
Definition opp : t -> t := SFopp.

(** The Number a decimal literal denotes: the binary64 number nearest to
    [n / d], for [d] a power of ten; [decimal 3815 100] is [38.15]. *)
Definition decimal (n : Z) (d : positive) : t := div (ofZ n) (ofZ (Zpos d)).

(** The exact value of a finite Number. *)
Definition toQ (x : t) : Q :=
  match x with
  | S754_finite s m e =>
      let m := if s then Zneg m else Zpos m in
      match e with
      | Zneg k => Qmake m (Pos.pow 2 k)
      | _ => inject_Z (m * 2 ^ e)
      end
  | _ => 0%Q
  end.

(** The exact value of the Number a decimal literal denotes. *)
Definition literal (n : Z) (d : positive) : Q := toQ (decimal n d).

End Double.

(** ** lib/local-intelligence.ts: approximate coordinates *)

Module Geocode.

Import Double(literal).

Local Open Scope Q_scope.

Definition centerLat : Double.t := Double.decimal 3815 100.
Definition centerLng : Double.t := Double.opp (Double.decimal 9275 100).
Definition spread : Double.t := Double.decimal 25 100.

(** The chain of [else if] tests over place names, in source order: the
    substrings tested by one branch and the coordinate it assigns. *)
Definition knownPlaces : list (list string * (Q * Q)) :=
  [ (["camdenton"]%string, (literal 3820 100, literal (-9275) 100));
    (["eldon"]%string, (literal 3835 100, literal (-9258) 100));
    (["osage beach"; "osage"]%string, (literal 3813 100, literal (-9265) 100));
    (["sunrise beach"]%string, (literal 3818 100, literal (-9278) 100));
    (["lake ozark"; "bagnell"]%string, (literal 3820 100, literal (-9263) 100));
    (["versailles"]%string, (literal 3843 100, literal (-9284) 100));
    (["linn creek"]%string, (literal 3803 100, literal (-9270) 100));
    (["gravois mills"]%string, (literal 3820 100, literal (-9283) 100));
    (["laurie"]%string, (literal 3820 100, literal (-9283) 100));
    (["four seasons"]%string, (literal 3820 100, literal (-9270) 100));
    (["miller county"; "miller"]%string, (literal 3820 100, literal (-9260) 100));
    (["camden county"; "camden"]%string, (literal 3815 100, literal (-9275) 100));
    (["morgan county"; "morgan"]%string, (literal 3843 100, literal (-9284) 100));
    (["highway 54"; "hwy 54"; "hwy54"]%string, (literal 3820 100, literal (-9275) 100));
    (["highway 5"; "hwy 5"; "hwy5"]%string, (literal 3815 100, literal (-9270) 100)) ].

Definition placeMatches (text : list N) (place : list string * (Q * Q)) : bool :=
  existsb (fun k => includes text (lit k)) (fst place).

(** The first branch of the chain whose test succeeds, if any. *)
Definition matchPlace (text : list N) : option (Q * Q) :=
  option_map snd (List.find (placeMatches text) knownPlaces).

(** [id.split('').reduce((acc, char) => acc + char.charCodeAt(0), 0)] *)
Definition idHash (id : list N) : Z :=
  fold_left (fun acc char => (acc + Z.of_N char)%Z) id 0%Z.

(** The [else] branch.  [hash], [hash * 13], the remainders and the
    differences are integers far below 2^53 and are computed without
    rounding; [%] of JavaScript is the truncated remainder.  The division,
    the product and the sum are those of binary64. *)
Definition fallbackCoordinate (hash : Z) : Q * Q :=
  let latOffset :=
    Double.mul
      (Double.div (Double.ofZ (Z.rem hash 200 - 100)) (Double.ofZ 400)) spread in
  let lngOffset :=
    Double.mul
      (Double.div (Double.ofZ (Z.rem (hash * 13) 200 - 100)) (Double.ofZ 400))
      spread in
  (Double.toQ (Double.add centerLat latOffset),
   Double.toQ (Double.add centerLng lngOffset)).

(** The coordinate of a Lake Expo article with lower-cased text [text]. *)
Definition articleCoordinate (text id : list N) : Q * Q :=
  match matchPlace text with
  | Some c => c
  | None => fallbackCoordinate (idHash id)
  end.

End Geocode.

(** ** lib/local-intelligence.ts: aggregation of the two sources *)

Module Aggregator.

Import Classifier Geocode.

(** An element of [data.articles] or [data.announcements], with the string
    fields the two routes give it. *)
Record Article := {
  art_id : list N;
  art_title : list N;
  art_summary : list N;
  art_url : list N;
  art_publishedAt : list N
}.

Record LocalIncident := {
  id : list N;
  title : list N;
  type : IncidentCategory;
  severity : IncidentSeverity;
  source : list N;
  sourceUrl : option (list N);
  timestamp : list N;
  lat : option Q;
  lng : option Q;
  summary : option (list N)
}.

(** Outcome of an evaluation that may throw. *)
Inductive completion (A : Type) :=
  | Normal (a : A)
  | Throw.
Arguments Normal {A} a.
Arguments Throw {A}.

Definition bind {A B} (c : completion A) (k : A -> completion B) : completion B :=
  match c with
  | Normal a => k a
  | Throw => Throw
  end.

(** The body of a response: [None] for a missing field or one that is not
    an array. *)
Record Payload := {
  articles : option (list Article);
  announcements : option (list Article)
}.

(** A response: its [ok] flag and the outcome of [json()], which throws when
    the body is not JSON. *)
Record Response := {
  ok : bool;
  json : completion Payload
}.

(** One entry of [Promise.allSettled]. *)
Inductive Settled :=
  | fulfilled (value : Response)
  | rejected.

(** [30 * 24 * 60 * 60 * 1000] *)
Definition retentionMs : Z := 30 * 24 * 60 * 60 * 1000.

Section Host.

(** The time value [Date.parse] gives a string, [None] standing for [NaN]:
    the formats accepted beyond the ISO one are implementation-defined. *)
Variable Date_parse : list N -> option Z.

(** [clock i]: what [Date.now()] returns while the [i]-th item of a call is
    examined. *)
Variable clock : nat -> Z.

(** [new Date(s)] for a string: never throws, an unrecognised string gives
    an invalid date. *)
Definition new_Date (s : list N) : completion (option Z) :=
  Normal (Date_parse s).

Definition isNaN (x : option Z) : bool :=
  match x with
  | None => true
  | Some _ => false
  end.

(** [d < new Date(bound)] on dates: a comparison of time values, false when
    one of them is [NaN]. *)
Definition date_lt (d : option Z) (bound : Z) : bool :=
  match d with
  | Some t => (t <? bound)%Z
  | None => false
  end.

(** The [try]/[catch] at the head of both loops: [false] when [continue]
    skips the item, [true] when the loop body goes on with it. *)
Definition passesDateCheck (now : Z) (publishedAt : list N) : bool :=
  match new_Date publishedAt with
  | Normal articleDate =>
      if isNaN articleDate || date_lt articleDate (now - retentionMs)
      then false
      else true
  | Throw => true
  end.

Definition articleIncident (article : Article) : LocalIncident :=
  let text :=
    toLowerCase (art_title article ++ lit " " ++ art_summary article) in
  let type :=
    normalizeIncidentType [] (art_title article) (Some (art_summary article)) in
  let severity :=
    determineIncidentSeverity type (art_title article)
      (Some (art_summary article)) in
  let '(lat, lng) := articleCoordinate text (art_id article) in
  {| id := art_id article;
     title := art_title article;
     type := type;
     severity := severity;
     source := lit "Lake Expo";
     sourceUrl := Some (art_url article);
     timestamp := art_publishedAt article;
     lat := Some lat;
     lng := Some lng;
     summary := Some (art_summary article) |}.

Definition announcementIncident (announcement : Article) : LocalIncident :=
  let type :=
    normalizeIncidentType [] (art_title announcement)
      (Some (art_summary announcement)) in
  let severity :=
    determineIncidentSeverity type (art_title announcement)
      (Some (art_summary announcement)) in
  {| id := art_id announcement;
     title := art_title announcement;
     type := type;
     severity := severity;
     source := lit "City of Lake Ozark";
     sourceUrl := Some (art_url announcement);
     timestamp := art_publishedAt announcement;
     lat := Some (Double.literal 3820 100);
     lng := Some (Double.literal (-9263) 100);
     summary := Some (art_summary announcement) |}.

(** One [for ... of] loop: the incidents it pushes, in order.  [i] is the
    number of items examined before. *)
Fixpoint processItems (mk : Article -> LocalIncident) (i : nat)
    (items : list Article) : list LocalIncident :=
  match items with
  | [] => []
  | item :: rest =>
      if passesDateCheck (clock i) (art_publishedAt item)
      then mk item :: processItems mk (S i) rest
      else processItems mk (S i) rest
  end.

(** What one settled fetch contributes: nothing unless it is fulfilled and
    [ok]; [json()] may throw. *)
Definition sourceItems (field : Payload -> option (list Article))
    (r : Settled) : completion (list Article) :=
  match r with
  | fulfilled value =>
      if ok value then
        bind (json value) (fun data =>
          Normal (match field data with
                  | Some items => items
                  | None => []
                  end))
      else Normal []
  | rejected => Normal []
  end.

(** The comparator of the final sort:
    [new Date(b.timestamp).getTime() - new Date(a.timestamp).getTime()]. *)
Definition compareIncidents (a b : LocalIncident) : option Z :=
  match Date_parse (timestamp b), Date_parse (timestamp a) with
  | Some tb, Some ta => Some (tb - ta)%Z
  | _, _ => None
  end.

(** [Array.prototype.sort] with a comparator: a stable sort; a comparator
    result of [NaN] counts as [0]. *)
Definition comparatorSign (v : option Z) : Z :=
  match v with
  | Some z => z
  | None => 0%Z
  end.

Fixpoint insertSorted {A} (cmp : A -> A -> option Z) (x : A) (l : list A) : list A :=
  match l with
  | [] => [x]
  | y :: l' =>
      if (comparatorSign (cmp x y) <=? 0)%Z then x :: l
      else y :: insertSorted cmp x l'
  end.

Definition sortWith {A} (cmp : A -> A -> option Z) (l : list A) : list A :=
  fold_right (insertSorted cmp) [] l.

(** The body of the outer [try]. *)
Definition fetchLocalIncidents_body (lakeExpoResponse cityResponse : Settled)
  : completion (list LocalIncident) :=
  bind (sourceItems articles lakeExpoResponse) (fun arts =>
  let incidents := processItems articleIncident 0 arts in
  bind (sourceItems announcements cityResponse) (fun anns =>
  let incidents :=
    incidents ++ processItems announcementIncident (length arts) anns in
  Normal (sortWith compareIncidents incidents))).

(** [fetchLocalIncidents], given what the two fetches settled to. *)
Definition fetchLocalIncidents (lakeExpoResponse cityResponse : Settled)
  : list LocalIncident :=
  match fetchLocalIncidents_body lakeExpoResponse cityResponse with
  | Normal incidents => incidents
  | Throw => []
  end.

(** [a] is at least as recent as [b], both timestamps being valid dates. *)
Definition newerOrEqual (a b : LocalIncident) : Prop :=
  exists ta tb,
    Date_parse (timestamp a) = Some ta /\
    Date_parse (timestamp b) = Some tb /\ (tb <= ta)%Z.

(** The timestamp of [x] is a valid date. *)
Definition validTime (x : LocalIncident) : Prop :=
  exists t, Date_parse (timestamp x) = Some t.

(** A fetch that rejected, or whose response is not [ok]. *)
Definition failed (r : Settled) : bool :=
  match r with
  | fulfilled value => negb (ok value)
  | rejected => true
  end.

End Host.

End Aggregator.

(** ** A date parser for the ISO format

    The properties of the aggregation hold for every reading of dates:
    they are stated over a function [Date_parse].  The examples need one
    reading to compute with, and this is it: [Date.parse] restricted to two
    of the shapes the routes produce, a date alone [YYYY-MM-DD] (midnight
    UTC) and the full UTC date-time of [toISOString].  The host reads more
    shapes than these ([MM/DD/YYYY], a date-time without milliseconds);
    the strings of the examples are of one of the two shapes, or are no
    dates for the host either. *)

Module IsoDate.

Local Open Scope Z_scope.

Fixpoint digitsValue (acc : Z) (s : list N) : option Z :=
  match s with
  | [] => Some acc
  | c :: s' =>
      if Sanitize.isDigit c
      then digitsValue (acc * 10 + Z.of_N c - 48) s'
      else None
  end.

(** [n] digits at the head of [s], and what follows them. *)
Definition field (n : nat) (s : list N) : option (Z * list N) :=
  if (length (firstn n s) =? n)%nat
  then option_map (fun v => (v, skipn n s)) (digitsValue 0 (firstn n s))
  else None.

(** The code unit [c] at the head of [s]. *)
Definition expect (c : N) (s : list N) : option (list N) :=
  match s with
  | d :: s' => if (c =? d)%N then Some s' else None
  | [] => None
  end.

Definition isLeap (y : Z) : bool :=
  ((y mod 4 =? 0) && negb (y mod 100 =? 0)) || (y mod 400 =? 0).

Definition daysInMonth (y m : Z) : Z :=
  if m =? 2 then (if isLeap y then 29 else 28)
  else if (m =? 4) || (m =? 6) || (m =? 9) || (m =? 11) then 30
  else 31.

(** Days from 1970-01-01 to the civil date [y]-[m]-[d]. *)
Definition daysFromCivil (y m d : Z) : Z :=
  let y' := if m <=? 2 then y - 1 else y in
  let era := y' / 400 in
  let yoe := y' - era * 400 in
  let doy := (153 * (if 2 <? m then m - 3 else m + 9) + 2) / 5 + d - 1 in
  let doe := yoe * 365 + yoe / 4 - yoe / 100 + doy in
  era * 146097 + doe - 719468.

Definition msPerDay : Z := 86400000.

Definition parseDate (s : list N) : option (Z * list N) :=
  '(y, s) ← field 4 s;
  s ← expect 45 s;
  '(m, s) ← field 2 s;
  s ← expect 45 s;
  '(d, s) ← field 2 s;
  if (1 <=? m) && (m <=? 12) && (1 <=? d) && (d <=? daysInMonth y m)
  then Some (daysFromCivil y m d * msPerDay, s)
  else None.

Definition parseTime (s : list N) : option Z :=
  s ← expect 84 s;
  '(h, s) ← field 2 s;
  s ← expect 58 s;
  '(mi, s) ← field 2 s;
  s ← expect 58 s;
  '(sec, s) ← field 2 s;
  s ← expect 46 s;
  '(ms, s) ← field 3 s;
  s ← expect 90 s;
  match s with
  | [] =>
      if (h <=? 23) && (mi <=? 59) && (sec <=? 59)
      then Some (((h * 60 + mi) * 60 + sec) * 1000 + ms)
      else None
  | _ :: _ => None
  end.

Definition parse (s : list N) : option Z :=
  '(day, rest) ← parseDate s;
  match rest with
  | [] => Some day
  | _ :: _ => t ← parseTime rest; Some (day + t)
  end.

End IsoDate.

(** ** The [Map] component: selection, panels and filters *)

Module MapState.

Import Classifier.

Inductive LocationType := restaurant | marina | bar.

Global Instance LocationType_eq_dec : EqDecision LocationType.
Proof. solve_decision. Defined.

Global Instance LocationType_countable : Countable LocationType.
Proof.
  refine (inj_countable'
            (fun t => match t with
                      | restaurant => 0 | marina => 1 | bar => 2
                      end)%nat
            (fun n => match n with
                      | 0 => restaurant | 1 => marina | _ => bar
                      end)%nat _).
  intros []; reflexivity.
Defined.

Record Location := {
  loc_id : list N;
  loc_name : list N;
  loc_type : LocationType;
  loc_lat : Q;
  loc_lng : Q;
  camEmbedUrl : option (list N);
  isOpen : option bool
}.

Inductive IncidentType :=
  TAccident | TClosure | TConstruction | TDisabled | THazard | TOther.

Record TrafficIncident := {
  ti_id : list N;
  ti_type : IncidentType;
  ti_description : list N;
  ti_lat : Q;
  ti_lng : Q;
  ti_severity : IncidentSeverity;
  ti_timestamp : list N;
  ti_source : option (list N)
}.

(** The selection a pending [setTimeout] callback clears. *)
Inductive Selection := SelLocation | SelIncident | SelLocalIncident.

(** The state of the component that the handlers read and write, the time
    in milliseconds, and the callbacks scheduled with [setTimeout], each
    with the time it is due, oldest first. *)
Record State := {
  selectedLocation : option Location;
  isPanelOpen : bool;
  selectedIncident : option TrafficIncident;
  isIncidentPanelOpen : bool;
  selectedLocalIncident : option Aggregator.LocalIncident;
  isLocalIncidentPanelOpen : bool;
  searchQuery : list N;
  activeTypes : gset LocationType;
  now : Z;
  timers : list (Z * Selection)
}.

(** The arguments of the [useState] calls. *)
Definition initial : State :=
  {| selectedLocation := None;
     isPanelOpen := false;
     selectedIncident := None;
     isIncidentPanelOpen := false;
     selectedLocalIncident := None;
     isLocalIncidentPanelOpen := false;
     searchQuery := [];
     activeTypes := {[restaurant; marina; bar]};
     now := 0;
     timers := [] |}.

(** The state setters. *)
Definition setSelectedLocation (v : option Location) (s : State) : State :=
  {| selectedLocation := v;
     isPanelOpen := isPanelOpen s;
     selectedIncident := selectedIncident s;
     isIncidentPanelOpen := isIncidentPanelOpen s;
     selectedLocalIncident := selectedLocalIncident s;
     isLocalIncidentPanelOpen := isLocalIncidentPanelOpen s;
     searchQuery := searchQuery s;
     activeTypes := activeTypes s;
     now := now s;
     timers := timers s |}.

Definition setIsPanelOpen (v : bool) (s : State) : State :=
  {| selectedLocation := selectedLocation s;
     isPanelOpen := v;
     selectedIncident := selectedIncident s;
     isIncidentPanelOpen := isIncidentPanelOpen s;
     selectedLocalIncident := selectedLocalIncident s;
     isLocalIncidentPanelOpen := isLocalIncidentPanelOpen s;
     searchQuery := searchQuery s;
     activeTypes := activeTypes s;
     now := now s;
     timers := timers s |}.

Definition setSelectedIncident (v : option TrafficIncident) (s : State) : State :=
  {| selectedLocation := selectedLocation s;
     isPanelOpen := isPanelOpen s;
     selectedIncident := v;
     isIncidentPanelOpen := isIncidentPanelOpen s;
     selectedLocalIncident := selectedLocalIncident s;
     isLocalIncidentPanelOpen := isLocalIncidentPanelOpen s;
     searchQuery := searchQuery s;
     activeTypes := activeTypes s;
     now := now s;
     timers := timers s |}.

Definition setIsIncidentPanelOpen (v : bool) (s : State) : State :=
  {| selectedLocation := selectedLocation s;
     isPanelOpen := isPanelOpen s;
     selectedIncident := selectedIncident s;
     isIncidentPanelOpen := v;
     selectedLocalIncident := selectedLocalIncident s;
     isLocalIncidentPanelOpen := isLocalIncidentPanelOpen s;
     searchQuery := searchQuery s;
     activeTypes := activeTypes s;
     now := now s;
     timers := timers s |}.

Definition setSelectedLocalIncident (v : option Aggregator.LocalIncident)
    (s : State) : State :=
  {| selectedLocation := selectedLocation s;
     isPanelOpen := isPanelOpen s;
     selectedIncident := selectedIncident s;
     isIncidentPanelOpen := isIncidentPanelOpen s;
     selectedLocalIncident := v;
     isLocalIncidentPanelOpen := isLocalIncidentPanelOpen s;
     searchQuery := searchQuery s;
     activeTypes := activeTypes s;
     now := now s;
     timers := timers s |}.

Definition setIsLocalIncidentPanelOpen (v : bool) (s : State) : State :=
  {| selectedLocation := selectedLocation s;
     isPanelOpen := isPanelOpen s;
     selectedIncident := selectedIncident s;
     isIncidentPanelOpen := isIncidentPanelOpen s;
     selectedLocalIncident := selectedLocalIncident s;
     isLocalIncidentPanelOpen := v;
     searchQuery := searchQuery s;
     activeTypes := activeTypes s;
     now := now s;
     timers := timers s |}.

Definition setSearchQuery (v : list N) (s : State) : State :=
  {| selectedLocation := selectedLocation s;
     isPanelOpen := isPanelOpen s;
     selectedIncident := selectedIncident s;
     isIncidentPanelOpen := isIncidentPanelOpen s;
     selectedLocalIncident := selectedLocalIncident s;
     isLocalIncidentPanelOpen := isLocalIncidentPanelOpen s;
     searchQuery := v;
     activeTypes := activeTypes s;
     now := now s;
     timers := timers s |}.

(** [setActiveTypes] is called with an updater of the previous set. *)
Definition setActiveTypes (f : gset LocationType -> gset LocationType)
    (s : State) : State :=
  {| selectedLocation := selectedLocation s;
     isPanelOpen := isPanelOpen s;
     selectedIncident := selectedIncident s;
     isIncidentPanelOpen := isIncidentPanelOpen s;
     selectedLocalIncident := selectedLocalIncident s;
     isLocalIncidentPanelOpen := isLocalIncidentPanelOpen s;
     searchQuery := searchQuery s;
     activeTypes := f (activeTypes s);
     now := now s;
     timers := timers s |}.

(** [setTimeout(() => setSelected...(null), delay)]: the callback is queued
    with the time it is due. *)
Definition setTimeout (callback : Selection) (delay : Z) (s : State) : State :=
  {| selectedLocation := selectedLocation s;
     isPanelOpen := isPanelOpen s;
     selectedIncident := selectedIncident s;
     isIncidentPanelOpen := isIncidentPanelOpen s;
     selectedLocalIncident := selectedLocalIncident s;
     isLocalIncidentPanelOpen := isLocalIncidentPanelOpen s;
     searchQuery := searchQuery s;
     activeTypes := activeTypes s;
     now := now s;
     timers := timers s ++ [((now s + delay)%Z, callback)] |}.

(** The delay of the three [setTimeout] calls. *)
Definition closeDelay : Z := 300.

(** The handlers.  Each reads the state of the render it was created in,
    [s], and calls setters. *)
Definition handleMarkerClick (location : Location) (s : State) : State :=
  setIsPanelOpen true (setSelectedLocation (Some location) s).

Definition handleClosePanel (s : State) : State :=
  setTimeout SelLocation closeDelay (setIsPanelOpen false s).

Definition handleIncidentClick (incident : TrafficIncident) (s : State) : State :=
  let s1 := setIsIncidentPanelOpen true (setSelectedIncident (Some incident) s) in
  if isPanelOpen s then setIsPanelOpen false s1 else s1.

Definition handleCloseIncidentPanel (s : State) : State :=
  setTimeout SelIncident closeDelay (setIsIncidentPanelOpen false s).

Definition handleLocalIncidentClick (incident : Aggregator.LocalIncident)
    (s : State) : State :=
  let s1 :=
    setIsLocalIncidentPanelOpen true
      (setSelectedLocalIncident (Some incident) s) in
  let s2 := if isPanelOpen s then setIsPanelOpen false s1 else s1 in
  if isIncidentPanelOpen s then setIsIncidentPanelOpen false s2 else s2.

Definition handleCloseLocalIncidentPanel (s : State) : State :=
  setTimeout SelLocalIncident closeDelay (setIsLocalIncidentPanelOpen false s).

(** The updater passed to [setActiveTypes]. *)
Definition toggleUpdater (type : LocationType) (prev : gset LocationType)
  : gset LocationType :=
  let newSet :=
    if decide (type ∈ prev) then prev ∖ {[type]} else prev ∪ {[type]} in
  if decide (size newSet = 0%nat) then prev else newSet.

Definition toggleTypeFilter (type : LocationType) (s : State) : State :=
  setActiveTypes (toggleUpdater type) s.

(** A [setTimeout] callback runs: the selection it names is set to [null]. *)
Definition clearSelection (callback : Selection) (s : State) : State :=
  match callback with
  | SelLocation => setSelectedLocation None s
  | SelIncident => setSelectedIncident None s
  | SelLocalIncident => setSelectedLocalIncident None s
  end.

(** Time moves on to [t]: the callbacks due by then run, in the order they
    were scheduled, and leave the queue. *)
Definition advanceTo (t : Z) (s : State) : State :=
  let due := List.filter (fun tm => (fst tm <=? t)%Z) (timers s) in
  let later := List.filter (fun tm => negb (fst tm <=? t)%Z) (timers s) in
  let s' := fold_left (fun st tm => clearSelection (snd tm) st) due s in
  {| selectedLocation := selectedLocation s';
     isPanelOpen := isPanelOpen s';
     selectedIncident := selectedIncident s';
     isIncidentPanelOpen := isIncidentPanelOpen s';
     selectedLocalIncident := selectedLocalIncident s';
     isLocalIncidentPanelOpen := isLocalIncidentPanelOpen s';
     searchQuery := searchQuery s';
     activeTypes := activeTypes s';
     now := Z.max (now s) t;
     timers := later |}.

(** What can happen to the component: a click on a marker or on an entry
    of the incident list, the close control of a panel, a filter toggle,
    typing in the search box, and the passing of time.  [step] applies the
    handler of an event whatever the state; which events the page lets
    through in a state is [receivable], below. *)
Inductive Event :=
  | MarkerClick (location : Location)
  | ClosePanel
  | IncidentClick (incident : TrafficIncident)
  | CloseIncidentPanel
  | LocalIncidentClick (incident : Aggregator.LocalIncident)
  | CloseLocalIncidentPanel
  | ToggleType (type : LocationType)
  | SearchInput (q : list N)
  | Elapse (ms : Z).

Definition step (s : State) (e : Event) : State :=
  match e with
  | MarkerClick l => handleMarkerClick l s
  | ClosePanel => handleClosePanel s
  | IncidentClick i => handleIncidentClick i s
  | CloseIncidentPanel => handleCloseIncidentPanel s
  | LocalIncidentClick i => handleLocalIncidentClick i s
  | CloseLocalIncidentPanel => handleCloseLocalIncidentPanel s
  | ToggleType t => toggleTypeFilter t s
  | SearchInput q => setSearchQuery q s
  | Elapse ms => advanceTo (now s + Z.max 0 ms)%Z s
  end.

Definition run (events : list Event) : State := fold_left step events initial.

(** The states the component can be in. *)
Inductive reachable : State -> Prop :=
  | reachable_initial : reachable initial
  | reachable_step s e : reachable s -> reachable (step s e).

(** How many of the three detail panels are open. *)
Definition openPanels (s : State) : nat :=
  (if isPanelOpen s then 1 else 0) +
  (if isIncidentPanelOpen s then 1 else 0) +
  (if isLocalIncidentPanelOpen s then 1 else 0).

(** What a panel component puts on the page.  It returns [null] when its
    selection is [null].  With a selection it renders the panel, with its
    close button, and a backdrop over the whole window ([fixed inset-0
    z-40], above the map at [z-0]); the backdrop takes the pointer while the
    flag of the panel is set, and is [pointer-events-none] otherwise. *)
Definition isRendered {A} (selection : option A) : bool :=
  match selection with
  | Some _ => true
  | None => false
  end.

(** A backdrop takes the pointer: some panel has its flag set and a
    selection to show. *)
Definition backdropActive (s : State) : bool :=
  (isPanelOpen s && isRendered (selectedLocation s)) ||
  (isIncidentPanelOpen s && isRendered (selectedIncident s)) ||
  (isLocalIncidentPanelOpen s && isRendered (selectedLocalIncident s)).

(** Events the page lets through in a state.  A click on a marker is taken
    to come from the pointer, and to reach the marker only when no backdrop
    lies over the map.  A close control exists when its panel is rendered.
    The entries of the incident list, the filter buttons and the search box
    are native controls. *)
Definition receivable (s : State) (e : Event) : bool :=
  match e with
  | MarkerClick _ | IncidentClick _ => negb (backdropActive s)
  | ClosePanel => isRendered (selectedLocation s)
  | CloseIncidentPanel => isRendered (selectedIncident s)
  | CloseLocalIncidentPanel => isRendered (selectedLocalIncident s)
  | LocalIncidentClick _ | ToggleType _ | SearchInput _ | Elapse _ => true
  end.

(** The events of a list, one after the other from [s]: the state they lead
    to, or [None] when the page does not let one of them through. *)
Fixpoint runFrom (s : State) (events : list Event) : option State :=
  match events with
  | [] => Some s
  | e :: rest => if receivable s e then runFrom (step s e) rest else None
  end.

(** The two tests of the [filter] callback of [filteredLocations]. *)
Definition matchesSearch (s : State) (location : Location) : bool :=
  match searchQuery s with
  | [] => true
  | q => includes (toLowerCase (loc_name location)) (toLowerCase q)
  end.

Definition matchesType (s : State) (location : Location) : bool :=
  bool_decide (loc_type location ∈ activeTypes s).

Definition filteredLocations (s : State) (locations : list Location)
  : list Location :=
  List.filter (fun l => matchesSearch s l && matchesType s l) locations.

End MapState.

(** ** Notions used to state properties of the sanitiser *)

Module SanitizeSpec.

Import Sanitize.

(** What [escapeHtml] writes for one code unit. *)
Definition escapeUnit (c : N) : list N :=
  match escapeMap c with
  | Some r => r
  | None => [c]
  end.

(** A code unit that is none of the angle brackets and quotes. *)
Definition noMarkup (c : N) : Prop :=
  c <> LT /\ c <> GT /\ c <> QUOT /\ c <> APOS.

End SanitizeSpec.

(** ** lib/local-intelligence.ts: top story and time labels *)

Module LocalIntel.

Import Aggregator.

Record TopStory := {
  ts_id : list N;
  ts_headline : list N;
  ts_summary : list N;
  ts_source : list N;
  ts_sourceUrl : option (list N);
  ts_timestamp : list N
}.

(** The two object literals pushed on [stories]. *)
Definition lakeExpoStory (article : Article) : TopStory :=
  {| ts_id := art_id article;
     ts_headline := art_title article;
     ts_summary := art_summary article;
     ts_source := lit "Lake Expo";
     ts_sourceUrl := Some (art_url article);
     ts_timestamp := art_publishedAt article |}.

Definition cityStory (announcement : Article) : TopStory :=
  {| ts_id := art_id announcement;
     ts_headline := art_title announcement;
     ts_summary := art_summary announcement;
     ts_source := lit "City of Lake Ozark";
     ts_sourceUrl := Some (art_url announcement);
     ts_timestamp := art_publishedAt announcement |}.

(** What one settled fetch pushes on [stories]: the first item of its list,
    when the fetch is fulfilled and [ok] and the list is not empty. *)
Definition firstStory (field : Payload -> option (list Article))
    (mk : Article -> TopStory) (r : Settled) : completion (list TopStory) :=
  match r with
  | fulfilled value =>
      if ok value then
        bind (json value) (fun data =>
          Normal (match field data with
                  | Some (item :: _) => [mk item]
                  | _ => []
                  end))
      else Normal []
  | rejected => Normal []
  end.

(** A JavaScript number that holds an integer or [NaN] ([None]). *)
Definition floorDiv (x : option Z) (k : Z) : option Z :=
  option_map (fun v => (v / k)%Z) x.

Definition num_lt (x : option Z) (k : Z) : bool :=
  match x with
  | Some v => (v <? k)%Z
  | None => false
  end.

(** [x !== 1] *)
Definition num_not_one (x : option Z) : bool :=
  match x with
  | Some v => negb (v =? 1)%Z
  | None => true
  end.

(** The number as a template writes it. *)
Definition numberToString (x : option Z) : list N :=
  match x with
  | Some v => lit (NilZero.string_of_int (Z.to_int v))
  | None => lit "NaN"
  end.

Section Host.

Variable Date_parse : list N -> option Z.

(** The time [new Date()] reads. *)
Variable now : Z.

(** [date.toLocaleDateString()], which depends on the locale of the host. *)
Variable toLocaleDateString : option Z -> list N.

(** [dateB - dateA] of the comparator. *)
Definition compareStories (a b : TopStory) : option Z :=
  match Date_parse (ts_timestamp b), Date_parse (ts_timestamp a) with
  | Some tb, Some ta => Some (tb - ta)%Z
  | _, _ => None
  end.

Definition fetchTopStory_body (lakeExpoResponse cityResponse : Settled)
  : completion (option TopStory) :=
  bind (firstStory articles lakeExpoStory lakeExpoResponse) (fun fromLakeExpo =>
  bind (firstStory announcements cityStory cityResponse) (fun fromCity =>
  let stories := fromLakeExpo ++ fromCity in
  match stories with
  | [] => Normal None
  | _ :: _ => Normal (head (sortWith compareStories stories))
  end)).

(** [fetchTopStory], given what the two fetches settled to. *)
Definition fetchTopStory (lakeExpoResponse cityResponse : Settled)
  : option TopStory :=
  match fetchTopStory_body lakeExpoResponse cityResponse with
  | Normal story => story
  | Throw => None
  end.

(** [isWithin72Hours]: the difference in hours, a fraction, against 72. *)
Definition isWithin72Hours (timestamp : list N) : bool :=
  match Date_parse timestamp with
  | Some incidentTime =>
      let hoursDiff := (inject_Z (now - incidentTime) / inject_Z (1000 * 60 * 60))%Q in
      Qle_bool hoursDiff 72
  | None => false
  end.

Definition formatTimeSince (timestamp : list N) : list N :=
  let date := Date_parse timestamp in
  let diffMs := option_map (fun t => (now - t)%Z) date in
  let diffMins := floorDiv diffMs 60000 in
  let diffHours := floorDiv diffMins 60 in
  let diffDays := floorDiv diffHours 24 in
  if num_lt diffMins 1 then lit "Just now"
  else if num_lt diffMins 60 then numberToString diffMins ++ lit " min ago"
  else if num_lt diffHours 24 then
    numberToString diffHours ++ lit " hour" ++
    (if num_not_one diffHours then lit "s" else lit "") ++ lit " ago"
  else if num_lt diffDays 3 then
    numberToString diffDays ++ lit " day" ++
    (if num_not_one diffDays then lit "s" else lit "") ++ lit " ago"
  else toLocaleDateString date.

End Host.

End LocalIntel.

(** ** lib/traffic-incidents.ts *)

Module Traffic.

Import Classifier MapState Aggregator.

(** [LAKE_AREA_BOUNDS] *)
Definition north : Q := Double.literal 3850 100.
Definition south : Q := Double.literal 3795 100.
Definition east : Q := Double.literal (-9250) 100.
Definition west : Q := Double.literal (-9300) 100.

Definition isWithinLakeArea (lat lng : Q) : bool :=
  Qle_bool south lat && Qle_bool lat north &&
  Qle_bool west lng && Qle_bool lng east.

Definition normalizeIncidentType (type : list N) : IncidentType :=
  let typeLower := toLowerCase type in
  if anyOf typeLower ["accident"; "crash"; "collision"]%string then TAccident
  else if anyOf typeLower ["closure"; "closed"; "blocked"]%string then TClosure
  else if anyOf typeLower ["construction"; "work"; "maintenance"]%string
  then TConstruction
  else if anyOf typeLower ["disabled"; "breakdown"; "stalled"]%string then TDisabled
  else if anyOf typeLower ["hazard"; "debris"; "obstruction"]%string then THazard
  else TOther.

Definition incidentType_eqb (a b : IncidentType) : bool :=
  match a, b with
  | TAccident, TAccident | TClosure, TClosure | TConstruction, TConstruction
  | TDisabled, TDisabled | THazard, THazard | TOther, TOther => true
  | _, _ => false
  end.

(** The description is lower-cased in the source and then not used. *)
Definition determineSeverity (type : IncidentType) (description : list N)
  : IncidentSeverity :=
  if incidentType_eqb type TClosure || incidentType_eqb type TAccident
  then SevAlert
  else if incidentType_eqb type TConstruction || incidentType_eqb type THazard
  then SevAdvisory
  else SevInfo.

(** An element of the Overpass answer: its [type], numeric [id], [center]
    ([lat], [lon]), [tags] and [timestamp], each possibly absent. *)
Record Element := {
  el_type : list N;
  el_id : N;
  el_center : option (Q * Q);
  el_tags : option (gmap string (list N));
  el_timestamp : option (list N)
}.

(** [tags.key]: the value, [None] for [undefined]. *)
Definition tag (tags : gmap string (list N)) (key : string) : option (list N) :=
  tags !! key.

(** Truthiness of an optional string: present and not empty. *)
Definition truthy (v : option (list N)) : bool :=
  match v with
  | Some (_ :: _) => true
  | _ => false
  end.

(** [v || d] for an optional string [v]. *)
Definition orElse (v : option (list N)) (d : list N) : list N :=
  match v with
  | Some (c :: s) => c :: s
  | _ => d
  end.

(** [v === 'text'] *)
Definition isText (v : option (list N)) (text : string) : bool :=
  bool_decide (v = Some (lit text)).

(** The callback of [filter]. *)
Definition keepElement (element : Element) : bool :=
  if negb (bool_decide (el_type element = lit "way")) then false
  else
    match el_center element with
    | None => false
    | Some (lat, lng) => isWithinLakeArea lat lng
    end.

(** The type and description read from the tags. *)
Definition classifyTags (tags : gmap string (list N)) : IncidentType * list N :=
  if truthy (tag tags "construction") || isText (tag tags "highway") "construction"
  then (TConstruction,
        if truthy (tag tags "construction")
        then lit "Construction: " ++ orElse (tag tags "construction") []
        else orElse (tag tags "name") (lit "Road construction"))
  else if isText (tag tags "access") "no" || truthy (tag tags "barrier")
  then (TClosure,
        if truthy (tag tags "barrier")
        then lit "Road closure: " ++ orElse (tag tags "barrier") []
        else orElse (tag tags "name") (lit "Road closed"))
  else if truthy (tag tags "hazard") || isText (tag tags "natural") "hazard"
  then (THazard,
        if truthy (tag tags "hazard")
        then lit "Hazard: " ++ orElse (tag tags "hazard") []
        else orElse (tag tags "name") (lit "Road hazard"))
  else
    let name := orElse (tag tags "name") (orElse (tag tags "ref") []) in
    (normalizeIncidentType name, orElse (Some name) (lit "Traffic incident")).

Section Host.

Variable Date_parse : list N -> option Z.

(** The time [new Date()] reads. *)
Variable now : Z.

(** [toISOString] of a valid date. *)
Variable toISOString : Z -> list N.

(** [new Date(s).toISOString()]: a [RangeError] for an invalid date. *)
Definition isoOf (s : list N) : completion (list N) :=
  match Date_parse s with
  | Some t => Normal (toISOString t)
  | None => Throw
  end.

(** The callback of [map], for an element the filter kept. *)
Definition toIncident (element : Element) : completion TrafficIncident :=
  let tags := default ∅ (el_tags element) in
  let '(lat, lng) := default (0, 0)%Q (el_center element) in
  let '(incidentType, description) := classifyTags tags in
  let id :=
    lit "osm-" ++ el_type element ++ lit "-" ++
    LocalIntel.numberToString (Some (Z.of_N (el_id element))) in
  bind (if truthy (el_timestamp element)
        then isoOf (orElse (el_timestamp element) [])
        else Normal (toISOString now))
    (fun timestamp =>
       Normal {| ti_id := id;
                 ti_type := incidentType;
                 ti_description := description;
                 ti_lat := lat;
                 ti_lng := lng;
                 ti_severity := determineSeverity incidentType description;
                 ti_timestamp := timestamp;
                 ti_source := Some (lit "OpenStreetMap") |}).

(** [elements.map(callback)], stopping at the first exception. *)
Fixpoint mapElements (elements : list Element) : completion (list TrafficIncident) :=
  match elements with
  | [] => Normal []
  | element :: rest =>
      bind (toIncident element) (fun incident =>
      bind (mapElements rest) (fun incidents =>
      Normal (incident :: incidents)))
  end.

(** The answer of the Overpass server: [ok], and the [elements] of the
    parsed body ([None] when missing or not an array); [json()] may throw. *)
Record OverpassResponse := {
  ov_ok : bool;
  ov_json : completion (option (list Element))
}.

(** [fetchTrafficIncidents], given the outcome of the [fetch] ([None] when
    it rejected). *)
Definition fetchTrafficIncidents_body (response : option OverpassResponse)
  : completion (list TrafficIncident) :=
  match response with
  | None => Throw
  | Some response =>
      if negb (ov_ok response) then Normal []
      else
        bind (ov_json response) (fun elements =>
          match elements with
          | None => Normal []
          | Some elements => mapElements (List.filter keepElement elements)
          end)
  end.

Definition fetchTrafficIncidents (response : option OverpassResponse)
  : list TrafficIncident :=
  match fetchTrafficIncidents_body response with
  | Normal incidents => incidents
  | Throw => []
  end.

End Host.

Definition severity_eqb (a b : IncidentSeverity) : bool :=
  match a, b with
  | SevInfo, SevInfo | SevAdvisory, SevAdvisory | SevAlert, SevAlert => true
  | _, _ => false
  end.

Definition getHighestIncidentSeverity (incidents : list TrafficIncident)
  : option IncidentSeverity :=
  match incidents with
  | [] => None
  | _ =>
      if existsb (fun i => severity_eqb (ti_severity i) SevAlert) incidents
      then Some SevAlert
      else if existsb (fun i => severity_eqb (ti_severity i) SevAdvisory) incidents
      then Some SevAdvisory
      else Some SevInfo
  end.

(** The rank of a severity: info below advisory below alert. *)
Definition severityRank (s : IncidentSeverity) : nat :=
  match s with
  | SevInfo => 0
  | SevAdvisory => 1
  | SevAlert => 2
  end.

End Traffic.

(** ** lib/weather-alerts.ts *)

Module Weather.

Record WeatherAlert := {
  wa_id : list N;
  wa_event : list N;
  wa_severity : list N;
  wa_headline : list N;
  wa_description : list N;
  wa_areaDesc : list N;
  wa_effective : list N;
  wa_expires : list N
}.

(** [AlertSeverity] without its [null], which is [None] below. *)
Inductive AlertLevel := LWarning | LWatch | LAdvisory.

(** [x === 'warning'] and the like, on a severity that may be [null]. *)
Definition isLevel (x : option AlertLevel) (l : AlertLevel) : bool :=
  match x, l with
  | Some LWarning, LWarning | Some LWatch, LWatch
  | Some LAdvisory, LAdvisory => true
  | _, _ => false
  end.

(** [a === b] on strings. *)
Definition string_eqb (a b : list N) : bool := bool_decide (a = b).

Definition getAlertSeverity (event severity : list N) : option AlertLevel :=
  let eventLower := toLowerCase event in
  let severityLower := toLowerCase severity in
  if includes eventLower (lit "warning") ||
     string_eqb severityLower (lit "extreme") ||
     string_eqb severityLower (lit "severe")
  then Some LWarning
  else if includes eventLower (lit "watch") ||
          string_eqb severityLower (lit "moderate")
  then Some LWatch
  else if includes eventLower (lit "advisory") ||
          string_eqb severityLower (lit "minor")
  then Some LAdvisory
  else None.

(** The [properties] of a feature of the NOAA answer, every field possibly
    absent. *)
Record Properties := {
  p_status : option (list N);
  p_id : option (list N);
  p_event : option (list N);
  p_severity : option (list N);
  p_headline : option (list N);
  p_description : option (list N);
  p_areaDesc : option (list N);
  p_effective : option (list N);
  p_expires : option (list N)
}.

Record Feature := { properties : option Properties }.

(** The callback of [filter]. *)
Definition isActual (feature : Feature) : bool :=
  match properties feature with
  | Some props => bool_decide (p_status props = Some (lit "Actual"))
  | None => false
  end.

(** The callback of [map], on the properties of a feature the filter kept. *)
Definition toAlert (props : Properties) : WeatherAlert :=
  {| wa_id := Traffic.orElse (p_id props) (lit "");
     wa_event := Traffic.orElse (p_event props) (lit "Unknown");
     wa_severity := Traffic.orElse (p_severity props) (lit "Unknown");
     wa_headline :=
       Traffic.orElse (p_headline props)
         (Traffic.orElse (p_event props) (lit "Weather Alert"));
     wa_description := Traffic.orElse (p_description props) (lit "");
     wa_areaDesc := Traffic.orElse (p_areaDesc props) (lit "");
     wa_effective := Traffic.orElse (p_effective props) (lit "");
     wa_expires := Traffic.orElse (p_expires props) (lit "") |}.

(** The answer of the NOAA server: [ok], and the [features] of the parsed
    body ([None] when missing or not an array); [json()] may throw. *)
Record AlertsResponse := {
  al_ok : bool;
  al_json : Aggregator.completion (option (list Feature))
}.

(** [fetchWeatherAlerts], given the outcome of the [fetch] ([None] when it
    rejected). *)
Definition fetchWeatherAlerts (response : option AlertsResponse)
  : list WeatherAlert :=
  match response with
  | None => []
  | Some response =>
      if negb (al_ok response) then []
      else
        match al_json response with
        | Aggregator.Throw => []
        | Aggregator.Normal None => []
        | Aggregator.Normal (Some features) =>
            omap (fun feature => toAlert <$> properties feature)
              (List.filter isActual features)
        end
  end.

(** The loop of [getHighestSeverity], from the value [highestSeverity] has
    on entry. *)
Fixpoint highestFrom (highestSeverity : option AlertLevel)
    (alerts : list WeatherAlert) : option AlertLevel :=
  match alerts with
  | [] => highestSeverity
  | alert :: rest =>
      let severity := getAlertSeverity (wa_event alert) (wa_severity alert) in
      if isLevel severity LWarning then Some LWarning
      else
        let highestSeverity :=
          if isLevel severity LWatch && negb (isLevel highestSeverity LWarning)
          then Some LWatch else highestSeverity in
        let highestSeverity :=
          if isLevel severity LAdvisory &&
             match highestSeverity with None => true | Some _ => false end
          then Some LAdvisory else highestSeverity in
        highestFrom highestSeverity rest
  end.

Definition getHighestSeverity (alerts : list WeatherAlert) : option AlertLevel :=
  match alerts with
  | [] => None
  | _ => highestFrom None alerts
  end.

(** [a] and [b] are the same up to the case of ASCII letters. *)
Fixpoint equals_ci (a b : list N) : bool :=
  match a, b with
  | [], [] => true
  | c :: a', d :: b' => (upperAscii c =? upperAscii d) && equals_ci a' b'
  | _, _ => false
  end.

(** A match of [/\s+word$/i] that starts at the head of [s]: white space,
    then the word, then the end of the string. *)
Definition tailMatchesHere (word s : list N) : bool :=
  match takeWhile isWhiteSpace s with
  | [] => false
  | run => equals_ci (skipn (length run) s) word
  end.

(** [s.replace(/\s+word$/i, '')]: the leftmost match is removed. *)
Fixpoint stripTail (word s : list N) : list N :=
  if tailMatchesHere word s then []
  else
    match s with
    | [] => []
    | c :: s' => c :: stripTail word s'
    end.

Definition getShortAlertName (alert : WeatherAlert) : list N :=
  let event := wa_event alert in
  let cleaned :=
    stripTail (lit "Advisory")
      (stripTail (lit "Watch") (stripTail (lit "Warning") event)) in
  match cleaned with
  | [] => wa_event alert
  | _ => cleaned
  end.

(** The rank of an alert level, [null] lowest. *)
Definition levelRank (l : option AlertLevel) : nat :=
  match l with
  | None => 0
  | Some LAdvisory => 1
  | Some LWatch => 2
  | Some LWarning => 3
  end.

End Weather.

(** ** The status bar: the condition shown *)

Module StatusBar.

Import Classifier.

Inductive ConditionLevel := CNormal | CAdvisory | CAlert.

(** [x === 'alert'] and the like, on a severity that may be [null]. *)
Definition isSeverity (x : option IncidentSeverity) (s : IncidentSeverity) : bool :=
  match x with
  | Some v => Traffic.severity_eqb v s
  | None => false
  end.

(** [effectiveCondition] of [conditionData]. *)
Definition effectiveCondition (initialCondition : ConditionLevel)
    (weatherAlerts : list Weather.WeatherAlert)
    (trafficIncidents : list MapState.TrafficIncident) : ConditionLevel :=
  let alertSeverity := Weather.getHighestSeverity weatherAlerts in
  let trafficIncidentSeverity :=
    Traffic.getHighestIncidentSeverity trafficIncidents in
  if Weather.isLevel alertSeverity Weather.LWarning then CAlert
  else if Weather.isLevel alertSeverity Weather.LWatch ||
          Weather.isLevel alertSeverity Weather.LAdvisory
  then CAdvisory
  else if isSeverity trafficIncidentSeverity SevAlert ||
          isSeverity trafficIncidentSeverity SevAdvisory ||
          isSeverity trafficIncidentSeverity SevInfo
  then CAdvisory
  else initialCondition.

End StatusBar.

(** ** The [Map] component: incident markers and their count *)

Module MapView.

Import Classifier Aggregator.

(** [incident.lat != null && incident.lng != null && !isNaN(...)] *)
Definition hasCoordinates (incident : LocalIncident) : bool :=
  match lat incident, lng incident with
  | Some _, Some _ => true
  | _, _ => false
  end.

Definition isAccident (incident : LocalIncident) : bool :=
  category_eqb (type incident) Accident.

(** The local incidents drawn with the traffic icon. *)
Definition trafficLayerLocals (showTrafficIncidents : bool)
    (localIncidents : list LocalIncident) : list LocalIncident :=
  if showTrafficIncidents
  then List.filter (fun i => isAccident i && hasCoordinates i) localIncidents
  else [].

(** The local incidents drawn with the local icon. *)
Definition localLayer (showTrafficIncidents showLocalIncidents : bool)
    (localIncidents : list LocalIncident) : list LocalIncident :=
  if showLocalIncidents
  then List.filter
         (fun i => negb (showTrafficIncidents && isAccident i) && hasCoordinates i)
         localIncidents
  else [].

(** The incident markers on the map. *)
Definition incidentMarkers (showTrafficIncidents showLocalIncidents : bool)
    (trafficIncidents : list MapState.TrafficIncident)
    (localIncidents : list LocalIncident) : nat :=
  (if showTrafficIncidents then length trafficIncidents else 0) +
  length (trafficLayerLocals showTrafficIncidents localIncidents) +
  length (localLayer showTrafficIncidents showLocalIncidents localIncidents).

(** The number in "incidents visible". *)
Definition visibleCount (showTrafficIncidents showLocalIncidents : bool)
    (trafficIncidents : list MapState.TrafficIncident)
    (localIncidents : list LocalIncident) : nat :=
  let count := 0%nat in
  let count :=
    if showTrafficIncidents
    then (count + length trafficIncidents +
          length (List.filter isAccident localIncidents))%nat
    else count in
  if showLocalIncidents
  then
    let localCount :=
      if showTrafficIncidents
      then length (List.filter (fun i => negb (isAccident i)) localIncidents)
      else length localIncidents in
    (count + localCount)%nat
  else count.

End MapView.

(** ** Notions used to state properties of the alert names *)

Module WeatherSpec.

Definition notWhiteSpace (c : N) : Prop := isWhiteSpace c = false.

(** The words of the three patterns of [getShortAlertName]. *)
Definition suffixWords : list (list N) :=
  [lit "Warning"; lit "Watch"; lit "Advisory"].

End WeatherSpec.

(** ** The news routes: the Lake Expo articles and the city announcements *)

Module NewsRoutes.

Import Sanitize Aggregator.

Definition SLASH : N := 47.

(** [s.split('/').pop()]: what follows the last slash, the whole string
    when there is none. *)
Definition lastSegment (s : list N) : list N :=
  rev (takeWhile (fun c => negb (c =? SLASH)) (rev s)).

(** What the regular expressions give for one match of the heading
    pattern: its groups 1 and 2, group 1 of the paragraph pattern when it
    matches in the section after the heading, and the date when one is
    found after the heading. *)
Record TitleMatch := {
  tm_href : list N;
  tm_text : list N;
  tm_summary : option (list N);
  tm_date : option (list N)
}.

(** The groups 1 and 2 of one match of a link pattern. *)
Record LinkMatch := {
  lm_href : list N;
  lm_text : list N
}.

Section Route.

(** The site, the prefix of the identifiers and the bound on the number of
    items of one route. *)
Variable base : list N.
Variable idPrefix : list N.
Variable limit : nat.

(** [new Date().toISOString()] and [Date.now()] as read in iteration [i]. *)
Variable isoNow : nat -> list N.
Variable dateNow : nat -> Z.

(** [href.startsWith('http') ? href : `${base}${href}`] *)
Definition absoluteUrl (href : list N) : list N :=
  if startsWith href (lit "http") then href else base ++ href.

(** [`${idPrefix}${sanitizedUrl.split('/').pop() || Date.now()}`] *)
Definition itemId (i : nat) (sanitizedUrl : list N) : list N :=
  idPrefix ++
  match lastSegment sanitizedUrl with
  | [] => LocalIntel.numberToString (Some (dateNow i))
  | segment => segment
  end.

(** [title && !seenUrls.has(url) && title.length > 10] *)
Definition accepts (seenUrls : gset (list N)) (url title : list N) : bool :=
  match title with [] => false | _ => true end &&
  negb (bool_decide (url ∈ seenUrls)) &&
  Nat.ltb 10 (length title).

(** The item pushed for a match of the heading pattern. *)
Definition titleItem (i : nat) (m : TitleMatch) (url title : list N) : Article :=
  let summary :=
    match tm_summary m with
    | Some text => replaceAll whitespaceMatcher 0 (trim text)
    | None => title
    end in
  let publishedAt :=
    match tm_date m with
    | Some date => date
    | None => isoNow i
    end in
  let sanitizedUrl := sanitizeUrl url in
  let sanitizedTitle := sanitizeText title in
  let sanitizedSummary := truncateText (sanitizeText summary) 200 in
  {| art_id := itemId i sanitizedUrl;
     art_title := sanitizedTitle;
     art_summary := sanitizedSummary;
     art_url := sanitizedUrl;
     art_publishedAt := publishedAt |}.

(** The item pushed for a match of a link pattern. *)
Definition linkItem (i : nat) (url title : list N) : Article :=
  let sanitizedUrl := sanitizeUrl url in
  let sanitizedTitle := sanitizeText title in
  {| art_id := itemId i sanitizedUrl;
     art_title := sanitizedTitle;
     art_summary := sanitizedTitle;
     art_url := sanitizedUrl;
     art_publishedAt := isoNow i |}.

(** The [while] loop over the matches of the heading pattern, from
    iteration [i] on: it ends with the matches or when [limit] items have
    been pushed. *)
Fixpoint titleLoop (i : nat) (matches : list TitleMatch)
    (seenUrls : gset (list N)) (items : list Article)
  : gset (list N) * list Article :=
  match matches with
  | [] => (seenUrls, items)
  | m :: rest =>
      if negb (Nat.ltb (length items) limit) then (seenUrls, items)
      else
        let url := absoluteUrl (tm_href m) in
        let title := trim (tm_text m) in
        if accepts seenUrls url title
        then titleLoop (S i) rest ({[url]} ∪ seenUrls)
               (items ++ [titleItem i m url title])
        else titleLoop (S i) rest seenUrls items
  end.

(** The [while] loop over the matches of a link pattern; [toUrl] makes the
    address of the group 1. *)
Fixpoint linkLoop (toUrl : list N -> list N) (i : nat) (matches : list LinkMatch)
    (seenUrls : gset (list N)) (items : list Article)
  : gset (list N) * list Article :=
  match matches with
  | [] => (seenUrls, items)
  | m :: rest =>
      if negb (Nat.ltb (length items) limit) then (seenUrls, items)
      else
        let url := toUrl (lm_href m) in
        let title := trim (lm_text m) in
        if accepts seenUrls url title
        then linkLoop toUrl (S i) rest ({[url]} ∪ seenUrls)
               (items ++ [linkItem i url title])
        else linkLoop toUrl (S i) rest seenUrls items
  end.

End Route.

(** What the patterns find in a page of Lake Expo. *)
Record Page := {
  titleMatches : list TitleMatch;
  linkMatches : list LinkMatch
}.

(** A response and its body; [text()] may throw. *)
Record PageResponse (Body : Type) := {
  pr_ok : bool;
  pr_text : completion Body
}.
Arguments pr_ok {Body} _.
Arguments pr_text {Body} _.

Inductive SettledPage :=
  | fulfilledPage (value : PageResponse Page)
  | rejectedPage.

Section LakeExpo.

Variable Date_parse : list N -> option Z.
Variable isoNow : nat -> list N.
Variable dateNow : nat -> Z.

Definition lakeExpo : list N := lit "https://www.lakeexpo.com".

(** [parseArticles]; [i] is the iteration its first match is read in. *)
Definition parseArticles (i : nat) (page : Page) : list Article :=
  let '(seenUrls, articles) :=
    titleLoop lakeExpo (lit "lakeexpo-") 50 isoNow dateNow i
      (titleMatches page) ∅ [] in
  if Nat.ltb (length articles) 5
  then snd (linkLoop (lit "lakeexpo-") 50 isoNow dateNow
              (fun href => lakeExpo ++ href)
              (i + length (titleMatches page)) (linkMatches page)
              seenUrls articles)
  else articles.

(** The callback of the two [forEach]. *)
Definition addUnseen (state : gset (list N) * list Article) (article : Article)
  : gset (list N) * list Article :=
  let '(seenUrls, articles) := state in
  if bool_decide (art_url article ∈ seenUrls) then state
  else ({[art_url article]} ∪ seenUrls, articles ++ [article]).

(** One of the two sections of the site. *)
Definition addSection (i : nat) (response : SettledPage)
    (state : gset (list N) * list Article)
  : completion (gset (list N) * list Article) :=
  match response with
  | fulfilledPage value =>
      if pr_ok value
      then bind (pr_text value) (fun page =>
             Normal (fold_left addUnseen (parseArticles i page) state))
      else Normal state
  | rejectedPage => Normal state
  end.

(** The comparator of the sort of the articles. *)
Definition compareArticles (a b : Article) : option Z :=
  match Date_parse (art_publishedAt a), Date_parse (art_publishedAt b) with
  | Some dateA, Some dateB => Some (dateB - dateA)%Z
  | _, _ => None
  end.

(** The body of the [try] of the route of Lake Expo; [i] is the iteration
    the second page is read from. *)
Definition lakeExpoNews_body (i : nat) (crimeResponse communityResponse : SettledPage)
  : completion (list Article) :=
  bind (addSection 0 crimeResponse (∅, [])) (fun state =>
  bind (addSection i communityResponse state) (fun state =>
  Normal (firstn 50 (sortWith compareArticles (snd state))))).

(** The [articles] of the answer of the route. *)
Definition lakeExpoNews (i : nat) (crimeResponse communityResponse : SettledPage)
  : list Article :=
  match lakeExpoNews_body i crimeResponse communityResponse with
  | Normal articles => articles
  | Throw => []
  end.

End LakeExpo.

(** What the patterns find in the page of the city: the headings, and the
    links of the news section when there is one. *)
Record CityPage := {
  headings : list TitleMatch;
  newsSection : option (list LinkMatch)
}.

Section City.

Variable isoNow : nat -> list N.
Variable dateNow : nat -> Z.

Definition city : list N := lit "https://cityoflakeozark.net".

(** The [announcements] of the answer of the route of the city, given the
    outcome of the [fetch] ([None] when it rejected). *)
Definition cityAnnouncements (response : option (PageResponse CityPage))
  : list Article :=
  match response with
  | None => []
  | Some response =>
      if negb (pr_ok response) then []
      else
        match pr_text response with
        | Throw => []
        | Normal page =>
            let '(seenUrls, announcements) :=
              titleLoop city (lit "city-") 30 isoNow dateNow 0
                (headings page) ∅ [] in
            match announcements, newsSection page with
            | [], Some links =>
                snd (linkLoop (lit "city-") 30 isoNow dateNow
                       (absoluteUrl city) (length (headings page)) links
                       seenUrls announcements)
            | _, _ => announcements
            end
        end
  end.

End City.

(** An address the routes can store: the placeholder, or one that starts
    with http:// or https:// in any case. *)
Definition storedUrl (url : list N) : Prop :=
  url = lit "#" \/
  startsWith_ci url (lit "http://") = true \/
  startsWith_ci url (lit "https://") = true.

(** The fields of a stored item. *)
Definition storedItem (a : Article) : Prop :=
  storedUrl (art_url a) /\
  (10 < length (art_title a))%nat /\
  Forall SanitizeSpec.noMarkup (art_title a) /\
  Forall SanitizeSpec.noMarkup (art_summary a).

(** What the two [forEach] keep true: the addresses of the kept articles
    are distinct and recorded in [seenUrls]. *)
Definition merged (state : gset (list N) * list Article) : Prop :=
  NoDup (List.map art_url (snd state)) /\
  forall a, In a (snd state) -> art_url a ∈ fst state.

End NewsRoutes.

(** ** Time labels and the incident list of the components *)

Module Views.

Import Aggregator LocalIntel.

Section Host.

Variable Date_parse : list N -> option Z.

(** The time [new Date()] reads. *)
Variable now : Z.

(** [date.toLocaleDateString()], of a valid date or of an invalid one. *)
Variable toLocaleDateString : option Z -> list N.

(** [formatTimestamp] of [TopStoryBanner]. *)
Definition bannerTimestamp (timestamp : list N) : list N :=
  let date := Date_parse timestamp in
  let diffMs := option_map (fun t => (now - t)%Z) date in
  let diffMins := floorDiv diffMs 60000 in
  let diffHours := floorDiv diffMins 60 in
  if num_lt diffMins 60 then numberToString diffMins ++ lit " min ago"
  else if num_lt diffHours 24 then
    numberToString diffHours ++ lit " hour" ++
    (if num_not_one diffHours then lit "s" else lit "") ++ lit " ago"
  else toLocaleDateString date.

(** [formatTimestamp] of [IncidentPanel]. *)
Definition panelTimestamp (timestamp : list N) : list N :=
  let date := Date_parse timestamp in
  let diffMs := option_map (fun t => (now - t)%Z) date in
  let diffMins := floorDiv diffMs 60000 in
  if num_lt diffMins 1 then lit "Just now"
  else if num_lt diffMins 60 then numberToString diffMins ++ lit " min ago"
  else
    let diffHours := floorDiv diffMins 60 in
    if num_lt diffHours 24 then
      numberToString diffHours ++ lit " hour" ++
      (if num_not_one diffHours then lit "s" else lit "") ++ lit " ago"
    else toLocaleDateString date.

(** [sortedIncidents] of [IncidentListView]. *)
Definition sortedIncidents (incidents : list LocalIncident) : list LocalIncident :=
  sortWith (compareIncidents Date_parse) incidents.

End Host.

End Views.

(** ** lib/embed-utils.ts *)

Module Embed.

Import Sanitize Aggregator.

(** [s.match(re)] for a regular expression without the [g] flag, given by
    its matcher [m]: the result of [m] at the leftmost position where it
    succeeds. *)
Fixpoint search {X} (m : list N -> option X) (s : list N) : option X :=
  match m s with
  | Some x => Some x
  | None =>
      match s with
      | [] => None
      | _ :: s' => search m s'
      end
  end.

(** [[a-zA-Z0-9_]] and [[a-zA-Z0-9_-]] *)
Definition isWordChar (c : N) : bool :=
  ((97 <=? c) && (c <=? 122)) || ((65 <=? c) && (c <=? 90)) ||
  isDigit c || (c =? 95).

Definition isClipChar (c : N) : bool := isWordChar c || (c =? 45).

(** A greedy class repeated at least once: the longest run, [None] when
    it is empty. *)
Definition run1 (p : N -> bool) (s : list N) : option (list N) :=
  match takeWhile p s with
  | [] => None
  | run => Some run
  end.

(** [/twitch\.tv\/videos\/(\d+)/] at the head of [s]: group 1. *)
Definition videoAt (s : list N) : option (list N) :=
  if startsWith s (lit "twitch.tv/videos/")
  then run1 isDigit (skipn 17 s)
  else None.

(** [/(?:clips\.twitch\.tv\/|twitch\.tv\/[^\/]+\/clip\/)([a-zA-Z0-9_-]+)/]
    at the head of [s]: group 1. *)
Definition clipAt (s : list N) : option (list N) :=
  if startsWith s (lit "clips.twitch.tv/")
  then run1 isClipChar (skipn 16 s)
  else if startsWith s (lit "twitch.tv/")
  then
    let rest := skipn 10 s in
    match takeWhile (fun c => negb (c =? 47)) rest with
    | [] => None
    | channel =>
        let rest := skipn (length channel) rest in
        if startsWith rest (lit "/clip/")
        then run1 isClipChar (skipn 6 rest)
        else None
    end
  else None.

(** [/twitch\.tv\/([a-zA-Z0-9_]+)(?:\?|$|\/|$)/] at the head of [s]:
    group 1. *)
Definition channelAt (s : list N) : option (list N) :=
  if startsWith s (lit "twitch.tv/")
  then
    let rest := skipn 10 s in
    match takeWhile isWordChar rest with
    | [] => None
    | name =>
        match skipn (length name) rest with
        | [] => Some name
        | c :: _ => if (c =? 63) || (c =? 47) then Some name else None
        end
    end
  else None.

Section Host.

(** [window.location.hostname], or localhost where there is no window. *)
Variable parent : list N.

(** [new URL(url)] with the search parameter [parent] set, and [muted] set
    to false when asked for, written back with [toString]; the constructor
    throws for a string that is not a URL. *)
Variable withParams : list N -> bool -> completion (list N).

Definition tail : list N := lit "&parent=" ++ parent ++ lit "&muted=false".

Definition processTwitchUrl (url : list N) : list N :=
  if includes url (lit "player.twitch.tv") ||
     includes url (lit "clips.twitch.tv/embed")
  then
    match withParams url (includes url (lit "player.twitch.tv")) with
    | Normal result => result
    | Throw => url
    end
  else
    match search videoAt url with
    | Some videoId => lit "https://player.twitch.tv/?video=" ++ videoId ++ tail
    | None =>
        match search clipAt url with
        | Some clipId => lit "https://clips.twitch.tv/embed?clip=" ++ clipId ++ tail
        | None =>
            match search channelAt url with
            | Some channelName =>
                if negb (bool_decide (channelName = lit "videos")) &&
                   negb (bool_decide (channelName = lit "clip"))
                then lit "https://player.twitch.tv/?channel=" ++ channelName ++ tail
                else url
            | None => url
            end
        end
    end.

Definition processEmbedUrl (url : list N) : list N :=
  match url with
  | [] => url
  | _ =>
      if includes url (lit "twitch.tv") ||
         includes url (lit "player.twitch.tv") ||
         includes url (lit "clips.twitch.tv")
      then processTwitchUrl url
      else url
  end.

End Host.

(** A string of code units of the class [[a-zA-Z0-9_]]. *)
Definition wordChars (s : list N) : Prop :=
  Forall (fun c => isWordChar c = true) s.

End Embed.

(** * Properties *)

(** ** Strings *)

Section StringFacts.

Lemma startsWith_app (p r : list N) : startsWith (p ++ r) p = true.
Proof.
  induction p as [|c p IH]; simpl; [reflexivity|].
  rewrite N.eqb_refl. exact IH.
Qed.

Lemma startsWith_inv (s p : list N) :
  startsWith s p = true -> exists r, s = p ++ r.
Proof.
  revert s. induction p as [|c p IH]; intros s H.
  - exists s. reflexivity.
  - destruct s as [|d s]; simpl in H; [discriminate|].
    apply andb_true_iff in H as [Hc Hs].
    apply N.eqb_eq in Hc. subst d.
    destruct (IH _ Hs) as [r ->]. exists r. reflexivity.
Qed.

Lemma includes_startsWith (s sub : list N) :
  startsWith s sub = true -> includes s sub = true.
Proof. intros H. destruct s; simpl; rewrite H; reflexivity. Qed.

Lemma includes_app (pre sub post : list N) :
  includes (pre ++ sub ++ post) sub = true.
Proof.
  induction pre as [|c pre IH]; simpl.
  - apply includes_startsWith, startsWith_app.
  - rewrite IH. apply orb_true_r.
Qed.

Lemma includes_inv (s sub : list N) :
  includes s sub = true -> exists pre post, s = pre ++ sub ++ post.
Proof.
  induction s as [|c s IH]; simpl; intros H.
  - rewrite orb_false_r in H. destruct (startsWith_inv _ _ H) as [r ->].
    exists [], r. reflexivity.
  - apply orb_true_iff in H as [H|H].
    + destruct (startsWith_inv _ _ H) as [r ->]. exists [], r. reflexivity.
    + destruct (IH H) as (pre & post & ->). exists (c :: pre), post. reflexivity.
Qed.

(** Lower-casing commutes with search for a keyword that is already in
    lower case. *)
Lemma includes_toLowerCase (s k : list N) :
  toLowerCase k = k -> includes s k = true -> includes (toLowerCase s) k = true.
Proof.
  intros Hk H. destruct (includes_inv _ _ H) as (pre & post & ->).
  unfold toLowerCase in *. rewrite !List.flat_map_app, Hk. apply includes_app.
Qed.

Lemma trimStart_idem (s : list N) : trimStart (trimStart s) = trimStart s.
Proof.
  induction s as [|c s IH]; simpl; [reflexivity|].
  destruct (isWhiteSpace c) eqn:E; [exact IH|].
  simpl. rewrite E. reflexivity.
Qed.

Lemma trimStart_snoc (l : list N) (c : N) :
  isWhiteSpace c = false -> trimStart (l ++ [c]) = trimStart l ++ [c].
Proof.
  intros Hc. induction l as [|a l IH]; simpl.
  - rewrite Hc. reflexivity.
  - destruct (isWhiteSpace a); [exact IH | reflexivity].
Qed.

Lemma trimStart_head (s : list N) :
  trimStart s = [] \/ exists c r, trimStart s = c :: r /\ isWhiteSpace c = false.
Proof.
  induction s as [|c s IH]; simpl; [left; reflexivity|].
  destruct (isWhiteSpace c) eqn:E; [exact IH|].
  right. exists c, s. split; [reflexivity | exact E].
Qed.

Lemma trimEnd_idem (s : list N) : trimEnd (trimEnd s) = trimEnd s.
Proof.
  unfold trimEnd. rewrite rev_involutive, trimStart_idem. reflexivity.
Qed.

Lemma trimStart_trimEnd (s : list N) :
  trimStart s = s -> trimStart (trimEnd s) = trimEnd s.
Proof.
  intros Hs. destruct (trimStart_head s) as [E | (c & r & E & Hc)];
    rewrite Hs in E; subst s.
  - reflexivity.
  - unfold trimEnd. change (rev (c :: r)) with (rev r ++ [c]).
    rewrite (trimStart_snoc _ _ Hc), List.rev_app_distr.
    simpl. rewrite Hc. reflexivity.
Qed.

Lemma trim_idem (s : list N) : trim (trim s) = trim s.
Proof.
  unfold trim.
  rewrite (trimStart_trimEnd (trimStart s)) by apply trimStart_idem.
  apply trimEnd_idem.
Qed.

Lemma trimStart_Forall (P : N -> Prop) (s : list N) :
  Forall P s -> Forall P (trimStart s).
Proof.
  induction 1 as [|c s Hc Hs IH]; simpl; [constructor|].
  destruct (isWhiteSpace c); [exact IH | constructor; assumption].
Qed.

Lemma trim_Forall (P : N -> Prop) (s : list N) :
  Forall P s -> Forall P (trim s).
Proof.
  intros H. unfold trim, trimEnd.
  apply Forall_rev, trimStart_Forall, Forall_rev, trimStart_Forall, H.
Qed.

(** Every code unit of the result of a global replacement comes from a
    replacement text or is a code unit of the subject at which the
    expression did not consume anything. *)
Lemma replaceAll_Forall (P : N -> Prop) (m : list N -> option (nat * list N))
    (s : list N) :
  (forall t n r, m t = Some (n, r) -> Forall P r) ->
  (forall pre c t, s = pre ++ c :: t ->
     m (c :: t) = None \/ (exists r, m (c :: t) = Some (O, r)) -> P c) ->
  forall skip, Forall P (replaceAll m skip s).
Proof.
  intros Hrep. induction s as [|c s IH]; intros Hkeep skip; simpl.
  - constructor.
  - assert (Hkeep' : forall pre c' t, s = pre ++ c' :: t ->
              m (c' :: t) = None \/ (exists r, m (c' :: t) = Some (O, r)) ->
              P c').
    { intros pre c' t -> Hm. apply (Hkeep (c :: pre) c' t); [reflexivity|exact Hm]. }
    destruct skip as [|k]; [|apply IH; exact Hkeep'].
    destruct (m (c :: s)) as [[[|n] r]|] eqn:E.
    + apply Forall_app; split; [eapply Hrep; exact E|].
      constructor; [|apply IH; exact Hkeep'].
      apply (Hkeep [] c s); [reflexivity | right; eauto].
    + apply Forall_app; split; [eapply Hrep; exact E | apply IH; exact Hkeep'].
    + constructor; [|apply IH; exact Hkeep'].
      apply (Hkeep [] c s); [reflexivity | left; exact E].
Qed.

(** A replacement whose replacement texts satisfy [P] keeps [P]. *)
Lemma replaceAll_Forall_keep (P : N -> Prop) (m : list N -> option (nat * list N))
    (s : list N) (skip : nat) :
  (forall t n r, m t = Some (n, r) -> Forall P r) ->
  Forall P s -> Forall P (replaceAll m skip s).
Proof.
  intros Hrep Hs. apply replaceAll_Forall; [exact Hrep|].
  intros pre c t -> _. rewrite Forall_app in Hs. destruct Hs as [_ Hs].
  inversion Hs; assumption.
Qed.

End StringFacts.

(** ** Sanitising *)

Section SanitizeFacts.

Import Sanitize.

Lemma escapeMap_noAngle (c : N) (r : list N) :
  escapeMap c = Some r -> Forall noAngle r.
Proof.
  unfold escapeMap. intros H.
  repeat (destruct (_ =? _) in H;
          [injection H as <-;
           repeat (constructor; [split; discriminate|]); constructor|]).
  discriminate.
Qed.

Lemma escapeMap_None (c : N) : escapeMap c = None -> noAngle c.
Proof.
  unfold escapeMap, noAngle. intros H.
  destruct (c =? AMP); [discriminate|].
  destruct (c =? LT) eqn:E1; [discriminate|].
  destruct (c =? GT) eqn:E2; [discriminate|].
  apply N.eqb_neq in E1, E2. split; assumption.
Qed.

Lemma escapeHtml_noAngle (text : list N) : Forall noAngle (escapeHtml text).
Proof.
  unfold escapeHtml. apply replaceAll_Forall.
  - intros [|c t] n r H; simpl in H; [discriminate|].
    destruct (escapeMap c) as [r'|] eqn:E; [|discriminate].
    injection H as _ <-. eapply escapeMap_noAngle, E.
  - intros pre c t _ [H | [r H]]; simpl in H.
    + destruct (escapeMap c) eqn:E; [discriminate|].
      apply escapeMap_None, E.
    + destruct (escapeMap c); discriminate.
Qed.

Lemma whitespaceMatcher_noAngle (t : list N) (n : nat) (r : list N) :
  whitespaceMatcher t = Some (n, r) -> Forall noAngle r.
Proof.
  unfold whitespaceMatcher. destruct (takeWhile isWhiteSpace t); [discriminate|].
  intros H. injection H as _ <-. constructor; [split; discriminate|constructor].
Qed.

Lemma sanitizeHtml_noAngle (html : list N) : Forall noAngle (sanitizeHtml html).
Proof.
  destruct html as [|c html]; [constructor|].
  unfold sanitizeHtml. apply trim_Forall, replaceAll_Forall_keep.
  - exact whitespaceMatcher_noAngle.
  - apply escapeHtml_noAngle.
Qed.

Lemma sanitizeUrl_accepted (t : list N) :
  t <> [] -> trim t = t ->
  existsb (startsWith (toLowerCase t)) dangerousSchemes = false ->
  matchesAllowedPrefix t = true ->
  sanitizeUrl t = t.
Proof.
  intros Hne Ht Hd Hm. destruct t as [|c t]; [contradiction|].
  unfold sanitizeUrl. rewrite Ht, Hd, Hm. reflexivity.
Qed.

Lemma matchesAllowedPrefix_nonempty (t : list N) :
  matchesAllowedPrefix t = true -> t <> [].
Proof. intros H ->. discriminate. Qed.

End SanitizeFacts.

(** C6. [sanitizeUrl] is idempotent.  The empty string (its answer to an
    empty input) and the placeholder [#] (its answer to a URL with a
    dangerous scheme, or one that starts neither with [http://], [https://]
    nor with a slash) are fixed points, and an accepted URL is returned
    trimmed and otherwise unchanged. *)
Theorem C6_sanitizeUrl_idempotent (u : list N) :
  Sanitize.sanitizeUrl (Sanitize.sanitizeUrl u) = Sanitize.sanitizeUrl u /\
  Sanitize.sanitizeUrl [] = [] /\
  Sanitize.sanitizeUrl (lit "#") = lit "#" /\
  Sanitize.sanitizeUrl u =
    match u with
    | [] => []
    | _ =>
        if existsb (startsWith (toLowerCase (trim u))) Sanitize.dangerousSchemes
           || negb (Sanitize.matchesAllowedPrefix (trim u))
        then lit "#"
        else trim u
    end.
Proof.
  assert (Hsharp : Sanitize.sanitizeUrl (lit "#") = lit "#") by reflexivity.
  assert (Hshape : Sanitize.sanitizeUrl u =
    match u with
    | [] => []
    | _ =>
        if existsb (startsWith (toLowerCase (trim u))) Sanitize.dangerousSchemes
           || negb (Sanitize.matchesAllowedPrefix (trim u))
        then lit "#"
        else trim u
    end).
  { destruct u as [|c u]; [reflexivity|]. unfold Sanitize.sanitizeUrl.
    destruct (existsb _ _); [reflexivity|].
    destruct (Sanitize.matchesAllowedPrefix _); reflexivity. }
  split; [|split; [reflexivity | split; [exact Hsharp | exact Hshape]]].
  rewrite Hshape. destruct u as [|c u]; [reflexivity|].
  destruct (existsb _ _) eqn:Hd; [exact Hsharp|].
  destruct (Sanitize.matchesAllowedPrefix _) eqn:Hm; [|exact Hsharp].
  simpl orb. cbv iota.
  apply sanitizeUrl_accepted.
  - apply matchesAllowedPrefix_nonempty, Hm.
  - apply trim_idem.
  - exact Hd.
  - exact Hm.
Qed.

(** C7. The output of [sanitizeHtml] contains neither [<] nor [>], whatever
    the input: after the tags are stripped and the entities decoded, the
    reserved characters are escaped, and collapsing white space and trimming
    add no angle bracket.  So it is for a text with a script element. *)
Theorem C7_sanitizeHtml_no_angle_brackets (html : list N) :
  ~ In Sanitize.LT (Sanitize.sanitizeHtml html) /\
  ~ In Sanitize.GT (Sanitize.sanitizeHtml html) /\
  Sanitize.sanitizeHtml html =
    match html with
    | [] => []
    | _ =>
        trim (replaceAll Sanitize.whitespaceMatcher 0
          (Sanitize.escapeHtml
            (Sanitize.decodeHtmlEntities
              (replaceAll Sanitize.tagMatcher 0 html))))
    end /\
  Sanitize.sanitizeHtml (lit "Hi <script>alert(1)</script> there")
    = lit "Hi alert(1) there".
Proof.
  pose proof (sanitizeHtml_noAngle html) as H.
  rewrite List.Forall_forall in H.
  split; [|split; [|split]].
  - intros Hin. apply H in Hin. destruct Hin as [Hlt _]. apply Hlt. reflexivity.
  - intros Hin. apply H in Hin. destruct Hin as [_ Hgt]. apply Hgt. reflexivity.
  - destruct html; reflexivity.
  - vm_compute. reflexivity.
Qed.

(** C8, as stated, fails: a truncated result is longer than the bound.
    Six characters cut at three give the three kept characters and the
    three dots, six characters in all. *)
Lemma C8_truncated_result_exceeds_bound :
  Sanitize.truncateText (lit "abcdef") 3 = lit "abc..." /\
  (3 < Z.of_nat (length (Sanitize.truncateText (lit "abcdef") 3)))%Z.
Proof. split; vm_compute; reflexivity. Qed.

(** C8, amended.  [truncateText] returns the empty string for an empty
    text, the text itself when it has at most [maxLength] characters, and
    otherwise the first [maxLength] characters of the text followed by three
    dots: the kept part is capped at [maxLength], the result has three
    characters more. *)
Theorem C8_truncateText_prefix_and_dots (text : list N) (maxLength : Z) :
  Sanitize.truncateText [] maxLength = [] /\
  ((Z.of_nat (length text) <= maxLength)%Z ->
     Sanitize.truncateText text maxLength = text) /\
  (text <> [] -> (maxLength < Z.of_nat (length text))%Z ->
     Sanitize.truncateText text maxLength
       = firstn (Z.to_nat maxLength) text ++ lit "..." /\
     length (Sanitize.truncateText text maxLength)
       = (Z.to_nat maxLength + 3)%nat).
Proof.
  split; [reflexivity|]. split.
  - intros H. destruct text as [|c text]; [reflexivity|].
    unfold Sanitize.truncateText.
    apply Z.leb_le in H. rewrite H. reflexivity.
  - intros Hne H. destruct text as [|c text]; [contradiction|].
    unfold Sanitize.truncateText, substring0.
    apply Z.leb_gt in H as H'. rewrite H'.
    split; [reflexivity|].
    rewrite List.length_app, List.length_firstn.
    change (length (lit "...")) with 3%nat. lia.
Qed.

Lemma C8_truncateText_prefix_and_dots_witness :
  lit "abcdef" <> [] /\
  (3 < Z.of_nat (length (lit "abcdef")))%Z /\
  (Z.of_nat (length (lit "abcdef")) <= 6)%Z /\
  Sanitize.truncateText (lit "abcdef") 6 = lit "abcdef" /\
  Sanitize.truncateText (lit "abcdef") 3
    = firstn (Z.to_nat 3) (lit "abcdef") ++ lit "..." /\
  length (Sanitize.truncateText (lit "abcdef") 3) = (Z.to_nat 3 + 3)%nat.
Proof.
  assert (Hne : lit "abcdef" <> []) by discriminate.
  assert (Hlt : (3 < Z.of_nat (length (lit "abcdef")))%Z)
    by (vm_compute; reflexivity).
  assert (Hle : (Z.of_nat (length (lit "abcdef")) <= 6)%Z)
    by (vm_compute; discriminate).
  split; [exact Hne|]. split; [exact Hlt|]. split; [exact Hle|].
  split.
  - exact (proj1 (proj2 (C8_truncateText_prefix_and_dots (lit "abcdef") 6)) Hle).
  - exact (proj2 (proj2 (C8_truncateText_prefix_and_dots (lit "abcdef") 3))
             Hne Hlt).
Defined.

(** ** Category and severity *)

Section ClassifierFacts.

Import Classifier.

Lemma includes_iff (s k : list N) :
  includes s k = true <-> exists pre post, s = pre ++ k ++ post.
Proof.
  split; [apply includes_inv|].
  intros (pre & post & ->). apply includes_app.
Qed.

Lemma lit_lower_boat : toLowerCase (lit "boat") = lit "boat".
Proof. reflexivity. Qed.

(** One [if] of the chain: some keyword of the group occurs in the text. *)
Lemma anyOf_iff (text : list N) (keywords : list string) :
  anyOf text keywords = true
  <-> exists k, In k keywords /\ exists pre post, text = pre ++ lit k ++ post.
Proof.
  unfold anyOf. rewrite existsb_exists.
  split; intros (k & Hk & H); exists k; (split; [exact Hk|]);
    apply includes_iff; exact H.
Qed.

(** The chain of [if]s: a group decides when no earlier group matches. *)
Lemma classifyText_table (text : list N) :
  let b ws := anyOf text ws = true in
  (classifyText text = Boating <-> b boatingWords) /\
  (classifyText text = Fire <-> ~ b boatingWords /\ b fireWords) /\
  (classifyText text = Accident
   <-> ~ b boatingWords /\ ~ b fireWords /\ b accidentWords) /\
  (classifyText text = Crime
   <-> ~ b boatingWords /\ ~ b fireWords /\ ~ b accidentWords /\ b crimeWords) /\
  (classifyText text = Advisory
   <-> ~ b boatingWords /\ ~ b fireWords /\ ~ b accidentWords /\
       ~ b crimeWords /\ b advisoryWords) /\
  (classifyText text = Other
   <-> ~ b boatingWords /\ ~ b fireWords /\ ~ b accidentWords /\
       ~ b crimeWords /\ ~ b advisoryWords).
Proof.
  unfold classifyText. cbv zeta beta.
  destruct (anyOf text boatingWords), (anyOf text fireWords),
    (anyOf text accidentWords), (anyOf text crimeWords),
    (anyOf text advisoryWords);
    repeat split; intros; try discriminate; try reflexivity;
    repeat match goal with
           | H : _ /\ _ |- _ => destruct H
           | H : ~ true = true |- _ => destruct (H eq_refl)
           end; try discriminate.
Qed.

Lemma determineIncidentSeverity_table (ty : IncidentCategory) (title : list N)
    (summary : option (list N)) :
  let grave :=
    includes (severityText title summary) (lit "fatal") = true \/
    includes (severityText title summary) (lit "serious") = true in
  let sev := determineIncidentSeverity ty title summary in
  (sev = SevAlert <-> ty = Fire \/ (ty = Accident /\ grave)) /\
  (sev = SevAdvisory
   <-> ty = Boating \/ ty = Crime \/ (ty = Accident /\ ~ grave) \/
       ty = Advisory) /\
  (sev = SevInfo <-> ty = Other).
Proof.
  intros grave sev. subst grave sev. unfold determineIncidentSeverity.
  cbv zeta.
  destruct (includes (severityText title summary) (lit "fatal")),
    (includes (severityText title summary) (lit "serious"));
    destruct ty; cbn [category_eqb orb andb];
    intuition congruence.
Qed.

End ClassifierFacts.

(** C1. [normalizeIncidentType] lower-cases the text made of the type hint,
    the title and the summary (an absent summary counting as empty; the
    template joins the three with single spaces) and returns exactly one of
    the six categories: boating when the text contains "boat", "marine" or
    "watercraft"; otherwise fire when it contains "fire", "blaze" or "burn";
    otherwise accident for "accident", "crash" or "collision"; otherwise
    crime for "crime", "arrest", "theft" or "police"; otherwise advisory for
    "advisory", "warning" or "alert"; and other when it contains none of
    them.  An input whose text contains both "boat" and "fire" is boating.
    The category depends on the lower-cased text alone, so equal inputs
    give equal categories.  Keywords are found whatever their case and also
    when they occur in the summary only. *)
Theorem C1_normalizeIncidentType_priority
    (type title : list N) (summary : option (list N)) :
  let raw :=
    type ++ [32] ++ title ++ [32] ++
    match summary with Some s => s | None => [] end in
  let text := toLowerCase raw in
  let has (k : string) := exists pre post, text = pre ++ lit k ++ post in
  let boating := has "boat"%string \/ has "marine"%string \/ has "watercraft"%string in
  let fire := has "fire"%string \/ has "blaze"%string \/ has "burn"%string in
  let accident :=
    has "accident"%string \/ has "crash"%string \/ has "collision"%string in
  let crime :=
    has "crime"%string \/ has "arrest"%string \/ has "theft"%string \/
    has "police"%string in
  let advisory :=
    has "advisory"%string \/ has "warning"%string \/ has "alert"%string in
  let c := Classifier.normalizeIncidentType type title summary in
  (c = Classifier.Boating <-> boating) /\
  (c = Classifier.Fire <-> ~ boating /\ fire) /\
  (c = Classifier.Accident <-> ~ boating /\ ~ fire /\ accident) /\
  (c = Classifier.Crime <-> ~ boating /\ ~ fire /\ ~ accident /\ crime) /\
  (c = Classifier.Advisory
   <-> ~ boating /\ ~ fire /\ ~ accident /\ ~ crime /\ advisory) /\
  (c = Classifier.Other
   <-> ~ boating /\ ~ fire /\ ~ accident /\ ~ crime /\ ~ advisory) /\
  ((exists pre post, raw = pre ++ lit "boat" ++ post) ->
   (exists pre post, raw = pre ++ lit "fire" ++ post) ->
   c = Classifier.Boating) /\
  (forall type' title' summary',
     toLowerCase
       (type' ++ [32] ++ title' ++ [32] ++
        match summary' with Some s => s | None => [] end) = text ->
     Classifier.normalizeIncidentType type' title' summary' = c) /\
  Classifier.normalizeIncidentType (lit "") (lit "BOAT FIRE at the marina") None
    = Classifier.Boating /\
  Classifier.normalizeIncidentType (lit "") (lit "Crews called out overnight")
    (Some (lit "A Blaze destroyed the shed")) = Classifier.Fire /\
  Classifier.normalizeIncidentType (lit "Collision") (lit "Two cars on Hwy 54") None
    = Classifier.Accident /\
  Classifier.normalizeIncidentType (lit "") (lit "Overnight call")
    (Some (lit "Police ARREST two after a crash")) = Classifier.Accident /\
  Classifier.normalizeIncidentType (lit "") (lit "Overnight call")
    (Some (lit "Police ARREST two")) = Classifier.Crime /\
  Classifier.normalizeIncidentType (lit "") (lit "Flood Warning issued")
    (Some (lit "")) = Classifier.Advisory /\
  Classifier.normalizeIncidentType (lit "") (lit "Fall festival returns") None
    = Classifier.Other.
Proof.
  intros raw text has boating fire accident crime advisory c.
  assert (Hc : c = Classifier.classifyText text) by reflexivity.
  assert (H3 : forall a b d : string,
             Classifier.anyOf text [a; b; d] = true <-> has a \/ has b \/ has d).
  { intros a b d. rewrite anyOf_iff. unfold has. split.
    - intros (k & [<- | [<- | [<- | []]]] & H); tauto.
    - intros [H | [H | H]]; [exists a|exists b|exists d];
        (split; [simpl; tauto|exact H]). }
  assert (H4 : forall a b d e : string,
             Classifier.anyOf text [a; b; d; e] = true
             <-> has a \/ has b \/ has d \/ has e).
  { intros a b d e. rewrite anyOf_iff. unfold has. split.
    - intros (k & [<- | [<- | [<- | [<- | []]]]] & H); tauto.
    - intros [H | [H | [H | H]]]; [exists a|exists b|exists d|exists e];
        (split; [simpl; tauto|exact H]). }
  pose proof (classifyText_table text) as T. cbv zeta beta in T.
  unfold Classifier.boatingWords, Classifier.fireWords,
    Classifier.accidentWords, Classifier.crimeWords,
    Classifier.advisoryWords in T.
  rewrite !H3, H4, <- Hc in T.
  fold boating fire accident crime advisory in T.
  destruct T as (T1 & T2 & T3 & T4 & T5 & T6).
  split; [exact T1|]. split; [exact T2|]. split; [exact T3|].
  split; [exact T4|]. split; [exact T5|]. split; [exact T6|].
  split.
  { intros (pre & post & H) _. apply T1. left. unfold has, text.
    apply includes_iff, includes_toLowerCase; [exact lit_lower_boat|].
    rewrite H. apply includes_app. }
  split.
  { intros type' title' summary' H. rewrite Hc, <- H.
    unfold Classifier.normalizeIncidentType, Classifier.typeText.
    destruct summary'; reflexivity. }
  repeat split; vm_compute; reflexivity.
Qed.

Lemma C1_normalizeIncidentType_priority_witness :
  let raw' := lit "" ++ [32] ++ lit "x boat fire" ++ [32] ++ [] in
  raw' = lit " x " ++ lit "boat" ++ lit " fire " /\
  raw' = lit " x boat " ++ lit "fire" ++ lit " " /\
  Classifier.normalizeIncidentType (lit "") (lit "x boat fire") None
    = Classifier.Boating /\
  toLowerCase (lit "" ++ [32] ++ lit "X BOAT FIRE" ++ [32] ++ lit "")
    = toLowerCase raw' /\
  Classifier.normalizeIncidentType (lit "") (lit "X BOAT FIRE") (Some (lit ""))
    = Classifier.normalizeIncidentType (lit "") (lit "x boat fire") None.
Proof.
  intros raw'.
  assert (Hxb : raw' = lit " x " ++ lit "boat" ++ lit " fire ") by reflexivity.
  assert (Hxf : raw' = lit " x boat " ++ lit "fire" ++ lit " ") by reflexivity.
  assert (Hlow : toLowerCase (lit "" ++ [32] ++ lit "X BOAT FIRE" ++ [32] ++ lit "")
                 = toLowerCase raw') by reflexivity.
  destruct (C1_normalizeIncidentType_priority (lit "") (lit "x boat fire") None)
    as (_ & _ & _ & _ & _ & _ & Hraw & Hdet & _).
  split; [exact Hxb|]. split; [exact Hxf|].
  split.
  - apply Hraw.
    + exists (lit " x "), (lit " fire "). exact Hxb.
    + exists (lit " x boat "), (lit " "). exact Hxf.
  - split; [exact Hlow|].
    exact (Hdet (lit "") (lit "X BOAT FIRE") (Some (lit "")) Hlow).
Defined.

(** C2. [determineIncidentSeverity] gives [alert] for a fire, and for an
    accident whose lower-cased title and summary (joined by a space, an
    absent summary counting as empty) contain "fatal" or "serious";
    [advisory] for boating, crime, any other accident, and advisory; [info]
    for the remaining category.  The title "House fire reported near Main
    St" with an empty summary is classified as a fire with severity
    [alert]; an accident with "SERIOUS" in its summary only is an alert,
    and one without the two words an advisory. *)
Theorem C2_determineIncidentSeverity_table
    (type : Classifier.IncidentCategory) (title : list N)
    (summary : option (list N)) :
  let text :=
    toLowerCase
      (title ++ [32] ++ match summary with Some s => s | None => [] end) in
  let has (k : string) := exists pre post, text = pre ++ lit k ++ post in
  let grave := has "fatal"%string \/ has "serious"%string in
  let sev := Classifier.determineIncidentSeverity type title summary in
  (sev = Classifier.SevAlert
   <-> type = Classifier.Fire \/ (type = Classifier.Accident /\ grave)) /\
  (sev = Classifier.SevAdvisory
   <-> type = Classifier.Boating \/ type = Classifier.Crime \/
       (type = Classifier.Accident /\ ~ grave) \/
       type = Classifier.Advisory) /\
  (sev = Classifier.SevInfo <-> type = Classifier.Other) /\
  Classifier.normalizeIncidentType (lit "")
    (lit "House fire reported near Main St") (Some (lit "")) = Classifier.Fire /\
  Classifier.determineIncidentSeverity
    (Classifier.normalizeIncidentType (lit "")
       (lit "House fire reported near Main St") (Some (lit "")))
    (lit "House fire reported near Main St") (Some (lit ""))
    = Classifier.SevAlert /\
  Classifier.determineIncidentSeverity
    (Classifier.normalizeIncidentType (lit "")
       (lit "House fire reported near Main St") None)
    (lit "House fire reported near Main St") None
    = Classifier.SevAlert /\
  Classifier.determineIncidentSeverity Classifier.Accident
    (lit "Two-car crash on Hwy 54") (Some (lit "SERIOUS injuries reported"))
    = Classifier.SevAlert /\
  Classifier.determineIncidentSeverity Classifier.Accident
    (lit "Fatal crash on Hwy 54") None = Classifier.SevAlert /\
  Classifier.determineIncidentSeverity Classifier.Accident
    (lit "Two-car crash on Hwy 54") (Some (lit "No injuries reported"))
    = Classifier.SevAdvisory /\
  Classifier.determineIncidentSeverity Classifier.Crime
    (lit "Fatal shooting") (Some (lit "Serious charges"))
    = Classifier.SevAdvisory.
Proof.
  intros text has grave sev.
  pose proof (determineIncidentSeverity_table type title summary) as T.
  cbv zeta in T. rewrite !includes_iff in T.
  assert (Ht : Classifier.severityText title summary = text)
    by (destruct summary; reflexivity).
  rewrite Ht in T. fold (has "fatal"%string) (has "serious"%string) in T.
  fold grave sev in T.
  destruct T as (T1 & T2 & T3).
  split; [exact T1|]. split; [exact T2|]. split; [exact T3|].
  repeat split; vm_compute; reflexivity.
Qed.

(** ** Approximate coordinates *)

Section GeocodeFacts.

Import Geocode.

Lemma idHash_acc (id : list N) (acc : Z) :
  fold_left (fun a char => (a + Z.of_N char)%Z) id acc
  = (acc + fold_right Z.add 0 (List.map Z.of_N id))%Z.
Proof.
  revert acc. induction id as [|c id IH]; intros acc; simpl.
  - lia.
  - rewrite IH. lia.
Qed.

(** The hash is the sum of the code units of the identifier. *)
Lemma idHash_sum (id : list N) :
  idHash id = fold_right Z.add 0%Z (List.map Z.of_N id).
Proof. unfold idHash. rewrite idHash_acc. lia. Qed.

Lemma idHash_nonneg (id : list N) : (0 <= idHash id)%Z.
Proof.
  rewrite idHash_sum. induction id as [|c id IH]; simpl; lia.
Qed.




(** A check that holds of the 200 remainders holds of the remainder of
    every non-negative integer. *)
Lemma rem_200_cases (p : Z -> bool) :
  forallb p (List.map Z.of_nat (seq 0 200)) = true ->
  forall x, (0 <= x)%Z -> p (Z.rem x 200) = true.
Proof.
  intros H x Hx. rewrite forallb_forall in H. apply H.
  assert (Hr : (0 <= Z.rem x 200 < 200)%Z) by (apply Z.rem_bound_pos; lia).
  apply List.in_map_iff. exists (Z.to_nat (Z.rem x 200)).
  split; [lia|]. apply List.in_seq. lia.
Qed.

(** The latitude of the fallback: within 0.25 of 38.15, within 2^-46 of the
    value of the formula over the rationals, and between the south and the
    north edge of the lake area. *)
Lemma fallback_latitude (x : Z) :
  (0 <= x)%Z ->
  let la :=
    Double.toQ
      (Double.add centerLat
         (Double.mul
            (Double.div (Double.ofZ (Z.rem x 200 - 100)) (Double.ofZ 400))
            spread)) in
  (38.15 - 0.25 <= la)%Q /\ (la <= 38.15 + 0.25)%Q /\
  (Qabs (la - (38.15 + inject_Z (Z.rem x 200 - 100) / 400 * 0.25))
   <= 1 # 70368744177664)%Q /\
  Qle_bool Traffic.south la = true /\ Qle_bool la Traffic.north = true.
Proof.
  intros Hx la.
  pose proof (rem_200_cases
    (fun r =>
       let la :=
         Double.toQ
           (Double.add centerLat
              (Double.mul (Double.div (Double.ofZ (r - 100)) (Double.ofZ 400))
                 spread)) in
       Qle_bool (38.15 - 0.25) la && Qle_bool la (38.15 + 0.25) &&
       Qle_bool (Qabs (la - (38.15 + inject_Z (r - 100) / 400 * 0.25)))
         (1 # 70368744177664) &&
       Qle_bool Traffic.south la && Qle_bool la Traffic.north)
    ltac:(vm_compute; reflexivity) x Hx) as H.
  cbv beta zeta in H. fold la in H.
  rewrite !andb_true_iff, !Qle_bool_iff in H.
  destruct H as ((((H1 & H2) & H3) & H4) & H5).
  rewrite <- !Qle_bool_iff in H4, H5. auto.
Qed.

(** The longitude of the fallback: within 0.25 of -92.75, within 2^-45 of
    the value of the formula over the rationals, and between the west and
    the east edge of the lake area. *)
Lemma fallback_longitude (x : Z) :
  (0 <= x)%Z ->
  let lo :=
    Double.toQ
      (Double.add centerLng
         (Double.mul
            (Double.div (Double.ofZ (Z.rem x 200 - 100)) (Double.ofZ 400))
            spread)) in
  (-92.75 - 0.25 <= lo)%Q /\ (lo <= -92.75 + 0.25)%Q /\
  (Qabs (lo - (-92.75 + inject_Z (Z.rem x 200 - 100) / 400 * 0.25))
   <= 1 # 35184372088832)%Q /\
  Qle_bool Traffic.west lo = true /\ Qle_bool lo Traffic.east = true.
Proof.
  intros Hx lo.
  pose proof (rem_200_cases
    (fun r =>
       let lo :=
         Double.toQ
           (Double.add centerLng
              (Double.mul (Double.div (Double.ofZ (r - 100)) (Double.ofZ 400))
                 spread)) in
       Qle_bool (-92.75 - 0.25) lo && Qle_bool lo (-92.75 + 0.25) &&
       Qle_bool (Qabs (lo - (-92.75 + inject_Z (r - 100) / 400 * 0.25)))
         (1 # 35184372088832) &&
       Qle_bool Traffic.west lo && Qle_bool lo Traffic.east)
    ltac:(vm_compute; reflexivity) x Hx) as H.
  cbv beta zeta in H. fold lo in H.
  rewrite !andb_true_iff, !Qle_bool_iff in H.
  destruct H as ((((H1 & H2) & H3) & H4) & H5).
  rewrite <- !Qle_bool_iff in H4, H5. auto.
Qed.

End GeocodeFacts.


(** ** Aggregation *)

Section AggregatorFacts.

Import Aggregator.

Context (Date_parse : list N -> option Z) (clock : nat -> Z).

Lemma passesDateCheck_iff (now : Z) (s : list N) :
  passesDateCheck Date_parse now s = true <->
  exists t, Date_parse s = Some t /\ (now - retentionMs <= t)%Z.
Proof.
  unfold passesDateCheck, new_Date, isNaN, date_lt.
  destruct (Date_parse s) as [t|]; simpl.
  - destruct (t <? now - retentionMs)%Z eqn:E.
    + apply Z.ltb_lt in E. split; [discriminate|].
      intros (t' & Ht & Hle). injection Ht as <-. lia.
    + apply Z.ltb_ge in E. split; [|reflexivity].
      intros _. exists t. split; [reflexivity | exact E].
  - split; [discriminate|]. intros (t & Ht & _). discriminate.
Qed.

Lemma processItems_In (mk : Article -> LocalIncident) (items : list Article) :
  forall (i : nat) (x : LocalIncident),
  In x (processItems Date_parse clock mk i items) <->
  exists j item,
    nth_error items j = Some item /\
    passesDateCheck Date_parse (clock (i + j)%nat) (art_publishedAt item) = true /\
    x = mk item.
Proof.
  induction items as [|a items IH]; intros i x; simpl.
  - split; [contradiction|]. intros ([|j] & item & H & _); discriminate.
  - assert (Hrest : In x (processItems Date_parse clock mk (S i) items) <->
      exists j item, nth_error items j = Some item /\
        passesDateCheck Date_parse (clock (i + S j)%nat) (art_publishedAt item)
          = true /\ x = mk item).
    { rewrite IH. split; intros (j & item & H1 & H2 & H3); exists j, item;
        (split; [exact H1|split; [|exact H3]]);
        [replace (i + S j)%nat with (S i + j)%nat by lia
        |replace (S i + j)%nat with (i + S j)%nat by lia]; exact H2. }
    destruct (passesDateCheck Date_parse (clock i) (art_publishedAt a)) eqn:E.
    + simpl. rewrite Hrest. split.
      * intros [<- | (j & item & H1 & H2 & H3)].
        -- exists O, a. rewrite Nat.add_0_r. auto.
        -- exists (S j), item. auto.
      * intros ([|j] & item & H1 & H2 & H3).
        -- left. simpl in H1. injection H1 as ->. symmetry. exact H3.
        -- right. exists j, item. auto.
    + rewrite Hrest. split.
      * intros (j & item & H1 & H2 & H3). exists (S j), item. auto.
      * intros ([|j] & item & H1 & H2 & H3).
        -- simpl in H1. injection H1 as ->. rewrite Nat.add_0_r in H2.
           congruence.
        -- exists j, item. auto.
Qed.

Lemma processItems_all_pass (mk : Article -> LocalIncident) (items : list Article) :
  forall i : nat,
  (forall j item, nth_error items j = Some item ->
     passesDateCheck Date_parse (clock (i + j)%nat) (art_publishedAt item) = true) ->
  processItems Date_parse clock mk i items = List.map mk items.
Proof.
  induction items as [|a items IH]; intros i H; simpl; [reflexivity|].
  pose proof (H O a eq_refl) as Ha. rewrite Nat.add_0_r in Ha. rewrite Ha.
  f_equal. apply IH. intros j item Hj.
  replace (S i + j)%nat with (i + S j)%nat by lia. apply (H (S j)). exact Hj.
Qed.

Lemma processItems_valid (mk : Article -> LocalIncident) (i : nat)
    (items : list Article) :
  (forall a, timestamp (mk a) = art_publishedAt a) ->
  Forall (validTime Date_parse) (processItems Date_parse clock mk i items).
Proof.
  intros Hmk. apply List.Forall_forall. intros x Hx.
  apply processItems_In in Hx as (j & item & _ & Hp & ->).
  apply passesDateCheck_iff in Hp as (t & Ht & _).
  exists t. rewrite Hmk. exact Ht.
Qed.

Lemma insertSorted_Permutation {A} (cmp : A -> A -> option Z) (x : A) (l : list A) :
  Permutation (x :: l) (insertSorted cmp x l).
Proof.
  induction l as [|y l IH]; simpl; [reflexivity|].
  destruct (comparatorSign (cmp x y) <=? 0)%Z; [reflexivity|].
  rewrite perm_swap. constructor. exact IH.
Qed.

Lemma sortWith_Permutation {A} (cmp : A -> A -> option Z) (l : list A) :
  Permutation l (sortWith cmp l).
Proof.
  induction l as [|x l IH]; simpl; [reflexivity|].
  rewrite <- insertSorted_Permutation. constructor. exact IH.
Qed.

Lemma newerOrEqual_trans (a b c : LocalIncident) :
  newerOrEqual Date_parse a b -> newerOrEqual Date_parse b c ->
  newerOrEqual Date_parse a c.
Proof.
  intros (ta & tb & Ha & Hb & Hab) (tb' & tc & Hb' & Hc & Hbc).
  exists ta, tc. rewrite Hb in Hb'. injection Hb' as <-.
  split; [exact Ha|split; [exact Hc|lia]].
Qed.

Lemma insertSorted_sorted (x : LocalIncident) (l : list LocalIncident) :
  validTime Date_parse x -> Forall (validTime Date_parse) l ->
  StronglySorted (newerOrEqual Date_parse) l ->
  StronglySorted (newerOrEqual Date_parse)
    (insertSorted (compareIncidents Date_parse) x l).
Proof.
  intros [tx Hx] Hv Hs. induction Hs as [|y l Hs IH Hy]; simpl.
  - constructor; constructor.
  - inversion Hv as [|? ? [ty Hty] Hv']; subst.
    unfold compareIncidents at 1. rewrite Hty, Hx. simpl.
    destruct (ty - tx <=? 0)%Z eqn:E.
    + apply Z.leb_le in E.
      assert (Hxy : newerOrEqual Date_parse x y).
      { exists tx, ty. split; [exact Hx|split; [exact Hty|lia]]. }
      constructor; [constructor; assumption|].
      constructor; [exact Hxy|].
      eapply List.Forall_impl; [|exact Hy].
      intros z Hz. eapply newerOrEqual_trans; eassumption.
    + apply Z.leb_gt in E.
      constructor; [apply IH; exact Hv'|].
      rewrite <- insertSorted_Permutation.
      constructor; [|exact Hy].
      exists ty, tx. split; [exact Hty|split; [exact Hx|lia]].
Qed.

Lemma sortWith_valid_sorted (l : list LocalIncident) :
  Forall (validTime Date_parse) l ->
  StronglySorted (newerOrEqual Date_parse)
    (sortWith (compareIncidents Date_parse) l).
Proof.
  induction 1 as [|x l Hx Hl IH]; simpl; [constructor|].
  apply insertSorted_sorted; [exact Hx| |exact IH].
  rewrite <- sortWith_Permutation. exact Hl.
Qed.

Lemma articleIncident_timestamp (a : Article) :
  timestamp (articleIncident a) = art_publishedAt a.
Proof.
  unfold articleIncident. destruct (Geocode.articleCoordinate _ _). reflexivity.
Qed.

Lemma announcementIncident_timestamp (a : Article) :
  timestamp (announcementIncident a) = art_publishedAt a.
Proof. reflexivity. Qed.

Lemma fetchLocalIncidents_sorted (lakeExpoResponse cityResponse : Settled) :
  StronglySorted (newerOrEqual Date_parse)
    (fetchLocalIncidents Date_parse clock lakeExpoResponse cityResponse).
Proof.
  unfold fetchLocalIncidents, fetchLocalIncidents_body.
  destruct (sourceItems articles lakeExpoResponse) as [arts|]; simpl;
    [|constructor].
  destruct (sourceItems announcements cityResponse) as [anns|]; simpl;
    [|constructor].
  apply sortWith_valid_sorted, Forall_app. split.
  - apply processItems_valid, articleIncident_timestamp.
  - apply processItems_valid, announcementIncident_timestamp.
Qed.

(** The incidents returned are those the two loops pushed. *)
Lemma fetchLocalIncidents_In (lakeExpoResponse cityResponse : Settled)
    (x : LocalIncident) :
  In x (fetchLocalIncidents Date_parse clock lakeExpoResponse cityResponse) <->
  exists arts anns,
    sourceItems articles lakeExpoResponse = Normal arts /\
    sourceItems announcements cityResponse = Normal anns /\
    (In x (processItems Date_parse clock articleIncident 0 arts) \/
     In x (processItems Date_parse clock announcementIncident (length arts) anns)).
Proof.
  unfold fetchLocalIncidents, fetchLocalIncidents_body.
  destruct (sourceItems articles lakeExpoResponse) as [arts|]; simpl.
  - destruct (sourceItems announcements cityResponse) as [anns|]; simpl.
    + split.
      * intros Hx. exists arts, anns. split; [reflexivity|split; [reflexivity|]].
        apply in_app_or.
        eapply Permutation_in; [symmetry; apply sortWith_Permutation | exact Hx].
      * intros (arts' & anns' & H1 & H2 & Hx).
        injection H1 as <-. injection H2 as <-.
        eapply Permutation_in; [apply sortWith_Permutation|].
        apply in_or_app. exact Hx.
    + split; [contradiction|]. intros (? & ? & _ & H & _). discriminate.
  - split; [contradiction|]. intros (? & ? & H & _). discriminate.
Qed.

Lemma fetchLocalIncidents_coordinates (lakeExpoResponse cityResponse : Settled)
    (x : LocalIncident) :
  In x (fetchLocalIncidents Date_parse clock lakeExpoResponse cityResponse) ->
  lat x <> None /\ lng x <> None.
Proof.
  intros Hx. apply fetchLocalIncidents_In in Hx as (arts & anns & _ & _ & [Hx|Hx]);
    apply processItems_In in Hx as (j & item & _ & _ & ->).
  - unfold articleIncident. destruct (Geocode.articleCoordinate _ _).
    split; discriminate.
  - split; discriminate.
Qed.

Lemma sourceItems_failed (field : Payload -> option (list Article)) (r : Settled) :
  failed r = true -> sourceItems field r = Normal [].
Proof.
  destruct r as [value|]; simpl; [|reflexivity].
  destruct (ok value); [discriminate | reflexivity].
Qed.

(** A response that is [ok] but whose body is not JSON is another matter:
    [json()] throws inside the outer [try], and the handler returns the
    empty list whatever the other source delivered. *)
Lemma malformed_body_empties_batch (other : Settled) :
  fetchLocalIncidents Date_parse clock
    (fulfilled {| ok := true; json := Throw |}) other = [].
Proof. reflexivity. Qed.

End AggregatorFacts.

(** What the date test of the two loops does: an item goes on exactly when
    its [publishedAt] reads as a date that is not older than 30 days when
    the item is examined, the incidents returned are those of the items that
    went on, and they are sorted by timestamp, newest first. *)
Lemma fetchLocalIncidents_retention (Date_parse : list N -> option Z)
    (clock : nat -> Z) :
  (forall now s,
     Aggregator.passesDateCheck Date_parse now s = true <->
     exists t, Date_parse s = Some t /\ (now - 30 * 24 * 60 * 60 * 1000 <= t)%Z) /\
  (forall mk i items x,
     In x (Aggregator.processItems Date_parse clock mk i items) <->
     exists j item,
       nth_error items j = Some item /\
       Aggregator.passesDateCheck Date_parse (clock (i + j)%nat)
         (Aggregator.art_publishedAt item) = true /\
       x = mk item) /\
  (forall lakeExpoResponse cityResponse x,
     In x (Aggregator.fetchLocalIncidents Date_parse clock
             lakeExpoResponse cityResponse) <->
     exists arts anns,
       Aggregator.sourceItems Aggregator.articles lakeExpoResponse
         = Aggregator.Normal arts /\
       Aggregator.sourceItems Aggregator.announcements cityResponse
         = Aggregator.Normal anns /\
       (In x (Aggregator.processItems Date_parse clock
                Aggregator.articleIncident 0 arts) \/
        In x (Aggregator.processItems Date_parse clock
                Aggregator.announcementIncident (length arts) anns))) /\
  (forall lakeExpoResponse cityResponse,
     StronglySorted (Aggregator.newerOrEqual Date_parse)
       (Aggregator.fetchLocalIncidents Date_parse clock
          lakeExpoResponse cityResponse)).
Proof.
  split; [exact (passesDateCheck_iff Date_parse)|].
  split; [intros mk i items x; apply processItems_In|].
  split.
  - apply fetchLocalIncidents_In.
  - apply fetchLocalIncidents_sorted.
Qed.

(** C4. The code does not keep an item whose date cannot be parsed,
    although the claim, and the comment of the [catch] branch ("include it
    anyway (assume it's recent)"), say it is kept.  [new Date] of a string
    never throws: for a string that is not a date it gives an invalid date,
    the [isNaN] test of the [try] block sees it and [continue] skips the
    item, so the [catch] branch never runs.  The string "2024-13-45" has
    the shape [YYYY-MM-DD] the news routes take for a date and names no
    date; the response whose only article carries it gives the empty list,
    whatever the clock.  And for every reading of dates, each incident
    returned has a timestamp that reads as a date, so an item with an
    unparseable date is in no result. *)
Theorem C4_unparseable_date_is_discarded :
  let article :=
    {| Aggregator.art_id := lit "lakeexpo-road-work";
       Aggregator.art_title := lit "Road work begins Monday";
       Aggregator.art_summary := lit "Road work begins Monday";
       Aggregator.art_url := lit "https://www.lakeexpo.com/news/road-work";
       Aggregator.art_publishedAt := lit "2024-13-45" |} in
  let response :=
    Aggregator.fulfilled
      {| Aggregator.ok := true;
         Aggregator.json := Aggregator.Normal
           {| Aggregator.articles := Some [article];
              Aggregator.announcements := None |} |} in
  IsoDate.parse (lit "2024-13-45") = None /\
  Aggregator.new_Date IsoDate.parse (lit "2024-13-45") = Aggregator.Normal None /\
  (forall now,
     Aggregator.passesDateCheck IsoDate.parse now (lit "2024-13-45") = false) /\
  (forall clock,
     Aggregator.fetchLocalIncidents_body IsoDate.parse clock response
       Aggregator.rejected = Aggregator.Normal []) /\
  (forall clock,
     Aggregator.fetchLocalIncidents IsoDate.parse clock response
       Aggregator.rejected = []) /\
  (forall (Date_parse : list N -> option Z) s,
     Aggregator.new_Date Date_parse s = Aggregator.Normal (Date_parse s)) /\
  (forall (Date_parse : list N -> option Z) clock lakeExpoResponse cityResponse x,
     In x (Aggregator.fetchLocalIncidents Date_parse clock
             lakeExpoResponse cityResponse) ->
     Date_parse (Aggregator.timestamp x) <> None).
Proof.
  intros article response.
  split; [vm_compute; reflexivity|].
  split; [vm_compute; reflexivity|].
  split; [intros now; reflexivity|].
  split; [intros clock; reflexivity|].
  split; [intros clock; reflexivity|].
  split; [reflexivity|].
  intros Date_parse clock lakeExpoResponse cityResponse x Hx.
  apply fetchLocalIncidents_In in Hx as (arts & anns & _ & _ & [Hx|Hx]);
    apply processItems_In in Hx as (j & item & _ & Hp & ->);
    apply passesDateCheck_iff in Hp as (t & Ht & _).
  - unfold Aggregator.articleIncident.
    destruct (Geocode.articleCoordinate _ _). simpl. congruence.
  - simpl. congruence.
Qed.

(** C5. When one of the two fetches rejects or answers with a response
    that is not [ok], and the other answers [ok] with a list of items, the
    aggregation completes without an error and returns the incidents of the
    surviving source alone, newest first: all of them when every item has a
    valid date within the retention window. *)
Theorem C5_one_source_fails (Date_parse : list N -> option Z) (clock : nat -> Z)
    (bad : Aggregator.Settled) (data : Aggregator.Payload)
    (items : list Aggregator.Article) :
  let good :=
    Aggregator.fulfilled
      {| Aggregator.ok := true; Aggregator.json := Aggregator.Normal data |} in
  let recent :=
    forall j item, nth_error items j = Some item ->
      Aggregator.passesDateCheck Date_parse (clock j)
        (Aggregator.art_publishedAt item) = true in
  Aggregator.failed bad = true ->
  (Aggregator.announcements data = Some items ->
     let result := Aggregator.fetchLocalIncidents Date_parse clock bad good in
     Aggregator.fetchLocalIncidents_body Date_parse clock bad good
       = Aggregator.Normal result /\
     result = Aggregator.sortWith (Aggregator.compareIncidents Date_parse)
                (Aggregator.processItems Date_parse clock
                   Aggregator.announcementIncident 0 items) /\
     StronglySorted (Aggregator.newerOrEqual Date_parse) result /\
     (recent ->
      Permutation (List.map Aggregator.announcementIncident items) result)) /\
  (Aggregator.articles data = Some items ->
     let result := Aggregator.fetchLocalIncidents Date_parse clock good bad in
     Aggregator.fetchLocalIncidents_body Date_parse clock good bad
       = Aggregator.Normal result /\
     result = Aggregator.sortWith (Aggregator.compareIncidents Date_parse)
                (Aggregator.processItems Date_parse clock
                   Aggregator.articleIncident 0 items) /\
     StronglySorted (Aggregator.newerOrEqual Date_parse) result /\
     (recent ->
      Permutation (List.map Aggregator.articleIncident items) result)).
Proof.
  intros good recent Hbad. split; intros Hitems result.
  - assert (Hbody : Aggregator.fetchLocalIncidents_body Date_parse clock bad good
        = Aggregator.Normal
            (Aggregator.sortWith (Aggregator.compareIncidents Date_parse)
               (Aggregator.processItems Date_parse clock
                  Aggregator.announcementIncident 0 items))).
    { unfold Aggregator.fetchLocalIncidents_body.
      rewrite (sourceItems_failed _ _ Hbad). simpl. rewrite Hitems. reflexivity. }
    assert (Hres : result
        = Aggregator.sortWith (Aggregator.compareIncidents Date_parse)
            (Aggregator.processItems Date_parse clock
               Aggregator.announcementIncident 0 items)).
    { subst result. unfold Aggregator.fetchLocalIncidents. rewrite Hbody.
      reflexivity. }
    split; [rewrite Hres; exact Hbody|]. split; [exact Hres|].
    split; [apply fetchLocalIncidents_sorted|].
    intros Hrecent. rewrite Hres.
    rewrite (processItems_all_pass Date_parse clock _ items 0 Hrecent).
    apply sortWith_Permutation.
  - assert (Hbody : Aggregator.fetchLocalIncidents_body Date_parse clock good bad
        = Aggregator.Normal
            (Aggregator.sortWith (Aggregator.compareIncidents Date_parse)
               (Aggregator.processItems Date_parse clock
                  Aggregator.articleIncident 0 items))).
    { unfold Aggregator.fetchLocalIncidents_body.
      rewrite (sourceItems_failed _ bad Hbad). simpl. rewrite Hitems. simpl.
      rewrite List.app_nil_r. reflexivity. }
    assert (Hres : result
        = Aggregator.sortWith (Aggregator.compareIncidents Date_parse)
            (Aggregator.processItems Date_parse clock
               Aggregator.articleIncident 0 items)).
    { subst result. unfold Aggregator.fetchLocalIncidents. rewrite Hbody.
      reflexivity. }
    split; [rewrite Hres; exact Hbody|]. split; [exact Hres|].
    split; [apply fetchLocalIncidents_sorted|].
    intros Hrecent. rewrite Hres.
    rewrite (processItems_all_pass Date_parse clock _ items 0 Hrecent).
    apply sortWith_Permutation.
Qed.

Lemma C5_one_source_fails_witness :
  let older :=
    {| Aggregator.art_id := lit "city-1705000000000-0";
       Aggregator.art_title := lit "Boil water advisory lifted";
       Aggregator.art_summary := lit "The advisory for Bagnell Dam Blvd has ended";
       Aggregator.art_url := lit "https://www.cityoflakeozark.net/news/1";
       Aggregator.art_publishedAt := lit "2024-01-10" |} in
  let newer :=
    {| Aggregator.art_id := lit "city-1705000000000-1";
       Aggregator.art_title := lit "Board of Aldermen meeting";
       Aggregator.art_summary := lit "Regular session on Tuesday";
       Aggregator.art_url := lit "https://www.cityoflakeozark.net/news/2";
       Aggregator.art_publishedAt := lit "2024-01-12T08:00:00.000Z" |} in
  let data :=
    {| Aggregator.articles := Some [older; newer];
       Aggregator.announcements := Some [older; newer] |} in
  let good :=
    Aggregator.fulfilled
      {| Aggregator.ok := true; Aggregator.json := Aggregator.Normal data |} in
  let notOk :=
    Aggregator.fulfilled
      {| Aggregator.ok := false; Aggregator.json := Aggregator.Throw |} in
  let clock := fun _ : nat => 1705314600000%Z in
  let result := Aggregator.fetchLocalIncidents IsoDate.parse clock
                  Aggregator.rejected good in
  let result' := Aggregator.fetchLocalIncidents IsoDate.parse clock good notOk in
  Aggregator.failed Aggregator.rejected = true /\
  Aggregator.failed notOk = true /\
  result = [Aggregator.announcementIncident newer;
            Aggregator.announcementIncident older] /\
  Aggregator.fetchLocalIncidents_body IsoDate.parse clock Aggregator.rejected good
    = Aggregator.Normal result /\
  StronglySorted (Aggregator.newerOrEqual IsoDate.parse) result /\
  Permutation (List.map Aggregator.announcementIncident [older; newer]) result /\
  result' = [Aggregator.articleIncident newer; Aggregator.articleIncident older] /\
  Aggregator.fetchLocalIncidents_body IsoDate.parse clock good notOk
    = Aggregator.Normal result' /\
  Permutation (List.map Aggregator.articleIncident [older; newer]) result'.
Proof.
  intros older newer data good notOk clock result result'.
  assert (Hbad : Aggregator.failed Aggregator.rejected = true) by reflexivity.
  assert (Hbad' : Aggregator.failed notOk = true) by reflexivity.
  assert (Hanns : Aggregator.announcements data = Some [older; newer])
    by reflexivity.
  assert (Harts : Aggregator.articles data = Some [older; newer])
    by reflexivity.
  assert (Hrecent : forall j item, nth_error [older; newer] j = Some item ->
            Aggregator.passesDateCheck IsoDate.parse (clock j)
              (Aggregator.art_publishedAt item) = true).
  { intros [|[|[|j]]] item H; simpl in H; try discriminate;
      injection H as <-; vm_compute; reflexivity. }
  destruct (proj1 (C5_one_source_fails IsoDate.parse clock
                     Aggregator.rejected data [older; newer] Hbad) Hanns)
    as (Hbody & _ & Hsorted & Hperm).
  destruct (proj2 (C5_one_source_fails IsoDate.parse clock
                     notOk data [older; newer] Hbad') Harts)
    as (Hbody' & _ & _ & Hperm').
  split; [exact Hbad|]. split; [exact Hbad'|].
  split; [vm_compute; reflexivity|].
  split; [exact Hbody|]. split; [exact Hsorted|].
  split; [exact (Hperm Hrecent)|].
  split; [vm_compute; reflexivity|].
  split; [exact Hbody'|].
  exact (Hperm' Hrecent).
Defined.

(** ** Coordinates of the returned incidents *)



(** ** Panels and filters of the map *)

Section MapStateFacts.

Import MapState.

Lemma reachable_fold (events : list Event) :
  forall s, reachable s -> reachable (fold_left step events s).
Proof.
  induction events as [|e events IH]; intros s Hs; simpl; [exact Hs|].
  apply IH. constructor. exact Hs.
Qed.

Lemma reachable_run (events : list Event) : reachable (run events).
Proof. apply reachable_fold. constructor. Qed.

Lemma clearSelection_fold_flags (due : list (Z * Selection)) :
  forall s,
  let s' := fold_left (fun st tm => clearSelection (snd tm) st) due s in
  activeTypes s' = activeTypes s /\
  isPanelOpen s' = isPanelOpen s /\
  isIncidentPanelOpen s' = isIncidentPanelOpen s /\
  isLocalIncidentPanelOpen s' = isLocalIncidentPanelOpen s.
Proof.
  induction due as [|tm due IH]; intros s; simpl; [auto|].
  destruct (IH (clearSelection (snd tm) s)) as (H1 & H2 & H3 & H4).
  destruct tm as [due_at []]; simpl in *; auto.
Qed.

(** Only the type toggle writes the set of active types. *)
Lemma step_activeTypes (s : State) (e : Event) :
  activeTypes (step s e) =
    match e with
    | ToggleType t => toggleUpdater t (activeTypes s)
    | _ => activeTypes s
    end.
Proof.
  destruct e; simpl; try reflexivity.
  - unfold handleIncidentClick. destruct (isPanelOpen s); reflexivity.
  - destruct s as [? p ? q ? ? ? ? ? ?].
    unfold handleLocalIncidentClick. simpl. destruct p, q; reflexivity.
  - apply (clearSelection_fold_flags _ s).
Qed.

Lemma toggleUpdater_nonempty (t : LocationType) (prev : gset LocationType) :
  prev <> ∅ -> toggleUpdater t prev <> ∅.
Proof.
  intros Hprev. unfold toggleUpdater.
  destruct (decide (size _ = 0%nat)) as [|Hsize]; [exact Hprev|].
  intros Hempty. apply Hsize. rewrite Hempty. apply size_empty.
Qed.

Lemma reachable_activeTypes_nonempty (s : State) :
  reachable s -> activeTypes s <> ∅.
Proof.
  induction 1 as [|s e Hs IH].
  - simpl. intros H. assert (Hin : restaurant ∈ (∅ : gset LocationType)).
    { rewrite <- H. set_solver. }
    set_solver.
  - rewrite step_activeTypes. destruct e; try exact IH.
    apply toggleUpdater_nonempty, IH.
Qed.

(** The handler of a local incident is the one that closes both other
    panels. *)
Lemma handleLocalIncidentClick_single (i : Aggregator.LocalIncident) (s : State) :
  openPanels (handleLocalIncidentClick i s) = 1%nat.
Proof.
  destruct s as [? p ? q ? ? ? ? ? ?].
  unfold openPanels, handleLocalIncidentClick. simpl.
  destruct p, q; reflexivity.
Qed.

(** Closing the location panel leaves the selection in place until the
    delay of 300 ms has passed, and clears it then. *)
Lemma handleClosePanel_delay (s : State) (ms : Z) :
  timers s = [] ->
  let s' := step (step s ClosePanel) (Elapse ms) in
  isPanelOpen (step s ClosePanel) = false /\
  selectedLocation (step s ClosePanel) = selectedLocation s /\
  selectedLocation s' =
    if (closeDelay <=? ms)%Z then None else selectedLocation s.
Proof.
  intros Ht. simpl. rewrite Ht. simpl.
  split; [reflexivity|]. split; [reflexivity|].
  unfold closeDelay.
  destruct (300 <=? ms)%Z eqn:E.
  - apply Z.leb_le in E.
    assert (E' : (now s + 300 <=? now s + Z.max 0 ms)%Z = true)
      by (apply Z.leb_le; lia).
    rewrite E'. reflexivity.
  - apply Z.leb_gt in E.
    assert (E' : (now s + 300 <=? now s + Z.max 0 ms)%Z = false)
      by (apply Z.leb_gt; lia).
    rewrite E'. reflexivity.
Qed.

End MapStateFacts.

(** C9.  The flags of two detail panels can be set at the same time,
    because not every handler that opens a panel closes the others:
    [handleMarkerClick] closes none, and [handleIncidentClick] closes the
    location panel but not the local-incident panel, while
    [handleLocalIncidentClick] leaves exactly one flag set from every state.
    A run that needs the pointer alone, and never clicks a marker under a
    backdrop: open the incident panel, close it, open it again 100 ms later,
    wait until the timer of the close has cleared the selection (the flag
    of the incident panel stays set over an empty selection, so no backdrop
    is rendered), and click a location marker.  [isPanelOpen] and
    [isIncidentPanelOpen] are then both [true].  The same run with the
    local-incident panel first and an incident marker last sets
    [isLocalIncidentPanelOpen] and [isIncidentPanelOpen]. *)
Theorem C9_marker_click_keeps_incident_panel_open
    (incident : MapState.TrafficIncident) (location : MapState.Location)
    (localIncident : Aggregator.LocalIncident) :
  let events :=
    [MapState.IncidentClick incident; MapState.CloseIncidentPanel;
     MapState.Elapse 100; MapState.IncidentClick incident;
     MapState.Elapse 200; MapState.MarkerClick location] in
  let events' :=
    [MapState.LocalIncidentClick localIncident; MapState.CloseLocalIncidentPanel;
     MapState.Elapse 100; MapState.LocalIncidentClick localIncident;
     MapState.Elapse 200; MapState.IncidentClick incident] in
  let s := MapState.run events in
  let s' := MapState.run events' in
  MapState.runFrom MapState.initial events = Some s /\
  MapState.isPanelOpen s = true /\
  MapState.isIncidentPanelOpen s = true /\
  MapState.isLocalIncidentPanelOpen s = false /\
  MapState.selectedLocation s = Some location /\
  MapState.selectedIncident s = None /\
  MapState.openPanels s = 2%nat /\
  MapState.runFrom MapState.initial events' = Some s' /\
  MapState.isIncidentPanelOpen s' = true /\
  MapState.isLocalIncidentPanelOpen s' = true /\
  MapState.isPanelOpen s' = false /\
  MapState.openPanels s' = 2%nat /\
  (forall st,
     MapState.isIncidentPanelOpen (MapState.handleMarkerClick location st)
       = MapState.isIncidentPanelOpen st /\
     MapState.isLocalIncidentPanelOpen (MapState.handleMarkerClick location st)
       = MapState.isLocalIncidentPanelOpen st /\
     MapState.isLocalIncidentPanelOpen (MapState.handleIncidentClick incident st)
       = MapState.isLocalIncidentPanelOpen st /\
     MapState.isPanelOpen (MapState.handleIncidentClick incident st) = false /\
     MapState.isPanelOpen (MapState.handleLocalIncidentClick localIncident st)
       = false /\
     MapState.isIncidentPanelOpen
       (MapState.handleLocalIncidentClick localIncident st) = false /\
     MapState.openPanels (MapState.handleLocalIncidentClick localIncident st)
       = 1%nat).
Proof.
  intros events events' s s'.
  do 12 (split; [reflexivity|]).
  intros st. split; [reflexivity|]. split; [reflexivity|].
  destruct st as [? p ? q ? ? ? ? ? ?].
  unfold MapState.handleIncidentClick, MapState.handleLocalIncidentClick,
    MapState.openPanels.
  simpl. destruct p, q; repeat split; reflexivity.
Qed.

(** C10, as stated, fails in its last clause: with one type switched off,
    a map whose locations are all of that type shows no location marker,
    although the set of active types is not empty. *)
Lemma C10_type_filter_hides_every_marker :
  let diner :=
    {| MapState.loc_id := lit "7";
       MapState.loc_name := lit "Lakeside Diner";
       MapState.loc_type := MapState.restaurant;
       MapState.loc_lat := 38.2%Q;
       MapState.loc_lng := (-92.6)%Q;
       MapState.camEmbedUrl := None;
       MapState.isOpen := None |} in
  let s := MapState.run [MapState.ToggleType MapState.restaurant] in
  MapState.reachable s /\
  MapState.activeTypes s <> ∅ /\
  MapState.searchQuery s = [] /\
  MapState.filteredLocations MapState.initial [diner] = [diner] /\
  MapState.filteredLocations s [diner] = [].
Proof.
  intros diner s.
  split; [apply reachable_run|].
  split; [apply reachable_activeTypes_nonempty, reachable_run|].
  split; [reflexivity|]. split; vm_compute; reflexivity.
Qed.

(** C10, amended.  The set of active location types is never empty: it
    starts as all three types, the toggle hands back the previous set
    whenever the toggled set would be empty, and so in every reachable state
    some type is active and the locations of that type pass the type test
    of the filter. *)
Theorem C10_active_types_never_empty :
  MapState.activeTypes MapState.initial
    = {[MapState.restaurant; MapState.marina; MapState.bar]} /\
  (forall (t : MapState.LocationType) (prev : gset MapState.LocationType),
     size (if decide (t ∈ prev) then prev ∖ {[t]} else prev ∪ {[t]}) = 0%nat ->
     MapState.toggleUpdater t prev = prev) /\
  (forall t : MapState.LocationType, MapState.toggleUpdater t {[t]} = {[t]}) /\
  (forall s, MapState.reachable s -> MapState.activeTypes s <> ∅) /\
  (forall s, MapState.reachable s ->
     exists t, t ∈ MapState.activeTypes s /\
       forall l, MapState.loc_type l = t -> MapState.matchesType s l = true).
Proof.
  split; [reflexivity|]. split; [|split; [|split]].
  - intros t prev H. unfold MapState.toggleUpdater.
    destruct (decide (size _ = 0%nat)); [reflexivity | contradiction].
  - intros t. unfold MapState.toggleUpdater.
    destruct (decide (t ∈ ({[t]} : gset MapState.LocationType))) as [_|Hn];
      [|set_solver].
    rewrite difference_diag_L, size_empty.
    destruct (decide (0 = 0)%nat); [reflexivity | contradiction].
  - exact reachable_activeTypes_nonempty.
  - intros s Hs.
    destruct (set_choose_L _ (reachable_activeTypes_nonempty s Hs)) as [t Ht].
    exists t. split; [exact Ht|].
    intros l <-. unfold MapState.matchesType. apply bool_decide_eq_true. exact Ht.
Qed.

Lemma C10_active_types_never_empty_witness :
  let s := MapState.run [MapState.ToggleType MapState.bar;
                         MapState.ToggleType MapState.marina;
                         MapState.ToggleType MapState.restaurant] in
  let last : gset MapState.LocationType := {[MapState.restaurant]} in
  MapState.reachable s /\
  MapState.activeTypes s <> ∅ /\
  size (MapState.activeTypes s) = 1%nat /\
  size (if decide (MapState.restaurant ∈ last)
        then last ∖ {[MapState.restaurant]}
        else last ∪ {[MapState.restaurant]}) = 0%nat /\
  MapState.toggleUpdater MapState.restaurant last = last /\
  exists t, t ∈ MapState.activeTypes s /\
    forall l, MapState.loc_type l = t -> MapState.matchesType s l = true.
Proof.
  intros s last.
  assert (Hs : MapState.reachable s) by apply reachable_run.
  assert (Hsize : size (if decide (MapState.restaurant ∈ last)
                        then last ∖ {[MapState.restaurant]}
                        else last ∪ {[MapState.restaurant]}) = 0%nat)
    by (vm_compute; reflexivity).
  destruct C10_active_types_never_empty as (_ & Hguard & _ & Hne & Hsome).
  split; [exact Hs|].
  split; [exact (Hne s Hs)|].
  split; [vm_compute; reflexivity|].
  split; [exact Hsize|].
  split; [exact (Hguard MapState.restaurant last Hsize)|].
  exact (Hsome s Hs).
Defined.

(** * Further properties of the code *)

(** ** Escaping and URLs *)

Section EscapeFacts.

Import Sanitize SanitizeSpec.

(** [escapeHtml] works code unit by code unit. *)
Lemma escapeHtml_flat_map (text : list N) :
  escapeHtml text = flat_map escapeUnit text.
Proof.
  unfold escapeHtml, escapeUnit.
  induction text as [|c text IH]; simpl; [reflexivity|].
  destruct (escapeMap c) as [r|]; simpl; rewrite IH; reflexivity.
Qed.

Lemma escapeUnit_cases (c : N) :
  (c = AMP /\ escapeUnit c = lit "&amp;") \/
  (c = LT /\ escapeUnit c = lit "&lt;") \/
  (c = GT /\ escapeUnit c = lit "&gt;") \/
  (c = QUOT /\ escapeUnit c = lit "&quot;") \/
  (c = APOS /\ escapeUnit c = lit "&#039;") \/
  (escapeUnit c = [c] /\ c <> AMP /\ c <> LT /\ c <> GT /\ c <> QUOT /\ c <> APOS).
Proof.
  unfold escapeUnit, escapeMap.
  destruct (c =? AMP) eqn:E1.
  { apply N.eqb_eq in E1. left. split; [exact E1 | reflexivity]. }
  destruct (c =? LT) eqn:E2.
  { apply N.eqb_eq in E2. right; left. split; [exact E2 | reflexivity]. }
  destruct (c =? GT) eqn:E3.
  { apply N.eqb_eq in E3. do 2 right; left. split; [exact E3 | reflexivity]. }
  destruct (c =? QUOT) eqn:E4.
  { apply N.eqb_eq in E4. do 3 right; left. split; [exact E4 | reflexivity]. }
  destruct (c =? APOS) eqn:E5.
  { apply N.eqb_eq in E5. do 4 right; left. split; [exact E5 | reflexivity]. }
  apply N.eqb_neq in E1, E2, E3, E4, E5.
  do 5 right. repeat split; assumption.
Qed.

Lemma escapeUnit_noMarkup (c : N) : Forall noMarkup (escapeUnit c).
Proof.
  destruct (escapeUnit_cases c)
    as [[-> ->]|[[-> ->]|[[-> ->]|[[-> ->]|[[-> ->]|(-> & _ & ? & ? & ? & ?)]]]]];
    repeat constructor; try discriminate; assumption.
Qed.

Lemma escapeHtml_noMarkup (text : list N) : Forall noMarkup (escapeHtml text).
Proof.
  rewrite escapeHtml_flat_map.
  induction text as [|c text IH]; simpl; [constructor|].
  apply Forall_app. split; [apply escapeUnit_noMarkup | exact IH].
Qed.

Lemma firstn_Forall {A} (P : A -> Prop) (n : nat) (l : list A) :
  Forall P l -> Forall P (firstn n l).
Proof.
  revert n. induction l as [|x l IH]; intros [|n] H; simpl; try constructor.
  - inversion H; assumption.
  - apply IH. inversion H; assumption.
Qed.

End EscapeFacts.

Lemma sanitizeText_noMarkup (text : list N) :
  Forall SanitizeSpec.noMarkup (Sanitize.sanitizeText text).
Proof.
  destruct text as [|c text]; [constructor|].
  unfold Sanitize.sanitizeText. apply escapeHtml_noMarkup.
Qed.

(** X1. The output of [sanitizeText] and of [sanitizeHtml] contains no
    angle bracket and no quote, double or single: what they return can be
    put in element content and in a quoted attribute. *)
Theorem X1_sanitized_text_has_no_markup (text : list N) :
  Forall SanitizeSpec.noMarkup (Sanitize.sanitizeText text) /\
  Forall SanitizeSpec.noMarkup (Sanitize.sanitizeHtml text).
Proof.
  split; [apply sanitizeText_noMarkup|].
  destruct text as [|c text]; [constructor|].
  unfold Sanitize.sanitizeHtml. apply trim_Forall, replaceAll_Forall_keep.
  - intros t n r H. unfold Sanitize.whitespaceMatcher in H.
    destruct (takeWhile isWhiteSpace t); [discriminate|].
    injection H as _ <-. repeat constructor; discriminate.
  - apply escapeHtml_noMarkup.
Qed.

(** X2. The summary that both scraping routes store,
    [truncateText(sanitizeText(summary), 200)], has at most 203 characters
    and contains no angle bracket and no quote, also when the cut falls
    inside an entity. *)
Theorem X2_stored_summary_bounded_and_clean (summary : list N) :
  let stored := Sanitize.truncateText (Sanitize.sanitizeText summary) 200 in
  (length stored <= 203)%nat /\ Forall SanitizeSpec.noMarkup stored.
Proof.
  intros stored. subst stored.
  pose proof (sanitizeText_noMarkup summary) as Hclean.
  revert Hclean. generalize (Sanitize.sanitizeText summary). intros s Hclean.
  unfold Sanitize.truncateText.
  destruct s as [|c s]; [split; [simpl; lia|constructor]|].
  destruct (Z.of_nat (length (c :: s)) <=? 200)%Z eqn:E.
  - apply Z.leb_le in E. split; [lia | exact Hclean].
  - split.
    + rewrite List.length_app. unfold substring0.
      rewrite List.length_firstn. change (length (lit "...")) with 3%nat. lia.
    + apply Forall_app. split.
      * apply firstn_Forall, Hclean.
      * repeat constructor; discriminate.
Qed.

Section EscapeAlgebra.

Import Sanitize SanitizeSpec.

Lemma escapeUnit_length (c : N) :
  (1 <= length (escapeUnit c))%nat /\
  (length (escapeUnit c) = 1%nat <-> escapeMap c = None).
Proof.
  unfold escapeUnit, escapeMap.
  repeat (destruct (c =? _); [split; [simpl; lia|split; [discriminate|discriminate]]|]).
  split; [simpl; lia | split; reflexivity].
Qed.

Lemma escapeHtml_length (text : list N) :
  (length text <= length (escapeHtml text))%nat /\
  (length (escapeHtml text) = length text ->
   Forall (fun c => escapeMap c = None) text).
Proof.
  rewrite escapeHtml_flat_map.
  induction text as [|c text [IHle IHeq]]; simpl.
  - split; [lia | constructor].
  - rewrite List.length_app.
    destruct (escapeUnit_length c) as [H1 Hiff].
    split; [lia|].
    intros H. constructor.
    + apply Hiff. lia.
    + apply IHeq. lia.
Qed.

Lemma escapeHtml_clean (text : list N) :
  Forall (fun c => escapeMap c = None) text -> escapeHtml text = text.
Proof.
  rewrite escapeHtml_flat_map.
  induction 1 as [|c text Hc Ht IH]; simpl; [reflexivity|].
  unfold escapeUnit at 1. rewrite Hc, IH. reflexivity.
Qed.

(** Two escaped texts that agree start from the same code unit. *)
Lemma escapeUnit_app_inj (c d : N) (x y : list N) :
  escapeUnit c ++ x = escapeUnit d ++ y -> c = d /\ x = y.
Proof.
  destruct (escapeUnit_cases c)
    as [[-> ->]|[[-> ->]|[[-> ->]|[[-> ->]|[[-> ->]|(-> & Hc)]]]]];
  destruct (escapeUnit_cases d)
    as [[-> ->]|[[-> ->]|[[-> ->]|[[-> ->]|[[-> ->]|(-> & Hd)]]]]];
  simpl; intros H; try discriminate;
  try (injection H as ?; subst; split; reflexivity);
  try (injection H as ? ?; subst; exfalso;
       first [ apply (proj1 Hc); reflexivity | apply (proj1 Hd); reflexivity ]).
Qed.

Lemma escapeUnit_nonempty (c : N) : escapeUnit c <> [].
Proof.
  intros H. pose proof (proj1 (escapeUnit_length c)) as Hl.
  rewrite H in Hl. simpl in Hl. lia.
Qed.

Lemma escapeHtml_inj (a b : list N) : escapeHtml a = escapeHtml b -> a = b.
Proof.
  rewrite !escapeHtml_flat_map. revert b.
  induction a as [|c a IH]; intros [|d b] H; simpl in H.
  - reflexivity.
  - symmetry in H. apply app_eq_nil in H as [H _].
    destruct (escapeUnit_nonempty _ H).
  - apply app_eq_nil in H as [H _]. destruct (escapeUnit_nonempty _ H).
  - apply escapeUnit_app_inj in H as [-> H]. f_equal. apply IH, H.
Qed.

Lemma escapeMap_None_iff (c : N) :
  escapeMap c = None <-> c <> AMP /\ noMarkup c.
Proof.
  unfold escapeMap, noMarkup.
  destruct (c =? AMP) eqn:E1;
    [apply N.eqb_eq in E1; split; [discriminate | tauto]|].
  destruct (c =? LT) eqn:E2;
    [apply N.eqb_eq in E2; split; [discriminate | tauto]|].
  destruct (c =? GT) eqn:E3;
    [apply N.eqb_eq in E3; split; [discriminate | tauto]|].
  destruct (c =? QUOT) eqn:E4;
    [apply N.eqb_eq in E4; split; [discriminate | tauto]|].
  destruct (c =? APOS) eqn:E5;
    [apply N.eqb_eq in E5; split; [discriminate | tauto]|].
  apply N.eqb_neq in E1, E2, E3, E4, E5. tauto.
Qed.

End EscapeAlgebra.

(** X3. [escapeHtml] works character by character: the escape of a
    concatenation is the concatenation of the escapes, the result is never
    shorter than the text, and it equals the text exactly when the text has
    none of the five reserved characters. *)
Theorem X3_escapeHtml_char_by_char (a b : list N) :
  Sanitize.escapeHtml (a ++ b) = Sanitize.escapeHtml a ++ Sanitize.escapeHtml b /\
  (length a <= length (Sanitize.escapeHtml a))%nat /\
  (Sanitize.escapeHtml a = a <->
   Forall (fun c => c <> Sanitize.AMP /\ SanitizeSpec.noMarkup c) a).
Proof.
  split; [|split].
  - rewrite !escapeHtml_flat_map. apply flat_map_app.
  - apply escapeHtml_length.
  - pose proof escapeMap_None_iff as Hclean.
    split.
    + intros H. eapply List.Forall_impl; [intros c; apply Hclean|].
      apply escapeHtml_length. rewrite H. reflexivity.
    + intros H. apply escapeHtml_clean.
      eapply List.Forall_impl; [intros c; apply Hclean | exact H].
Qed.

Lemma X3_escapeHtml_char_by_char_witness :
  Forall (fun c => c <> Sanitize.AMP /\ SanitizeSpec.noMarkup c)
    (lit "Lake level 659.2 ft") /\
  Sanitize.escapeHtml (lit "Lake level 659.2 ft") = lit "Lake level 659.2 ft".
Proof.
  assert (H : Forall (fun c => c <> Sanitize.AMP /\ SanitizeSpec.noMarkup c)
                (lit "Lake level 659.2 ft")).
  { repeat constructor; discriminate. }
  split; [exact H|].
  exact (proj2 (proj2 (proj2 (X3_escapeHtml_char_by_char
                                (lit "Lake level 659.2 ft") []))) H).
Defined.

(** X4. [escapeHtml] loses nothing: two texts with the same escape are the
    same text, and so it is for [sanitizeText] on texts without white space
    at their ends. *)
Theorem X4_escapeHtml_injective (a b : list N) :
  (Sanitize.escapeHtml a = Sanitize.escapeHtml b -> a = b) /\
  (trim a = a -> trim b = b ->
   Sanitize.sanitizeText a = Sanitize.sanitizeText b -> a = b).
Proof.
  split; [apply escapeHtml_inj|].
  intros Ha Hb H. unfold Sanitize.sanitizeText in H.
  destruct a as [|c a], b as [|d b]; [reflexivity| | |].
  - rewrite Hb in H. change [] with (Sanitize.escapeHtml []) in H.
    apply escapeHtml_inj in H. exact H.
  - rewrite Ha in H. change [] with (Sanitize.escapeHtml []) in H.
    apply escapeHtml_inj in H. exact H.
  - rewrite Ha, Hb in H. apply escapeHtml_inj, H.
Qed.

Lemma X4_escapeHtml_injective_witness :
  Sanitize.escapeHtml (lit "a<b") = Sanitize.escapeHtml (lit "a" ++ lit "<b") /\
  lit "a<b" = lit "a" ++ lit "<b".
Proof.
  assert (H : Sanitize.escapeHtml (lit "a<b")
              = Sanitize.escapeHtml (lit "a" ++ lit "<b")) by reflexivity.
  split; [exact H|].
  exact (proj1 (X4_escapeHtml_injective (lit "a<b") (lit "a" ++ lit "<b")) H).
Defined.

Section DecodeEscape.

Import Sanitize SanitizeSpec.

Lemma replaceAll_unmatched (m : list N -> option (nat * list N)) (c : N)
    (tail : list N) :
  m (c :: tail) = None -> replaceAll m 0 (c :: tail) = c :: replaceAll m 0 tail.
Proof. intros H. simpl. rewrite H. reflexivity. Qed.

Lemma literalMatcher_other_head (e0 : N) (e char : list N) (c : N) (tail : list N) :
  c <> e0 -> literalMatcher (e0 :: e) char (c :: tail) = None.
Proof.
  intros H. unfold literalMatcher. simpl.
  destruct (e0 =? c) eqn:E; [apply N.eqb_eq in E; congruence | reflexivity].
Qed.

(** A replacement that handles every token of a token-wise text on its
    own handles the whole text token by token. *)
Lemma pass_flat_map (m : list N -> option (nat * list N)) (f g : N -> list N) :
  (forall c tail, c <> AMP ->
     replaceAll m 0 (f c ++ tail) = g c ++ replaceAll m 0 tail) ->
  forall text, Forall (fun c => c <> AMP) text ->
    replaceAll m 0 (flat_map f text) = flat_map g text.
Proof.
  intros Hstep text. induction 1 as [|c text Hc Ht IH]; simpl; [reflexivity|].
  rewrite (Hstep c _ Hc), IH. reflexivity.
Qed.

(** A replacement whose matches all begin with an ampersand leaves a text
    without ampersand alone. *)
Lemma replaceAll_no_ampersand (m : list N -> option (nat * list N)) :
  (forall c tail, c <> AMP -> m (c :: tail) = None) ->
  forall text, Forall (fun c => c <> AMP) text -> replaceAll m 0 text = text.
Proof.
  intros Hm text. induction 1 as [|c text Hc Ht IH]; [reflexivity|].
  rewrite replaceAll_unmatched by (apply Hm, Hc). rewrite IH. reflexivity.
Qed.

(** One pass of the loop over [entityMap], on one token: the entity of
    the pass is decoded, every other token is left as it is. *)
Ltac token_pass Hc rest :=
  match goal with
  | |- replaceAll ?m 0 ((if ?p ?c then _ else _) ++ ?tail) = _ =>
      destruct (escapeUnit_cases c)
        as [[-> _]|[[-> ->]|[[-> ->]|[[-> ->]|[[-> ->]|(-> & _)]]]]];
      [ contradiction
      | destruct (p LT); cbn; reflexivity
      | destruct (p GT); cbn; reflexivity
      | destruct (p QUOT); cbn; reflexivity
      | destruct (p APOS); cbn; reflexivity
      | assert (Hgoal : replaceAll m 0 ([c] ++ tail) = [c] ++ replaceAll m 0 tail)
          by (apply replaceAll_unmatched;
              apply (literalMatcher_other_head AMP rest); exact Hc);
        repeat match goal with
               | |- context [if ?b then _ else _] => destruct b
               end;
        exact Hgoal ]
  end.

Lemma token_amp (p : N -> bool) (c : N) (tail : list N) :
  c <> AMP ->
  replaceAll (literalMatcher (lit "&amp;") [AMP]) 0
    ((if p c then escapeUnit c else [c]) ++ tail)
  = (if p c then escapeUnit c else [c])
    ++ replaceAll (literalMatcher (lit "&amp;") [AMP]) 0 tail.
Proof. intros Hc. token_pass Hc (lit "amp;"). Qed.

Lemma token_lt (p : N -> bool) (c : N) (tail : list N) :
  c <> AMP ->
  replaceAll (literalMatcher (lit "&lt;") [LT]) 0
    ((if p c then escapeUnit c else [c]) ++ tail)
  = (if p c && negb (c =? LT) then escapeUnit c else [c])
    ++ replaceAll (literalMatcher (lit "&lt;") [LT]) 0 tail.
Proof. intros Hc. token_pass Hc (lit "lt;"). Qed.

Lemma token_gt (p : N -> bool) (c : N) (tail : list N) :
  c <> AMP ->
  replaceAll (literalMatcher (lit "&gt;") [GT]) 0
    ((if p c then escapeUnit c else [c]) ++ tail)
  = (if p c && negb (c =? GT) then escapeUnit c else [c])
    ++ replaceAll (literalMatcher (lit "&gt;") [GT]) 0 tail.
Proof. intros Hc. token_pass Hc (lit "gt;"). Qed.

Lemma token_quot (p : N -> bool) (c : N) (tail : list N) :
  c <> AMP ->
  replaceAll (literalMatcher (lit "&quot;") [QUOT]) 0
    ((if p c then escapeUnit c else [c]) ++ tail)
  = (if p c && negb (c =? QUOT) then escapeUnit c else [c])
    ++ replaceAll (literalMatcher (lit "&quot;") [QUOT]) 0 tail.
Proof. intros Hc. token_pass Hc (lit "quot;"). Qed.

Lemma token_039 (p : N -> bool) (c : N) (tail : list N) :
  c <> AMP ->
  replaceAll (literalMatcher (lit "&#039;") [APOS]) 0
    ((if p c then escapeUnit c else [c]) ++ tail)
  = (if p c && negb (c =? APOS) then escapeUnit c else [c])
    ++ replaceAll (literalMatcher (lit "&#039;") [APOS]) 0 tail.
Proof. intros Hc. token_pass Hc (lit "#039;"). Qed.

Lemma decimalEntityMatcher_head (c : N) (tail : list N) :
  c <> AMP -> decimalEntityMatcher (c :: tail) = None.
Proof.
  intros Hc. unfold decimalEntityMatcher.
  destruct tail as [|h r]; [reflexivity|].
  destruct (c =? AMP) eqn:E; [apply N.eqb_eq in E; contradiction | reflexivity].
Qed.

Lemma hexEntityMatcher_head (c : N) (tail : list N) :
  c <> AMP -> hexEntityMatcher (c :: tail) = None.
Proof.
  intros Hc. unfold hexEntityMatcher.
  destruct tail as [|h [|x r]]; [reflexivity|reflexivity|].
  destruct (c =? AMP) eqn:E; [apply N.eqb_eq in E; contradiction | reflexivity].
Qed.

Lemma flat_map_units (f : N -> list N) (text : list N) :
  Forall (fun c => c <> AMP) text ->
  (forall c, c <> AMP -> f c = [c]) ->
  flat_map f text = text.
Proof.
  intros H Hf. induction H as [|c text Hc Ht IH]; simpl; [reflexivity|].
  rewrite (Hf c Hc), IH. reflexivity.
Qed.

Lemma decode_escape_no_ampersand (text : list N) :
  Forall (fun c => c <> AMP) text ->
  decodeHtmlEntities (escapeHtml text) = text.
Proof.
  intros H.
  pose (tok := fun (p : N -> bool) (c : N) => if p c then escapeUnit c else [c]).
  pose (p0 := fun _ : N => true).
  pose (p1 := fun c => p0 c && negb (c =? LT)).
  pose (p2 := fun c => p1 c && negb (c =? GT)).
  pose (p3 := fun c => p2 c && negb (c =? QUOT)).
  pose (p4 := fun c => p3 c && negb (c =? APOS)).
  assert (E0 : escapeHtml text = flat_map (tok p0) text)
    by apply escapeHtml_flat_map.
  assert (E1 : replaceAll (literalMatcher (lit "&amp;") [AMP]) 0
                 (flat_map (tok p0) text) = flat_map (tok p0) text).
  { apply (pass_flat_map _ (tok p0) (tok p0)); [|exact H].
    intros c tail Hc. apply (token_amp p0 c tail Hc). }
  assert (E2 : replaceAll (literalMatcher (lit "&lt;") [LT]) 0
                 (flat_map (tok p0) text) = flat_map (tok p1) text).
  { apply (pass_flat_map _ (tok p0) (tok p1)); [|exact H].
    intros c tail Hc. apply (token_lt p0 c tail Hc). }
  assert (E3 : replaceAll (literalMatcher (lit "&gt;") [GT]) 0
                 (flat_map (tok p1) text) = flat_map (tok p2) text).
  { apply (pass_flat_map _ (tok p1) (tok p2)); [|exact H].
    intros c tail Hc. apply (token_gt p1 c tail Hc). }
  assert (E4 : replaceAll (literalMatcher (lit "&quot;") [QUOT]) 0
                 (flat_map (tok p2) text) = flat_map (tok p3) text).
  { apply (pass_flat_map _ (tok p2) (tok p3)); [|exact H].
    intros c tail Hc. apply (token_quot p2 c tail Hc). }
  assert (E5 : replaceAll (literalMatcher (lit "&#039;") [APOS]) 0
                 (flat_map (tok p3) text) = flat_map (tok p4) text).
  { apply (pass_flat_map _ (tok p3) (tok p4)); [|exact H].
    intros c tail Hc. apply (token_039 p3 c tail Hc). }
  assert (E6 : flat_map (tok p4) text = text).
  { apply flat_map_units; [exact H|]. intros c Hc.
    unfold tok, p4, p3, p2, p1, p0.
    destruct (escapeUnit_cases c)
      as [[-> _]|[[-> _]|[[-> _]|[[-> _]|[[-> _]|(-> & _)]]]]];
      try contradiction; try reflexivity.
    destruct (_ && _); reflexivity. }
  unfold decodeHtmlEntities, entityMap. cbn [fold_left]. cbv beta iota.
  rewrite E0, E1, E2, E3, E4, E5, E6.
  assert (E7 : replaceAll (literalMatcher (lit "&apos;") [APOS]) 0 text = text).
  { apply replaceAll_no_ampersand; [|exact H]. intros c tail Hc.
    apply (literalMatcher_other_head AMP (lit "apos;") [APOS] c tail Hc). }
  rewrite E7.
  rewrite (replaceAll_no_ampersand _ decimalEntityMatcher_head text H).
  apply (replaceAll_no_ampersand _ hexEntityMatcher_head text H).
Qed.

End DecodeEscape.

(** X5. Decoding undoes escaping on a text without ampersand:
    [decodeHtmlEntities(escapeHtml(text))] is [text].  (With an ampersand
    in the text the decoder can read an entity the text only spelled out.) *)
Theorem X5_decode_after_escape (text : list N) :
  Forall (fun c => c <> Sanitize.AMP) text ->
  Sanitize.decodeHtmlEntities (Sanitize.escapeHtml text) = text.
Proof. apply decode_escape_no_ampersand. Qed.

Lemma X5_decode_after_escape_witness :
  Forall (fun c => c <> Sanitize.AMP) (lit "if a<b then 'x' > y") /\
  Sanitize.decodeHtmlEntities
    (Sanitize.escapeHtml (lit "if a<b then 'x' > y"))
  = lit "if a<b then 'x' > y".
Proof.
  assert (H : Forall (fun c => c <> Sanitize.AMP) (lit "if a<b then 'x' > y"))
    by (repeat constructor; discriminate).
  split; [exact H|].
  exact (X5_decode_after_escape _ H).
Defined.

Section UrlFacts.

Import Sanitize.

Lemma upperAscii_H (c : N) : upperAscii 104 = upperAscii c -> c = 72 \/ c = 104.
Proof.
  change (upperAscii 104) with 72. unfold upperAscii.
  destruct ((97 <=? c) && (c <=? 122)) eqn:E.
  - apply andb_true_iff in E as [E1 E2].
    apply N.leb_le in E1, E2. intros H. right. lia.
  - intros H. left. symmetry. exact H.
Qed.

Lemma startsWith_cons (c : N) (t : list N) (p0 : N) (p : list N) :
  startsWith (c :: t) (p0 :: p) = (p0 =? c) && startsWith t p.
Proof. reflexivity. Qed.

Lemma startsWith_ci_cons (c : N) (t : list N) (p0 : N) (p : list N) :
  startsWith_ci (c :: t) (p0 :: p)
  = (upperAscii p0 =? upperAscii c) && startsWith_ci t p.
Proof. reflexivity. Qed.

(** A text that passes the allow list does not begin with one of the
    blocked schemes. *)
Lemma allowed_not_dangerous (t : list N) :
  matchesAllowedPrefix t = true ->
  existsb (startsWith (toLowerCase t)) dangerousSchemes = false.
Proof.
  unfold matchesAllowedPrefix. intros H.
  destruct t as [|c t]; [discriminate|].
  assert (Hc : c = 72 \/ c = 104 \/ c = 47).
  { apply orb_true_iff in H as [H|H].
    - apply orb_true_iff in H as [H|H].
      + change (lit "http://") with (104 :: lit "ttp://") in H.
        rewrite startsWith_ci_cons in H.
        apply andb_true_iff in H as [H _]. apply N.eqb_eq in H.
        apply upperAscii_H in H. tauto.
      + change (lit "https://") with (104 :: lit "ttps://") in H.
        rewrite startsWith_ci_cons in H.
        apply andb_true_iff in H as [H _]. apply N.eqb_eq in H.
        apply upperAscii_H in H. tauto.
    - change (lit "/") with [47] in H. rewrite startsWith_cons in H.
      apply andb_true_iff in H as [H _]. apply N.eqb_eq in H. auto. }
  destruct Hc as [-> | [-> | ->]]; reflexivity.
Qed.

Lemma sanitizeUrl_allow_list (u : list N) :
  sanitizeUrl u =
    match u with
    | [] => []
    | _ => if matchesAllowedPrefix (trim u) then trim u else lit "#"
    end.
Proof.
  destruct u as [|c u]; [reflexivity|]. unfold sanitizeUrl.
  destruct (matchesAllowedPrefix (trim (c :: u))) eqn:Hm.
  - rewrite (allowed_not_dangerous _ Hm). reflexivity.
  - destruct (existsb _ _); reflexivity.
Qed.

End UrlFacts.

(** X6. [sanitizeUrl] is decided by its allow list alone: a non-empty URL
    is returned trimmed when, trimmed, it begins with [http://] or
    [https://] in any letter case or with a slash, and is replaced by [#]
    otherwise; the list of blocked schemes never changes the answer.  What
    is returned never begins with a blocked scheme and has no white space at
    its ends. *)
Theorem X6_sanitizeUrl_allow_list_decides (u : list N) :
  Sanitize.sanitizeUrl u =
    match u with
    | [] => []
    | _ => if Sanitize.matchesAllowedPrefix (trim u) then trim u else lit "#"
    end /\
  existsb (startsWith (toLowerCase (Sanitize.sanitizeUrl u)))
    Sanitize.dangerousSchemes = false /\
  trim (Sanitize.sanitizeUrl u) = Sanitize.sanitizeUrl u /\
  (Sanitize.sanitizeUrl u = [] \/ Sanitize.sanitizeUrl u = lit "#" \/
   Sanitize.matchesAllowedPrefix (Sanitize.sanitizeUrl u) = true).
Proof.
  split; [apply sanitizeUrl_allow_list|].
  rewrite sanitizeUrl_allow_list.
  destruct u as [|c u]; [repeat split; auto|].
  destruct (Sanitize.matchesAllowedPrefix (trim (c :: u))) eqn:Hm.
  - split; [apply allowed_not_dangerous, Hm|].
    split; [apply trim_idem | auto].
  - repeat split; auto.
Qed.

(** ** Top story and time labels *)

Section LocalIntelFacts.

Import Aggregator LocalIntel.

Context (Date_parse : list N -> option Z).

Lemma firstStory_failed (field : Payload -> option (list Article))
    (mk : Article -> TopStory) (r : Settled) :
  failed r = true -> firstStory field mk r = Normal [].
Proof.
  destruct r as [value|]; simpl; [|reflexivity].
  destruct (ok value); [discriminate | reflexivity].
Qed.

Lemma firstStory_ok (field : Payload -> option (list Article))
    (mk : Article -> TopStory) (data : Payload) (item : Article)
    (rest : list Article) :
  field data = Some (item :: rest) ->
  firstStory field mk (fulfilled {| ok := true; json := Normal data |})
  = Normal [mk item].
Proof. intros H. simpl. rewrite H. reflexivity. Qed.

(** Nested rounding down is rounding down by the product. *)
Lemma floor_minutes_hours (d : Z) : (d / 60000 / 60 = d / 3600000)%Z.
Proof. rewrite Z.div_div by lia. reflexivity. Qed.

Lemma floor_minutes_hours_days (d : Z) : (d / 60000 / 60 / 24 = d / 86400000)%Z.
Proof. rewrite !Z.div_div by lia. reflexivity. Qed.

End LocalIntelFacts.

(** X7. [fetchTopStory] returns the first item of a list, with no check of
    its date.  When both sources deliver one, the city announcement wins
    only if both dates are valid and its date is strictly later; otherwise
    the Lake Expo article is the top story.  A source that failed is passed
    over, and a body that is not JSON makes the result [null] whatever the
    other source delivered. *)
Theorem X7_fetchTopStory_choice (Date_parse : list N -> option Z)
    (lakeExpoData cityData : Aggregator.Payload)
    (article announcement : Aggregator.Article)
    (moreArticles moreAnnouncements : list Aggregator.Article)
    (bad other : Aggregator.Settled) :
  let lakeExpo :=
    Aggregator.fulfilled
      {| Aggregator.ok := true; Aggregator.json := Aggregator.Normal lakeExpoData |} in
  let city :=
    Aggregator.fulfilled
      {| Aggregator.ok := true; Aggregator.json := Aggregator.Normal cityData |} in
  let broken :=
    Aggregator.fulfilled
      {| Aggregator.ok := true; Aggregator.json := Aggregator.Throw |} in
  Aggregator.articles lakeExpoData = Some (article :: moreArticles) ->
  Aggregator.announcements cityData = Some (announcement :: moreAnnouncements) ->
  Aggregator.failed bad = true ->
  LocalIntel.fetchTopStory Date_parse lakeExpo city =
    Some (match Date_parse (Aggregator.art_publishedAt article),
                Date_parse (Aggregator.art_publishedAt announcement) with
          | Some ta, Some tb =>
              if (ta <? tb)%Z then LocalIntel.cityStory announcement
              else LocalIntel.lakeExpoStory article
          | _, _ => LocalIntel.lakeExpoStory article
          end) /\
  LocalIntel.fetchTopStory Date_parse lakeExpo bad
    = Some (LocalIntel.lakeExpoStory article) /\
  LocalIntel.fetchTopStory Date_parse bad city
    = Some (LocalIntel.cityStory announcement) /\
  LocalIntel.fetchTopStory Date_parse bad bad = None /\
  LocalIntel.fetchTopStory Date_parse broken other = None /\
  LocalIntel.fetchTopStory Date_parse lakeExpo broken = None.
Proof.
  intros lakeExpo city broken Ha Hb Hbad.
  unfold LocalIntel.fetchTopStory, LocalIntel.fetchTopStory_body.
  subst lakeExpo city broken.
  rewrite !(firstStory_ok _ _ _ _ _ Ha), !(firstStory_ok _ _ _ _ _ Hb),
    !(firstStory_failed _ _ _ Hbad).
  repeat split; try reflexivity.
  simpl. unfold LocalIntel.compareStories. simpl.
  destruct (Date_parse (Aggregator.art_publishedAt announcement)) as [tb|],
           (Date_parse (Aggregator.art_publishedAt article)) as [ta|];
    simpl; try reflexivity.
  destruct (tb - ta <=? 0)%Z eqn:E1, (ta <? tb)%Z eqn:E2; try reflexivity;
    [apply Z.leb_le in E1; apply Z.ltb_lt in E2; lia
    |apply Z.leb_gt in E1; apply Z.ltb_ge in E2; lia].
Qed.

Lemma X7_fetchTopStory_choice_witness :
  let old :=
    {| Aggregator.art_id := lit "lakeexpo-a";
       Aggregator.art_title := lit "Boat show opens at the marina";
       Aggregator.art_summary := lit "Boat show opens at the marina";
       Aggregator.art_url := lit "https://www.lakeexpo.com/news/a";
       Aggregator.art_publishedAt := lit "2023-05-01" |} in
  let fresh :=
    {| Aggregator.art_id := lit "city-b";
       Aggregator.art_title := lit "Street sweeping schedule";
       Aggregator.art_summary := lit "Street sweeping schedule";
       Aggregator.art_url := lit "https://cityoflakeozark.net/b";
       Aggregator.art_publishedAt := lit "2024-01-12" |} in
  let data :=
    {| Aggregator.articles := Some [old]; Aggregator.announcements := Some [fresh] |} in
  let source :=
    Aggregator.fulfilled
      {| Aggregator.ok := true; Aggregator.json := Aggregator.Normal data |} in
  Aggregator.failed Aggregator.rejected = true /\
  LocalIntel.fetchTopStory IsoDate.parse source source
    = Some (LocalIntel.cityStory fresh) /\
  LocalIntel.fetchTopStory IsoDate.parse source Aggregator.rejected
    = Some (LocalIntel.lakeExpoStory old).
Proof.
  intros old fresh data source.
  assert (Hbad : Aggregator.failed Aggregator.rejected = true) by reflexivity.
  destruct (X7_fetchTopStory_choice IsoDate.parse data data old fresh [] []
              Aggregator.rejected Aggregator.rejected eq_refl eq_refl Hbad)
    as (Hboth & Hone & _).
  split; [exact Hbad|]. split; [|exact Hone].
  etransitivity; [exact Hboth|]. vm_compute. reflexivity.
Defined.

(** X8. [isWithin72Hours] holds exactly for a valid date that lies at most
    72 hours (259200000 ms) back; a date in the future counts as within 72
    hours, and an invalid date does not. *)
Theorem X8_isWithin72Hours_bound (Date_parse : list N -> option Z) (now : Z)
    (timestamp : list N) :
  (LocalIntel.isWithin72Hours Date_parse now timestamp = true <->
   exists t, Date_parse timestamp = Some t /\ (now - t <= 259200000)%Z) /\
  (forall t, Date_parse timestamp = Some t -> (now <= t)%Z ->
     LocalIntel.isWithin72Hours Date_parse now timestamp = true) /\
  (Date_parse timestamp = None ->
     LocalIntel.isWithin72Hours Date_parse now timestamp = false).
Proof.
  assert (Hiff : LocalIntel.isWithin72Hours Date_parse now timestamp = true <->
            exists t, Date_parse timestamp = Some t /\ (now - t <= 259200000)%Z).
  { unfold LocalIntel.isWithin72Hours.
    destruct (Date_parse timestamp) as [t|].
    - rewrite Qle_bool_iff. unfold Qle, Qdiv, Qmult, Qinv, inject_Z. simpl.
      split.
      + intros H. exists t. split; [reflexivity | lia].
      + intros (t' & Ht & H). injection Ht as <-. lia.
    - split; [discriminate|]. intros (t & Ht & _). discriminate. }
  split; [exact Hiff|]. split.
  - intros t Ht Hle. apply Hiff. exists t. split; [exact Ht | lia].
  - intros Hn. unfold LocalIntel.isWithin72Hours. rewrite Hn. reflexivity.
Qed.

Lemma X8_isWithin72Hours_bound_witness :
  IsoDate.parse (lit "2024-01-20") = Some 1705708800000%Z /\
  (1705314600000 <= 1705708800000)%Z /\
  LocalIntel.isWithin72Hours IsoDate.parse 1705314600000 (lit "2024-01-20") = true /\
  IsoDate.parse (lit "yesterday") = None /\
  LocalIntel.isWithin72Hours IsoDate.parse 1705314600000 (lit "yesterday") = false.
Proof.
  assert (H1 : IsoDate.parse (lit "2024-01-20") = Some 1705708800000%Z)
    by (vm_compute; reflexivity).
  assert (H2 : (1705314600000 <= 1705708800000)%Z) by lia.
  assert (H3 : IsoDate.parse (lit "yesterday") = None) by (vm_compute; reflexivity).
  split; [exact H1|]. split; [exact H2|]. split; [|split; [exact H3|]].
  - exact (proj1 (proj2 (X8_isWithin72Hours_bound IsoDate.parse 1705314600000
                           (lit "2024-01-20"))) _ H1 H2).
  - exact (proj2 (proj2 (X8_isWithin72Hours_bound IsoDate.parse 1705314600000
                           (lit "yesterday"))) H3).
Defined.

Section TimeLabelFacts.

Import LocalIntel.

(** Rounding down against a bound, for a positive divisor. *)
Lemma div_lt_iff (d k n : Z) : (0 < k)%Z -> (d / k <? n)%Z = (d <? n * k)%Z.
Proof.
  intros Hk.
  pose proof (Z.div_mod d k ltac:(lia)) as Hdm.
  pose proof (Z.mod_pos_bound d k Hk) as Hm.
  destruct (d / k <? n)%Z eqn:E1, (d <? n * k)%Z eqn:E2; try reflexivity.
  - apply Z.ltb_lt in E1. apply Z.ltb_ge in E2. nia.
  - apply Z.ltb_ge in E1. apply Z.ltb_lt in E2. nia.
Qed.

End TimeLabelFacts.

(** X9. [formatTimeSince] picks its label by the elapsed milliseconds [d]:
    "Just now" below one minute (also for a date in the future), whole
    minutes from 1 to 59 below one hour, whole hours from 1 to 23 below one
    day, 1 or 2 days below 72 hours, each with the plural "s" unless the
    number is 1, and the locale's date from 72 hours on.  An invalid date
    also ends in the locale's date rendering. *)
Theorem X9_formatTimeSince_thresholds (Date_parse : list N -> option Z) (now : Z)
    (toLocaleDateString : option Z -> list N) (timestamp : list N) (t : Z) :
  let d := (now - t)%Z in
  let label := LocalIntel.formatTimeSince Date_parse now toLocaleDateString timestamp in
  let plural (n : Z) := if (n =? 1)%Z then lit "" else lit "s" in
  (Date_parse timestamp = None ->
     label = toLocaleDateString None) /\
  (Date_parse timestamp = Some t ->
     ((d < 60000)%Z -> label = lit "Just now") /\
     ((60000 <= d < 3600000)%Z ->
        label = LocalIntel.numberToString (Some (d / 60000)%Z) ++ lit " min ago" /\
        (1 <= d / 60000 <= 59)%Z) /\
     ((3600000 <= d < 86400000)%Z ->
        label = LocalIntel.numberToString (Some (d / 3600000)%Z) ++ lit " hour" ++
                plural (d / 3600000)%Z ++ lit " ago" /\
        (1 <= d / 3600000 <= 23)%Z) /\
     ((86400000 <= d < 259200000)%Z ->
        label = LocalIntel.numberToString (Some (d / 86400000)%Z) ++ lit " day" ++
                plural (d / 86400000)%Z ++ lit " ago" /\
        (1 <= d / 86400000 <= 2)%Z) /\
     ((259200000 <= d)%Z -> label = toLocaleDateString (Some t))).
Proof.
  intros d label plural. subst label.
  unfold LocalIntel.formatTimeSince. split.
  - intros ->. reflexivity.
  - intros ->. simpl option_map. unfold LocalIntel.floorDiv. simpl option_map.
    fold d. rewrite floor_minutes_hours_days, floor_minutes_hours.
    unfold LocalIntel.num_lt, LocalIntel.num_not_one.
    rewrite !div_lt_iff by lia.
    change (1 * 60000)%Z with 60000%Z. change (60 * 60000)%Z with 3600000%Z.
    change (24 * 3600000)%Z with 86400000%Z. change (3 * 86400000)%Z with 259200000%Z.
    pose proof (Z.div_mod d 60000 ltac:(lia)) as Hm1.
    pose proof (Z.mod_pos_bound d 60000 ltac:(lia)) as Hb1.
    pose proof (Z.div_mod d 3600000 ltac:(lia)) as Hm2.
    pose proof (Z.mod_pos_bound d 3600000 ltac:(lia)) as Hb2.
    pose proof (Z.div_mod d 86400000 ltac:(lia)) as Hm3.
    pose proof (Z.mod_pos_bound d 86400000 ltac:(lia)) as Hb3.
    repeat split.
    + intros H. apply Z.ltb_lt in H. rewrite H. reflexivity.
    + destruct H as [H1 H2].
      apply Z.ltb_ge in H1. apply Z.ltb_lt in H2. rewrite H1, H2. reflexivity.
    + lia.
    + lia.
    + destruct H as [H1 H2].
      assert (E1 : (d <? 60000)%Z = false) by (apply Z.ltb_ge; lia).
      assert (E2 : (d <? 3600000)%Z = false) by (apply Z.ltb_ge; lia).
      apply Z.ltb_lt in H2. rewrite E1, E2, H2.
      unfold plural. destruct (d / 3600000 =? 1)%Z; reflexivity.
    + lia.
    + lia.
    + destruct H as [H1 H2].
      assert (E1 : (d <? 60000)%Z = false) by (apply Z.ltb_ge; lia).
      assert (E2 : (d <? 3600000)%Z = false) by (apply Z.ltb_ge; lia).
      assert (E3 : (d <? 86400000)%Z = false) by (apply Z.ltb_ge; lia).
      apply Z.ltb_lt in H2. rewrite E1, E2, E3, H2.
      unfold plural. destruct (d / 86400000 =? 1)%Z; reflexivity.
    + lia.
    + lia.
    + intros H.
      assert (E1 : (d <? 60000)%Z = false) by (apply Z.ltb_ge; lia).
      assert (E2 : (d <? 3600000)%Z = false) by (apply Z.ltb_ge; lia).
      assert (E3 : (d <? 86400000)%Z = false) by (apply Z.ltb_ge; lia).
      assert (E4 : (d <? 259200000)%Z = false) by (apply Z.ltb_ge; lia).
      rewrite E1, E2, E3, E4. reflexivity.
Qed.

Lemma X9_formatTimeSince_thresholds_witness :
  let locale := fun _ : option Z => lit "1/12/2024" in
  let label := LocalIntel.formatTimeSince IsoDate.parse 1705314600000 locale in
  IsoDate.parse (lit "2024-01-15T08:30:00.000Z") = Some 1705307400000%Z /\
  (3600000 <= 1705314600000 - 1705307400000 < 86400000)%Z /\
  label (lit "2024-01-15T08:30:00.000Z") = lit "2 hours ago" /\
  IsoDate.parse (lit "2024-01-15T10:29:30.000Z") = Some 1705314570000%Z /\
  label (lit "2024-01-15T10:29:30.000Z") = lit "Just now" /\
  IsoDate.parse (lit "2024-01-15T09:29:59.000Z") = Some 1705310999000%Z /\
  label (lit "2024-01-15T09:29:59.000Z") = lit "1 hour ago" /\
  IsoDate.parse (lit "2024-01-13T10:00:00.000Z") = Some 1705140000000%Z /\
  label (lit "2024-01-13T10:00:00.000Z") = lit "2 days ago" /\
  IsoDate.parse (lit "2024-01-12T10:30:00.000Z") = Some 1705055400000%Z /\
  label (lit "2024-01-12T10:30:00.000Z") = lit "1/12/2024" /\
  IsoDate.parse (lit "last week") = None /\
  label (lit "last week") = lit "1/12/2024" /\
  IsoDate.parse (lit "2024-01-15T10:00:00.000Z") = Some 1705312800000%Z /\
  label (lit "2024-01-15T10:00:00.000Z") = lit "30 min ago".
Proof.
  intros locale label.
  assert (P1 : IsoDate.parse (lit "2024-01-15T08:30:00.000Z") = Some 1705307400000%Z)
    by (vm_compute; reflexivity).
  assert (P2 : IsoDate.parse (lit "2024-01-15T10:29:30.000Z") = Some 1705314570000%Z)
    by (vm_compute; reflexivity).
  assert (P3 : IsoDate.parse (lit "2024-01-15T09:29:59.000Z") = Some 1705310999000%Z)
    by (vm_compute; reflexivity).
  assert (P4 : IsoDate.parse (lit "2024-01-13T10:00:00.000Z") = Some 1705140000000%Z)
    by (vm_compute; reflexivity).
  assert (P5 : IsoDate.parse (lit "2024-01-12T10:30:00.000Z") = Some 1705055400000%Z)
    by (vm_compute; reflexivity).
  assert (P6 : IsoDate.parse (lit "last week") = None) by (vm_compute; reflexivity).
  assert (P7 : IsoDate.parse (lit "2024-01-15T10:00:00.000Z") = Some 1705312800000%Z)
    by (vm_compute; reflexivity).
  assert (R1 : (3600000 <= 1705314600000 - 1705307400000 < 86400000)%Z) by lia.
  split; [exact P1|]. split; [exact R1|].
  split.
  { destruct (proj2 (X9_formatTimeSince_thresholds IsoDate.parse 1705314600000
                       locale (lit "2024-01-15T08:30:00.000Z") 1705307400000) P1)
      as (_ & _ & Hh & _).
    exact (proj1 (Hh R1)). }
  split; [exact P2|]. split.
  { destruct (proj2 (X9_formatTimeSince_thresholds IsoDate.parse 1705314600000
                       locale (lit "2024-01-15T10:29:30.000Z") 1705314570000) P2)
      as (Hj & _).
    apply Hj. lia. }
  split; [exact P3|]. split.
  { destruct (proj2 (X9_formatTimeSince_thresholds IsoDate.parse 1705314600000
                       locale (lit "2024-01-15T09:29:59.000Z") 1705310999000) P3)
      as (_ & _ & Hh & _).
    exact (proj1 (Hh ltac:(lia))). }
  split; [exact P4|]. split.
  { destruct (proj2 (X9_formatTimeSince_thresholds IsoDate.parse 1705314600000
                       locale (lit "2024-01-13T10:00:00.000Z") 1705140000000) P4)
      as (_ & _ & _ & Hd & _).
    exact (proj1 (Hd ltac:(lia))). }
  split; [exact P5|]. split.
  { destruct (proj2 (X9_formatTimeSince_thresholds IsoDate.parse 1705314600000
                       locale (lit "2024-01-12T10:30:00.000Z") 1705055400000) P5)
      as (_ & _ & _ & _ & Hl).
    apply Hl. lia. }
  split; [exact P6|]. split.
  { exact (proj1 (X9_formatTimeSince_thresholds IsoDate.parse 1705314600000
                    locale (lit "last week") 0) P6). }
  split; [exact P7|].
  destruct (proj2 (X9_formatTimeSince_thresholds IsoDate.parse 1705314600000
                     locale (lit "2024-01-15T10:00:00.000Z") 1705312800000) P7)
    as (_ & Hm & _).
  exact (proj1 (Hm ltac:(lia))).
Defined.

(** ** The incidents [fetchLocalIncidents] returns *)

Section ReturnedIncidents.

Import Classifier Geocode Aggregator.

Context (Date_parse : list N -> option Z) (clock : nat -> Z).

(** Every returned incident was built from an item of one of the lists. *)
Lemma fetchLocalIncidents_origin (lakeExpoResponse cityResponse : Settled)
    (x : LocalIncident) :
  In x (fetchLocalIncidents Date_parse clock lakeExpoResponse cityResponse) ->
  exists item, x = articleIncident item \/ x = announcementIncident item.
Proof.
  intros Hx.
  apply fetchLocalIncidents_In in Hx as (arts & anns & _ & _ & [Hx|Hx]);
    apply processItems_In in Hx as (j & item & _ & _ & ->);
    exists item; auto.
Qed.

Lemma determineIncidentSeverity_cases (ty : IncidentCategory) (t : list N)
    (s : option (list N)) :
  let sev := determineIncidentSeverity ty t s in
  (ty = Fire -> sev = SevAlert) /\
  (sev = SevInfo <-> ty = Other) /\
  (sev = SevAlert -> ty = Fire \/ ty = Accident).
Proof.
  unfold determineIncidentSeverity.
  destruct ty; simpl;
    try destruct (includes _ _ || includes _ _);
    repeat split; intros; try discriminate; try reflexivity; auto.
Qed.

Lemma incident_severity_of_type (item : Article) :
  severity (articleIncident item)
    = determineIncidentSeverity (type (articleIncident item))
        (art_title item) (Some (art_summary item)) /\
  severity (announcementIncident item)
    = determineIncidentSeverity (type (announcementIncident item))
        (art_title item) (Some (art_summary item)).
Proof.
  unfold articleIncident. destruct (articleCoordinate _ _). split; reflexivity.
Qed.

(** The fallback coordinate lies in the lake area. *)
Lemma fallback_in_lake_area (hash : Z) :
  (0 <= hash)%Z ->
  Traffic.isWithinLakeArea (fst (fallbackCoordinate hash))
    (snd (fallbackCoordinate hash)) = true.
Proof.
  intros Hx. unfold fallbackCoordinate. cbv zeta. cbn [fst snd].
  destruct (fallback_latitude hash Hx) as (_ & _ & _ & H1 & H2).
  destruct (fallback_longitude (hash * 13)%Z ltac:(lia)) as (_ & _ & _ & H3 & H4).
  unfold Traffic.isWithinLakeArea.
  rewrite H1, H2, H3, H4. reflexivity.
Qed.

Lemma knownPlaces_in_lake_area :
  forallb (fun place => Traffic.isWithinLakeArea (fst (snd place)) (snd (snd place)))
    knownPlaces = true.
Proof. vm_compute. reflexivity. Qed.

Lemma articleCoordinate_in_lake_area (text id : list N) :
  Traffic.isWithinLakeArea (fst (articleCoordinate text id))
    (snd (articleCoordinate text id)) = true.
Proof.
  unfold articleCoordinate, matchPlace.
  destruct (List.find (placeMatches text) knownPlaces) as [place|] eqn:E; simpl.
  - apply List.find_some in E as [Hin _].
    pose proof knownPlaces_in_lake_area as H.
    rewrite forallb_forall in H. apply (H place Hin).
  - apply fallback_in_lake_area, idHash_nonneg.
Qed.

End ReturnedIncidents.

(** X10. In every incident [fetchLocalIncidents] returns, the severity
    agrees with the category: a fire is an alert, only a fire or an accident
    can be an alert, and the severity is info exactly for the category
    other.  The source is one of the two sites. *)
Theorem X10_returned_severity_matches_category
    (Date_parse : list N -> option Z) (clock : nat -> Z)
    (lakeExpoResponse cityResponse : Aggregator.Settled)
    (x : Aggregator.LocalIncident) :
  In x (Aggregator.fetchLocalIncidents Date_parse clock
          lakeExpoResponse cityResponse) ->
  (Aggregator.type x = Classifier.Fire ->
     Aggregator.severity x = Classifier.SevAlert) /\
  (Aggregator.severity x = Classifier.SevInfo <->
     Aggregator.type x = Classifier.Other) /\
  (Aggregator.severity x = Classifier.SevAlert ->
     Aggregator.type x = Classifier.Fire \/
     Aggregator.type x = Classifier.Accident) /\
  (Aggregator.source x = lit "Lake Expo" \/
   Aggregator.source x = lit "City of Lake Ozark").
Proof.
  intros Hx.
  apply fetchLocalIncidents_origin in Hx as [item [-> | ->]].
  - rewrite (proj1 (incident_severity_of_type item)).
    destruct (determineIncidentSeverity_cases
                (Aggregator.type (Aggregator.articleIncident item))
                (Aggregator.art_title item)
                (Some (Aggregator.art_summary item))) as (H1 & H2 & H3).
    split; [exact H1|]. split; [exact H2|]. split; [exact H3|].
    left. unfold Aggregator.articleIncident.
    destruct (Geocode.articleCoordinate _ _). reflexivity.
  - rewrite (proj2 (incident_severity_of_type item)).
    destruct (determineIncidentSeverity_cases
                (Aggregator.type (Aggregator.announcementIncident item))
                (Aggregator.art_title item)
                (Some (Aggregator.art_summary item))) as (H1 & H2 & H3).
    split; [exact H1|]. split; [exact H2|]. split; [exact H3|].
    right. reflexivity.
Qed.

(** X11. Every coordinate [fetchLocalIncidents] assigns, from the table of
    place names, from the hash of the identifier or the fixed point of the
    city announcements, lies inside [LAKE_AREA_BOUNDS], the box that
    [isWithinLakeArea] tests for traffic incidents. *)
Theorem X11_returned_coordinates_in_lake_area
    (Date_parse : list N -> option Z) (clock : nat -> Z)
    (lakeExpoResponse cityResponse : Aggregator.Settled)
    (x : Aggregator.LocalIncident) :
  In x (Aggregator.fetchLocalIncidents Date_parse clock
          lakeExpoResponse cityResponse) ->
  exists la lo,
    Aggregator.lat x = Some la /\ Aggregator.lng x = Some lo /\
    Traffic.isWithinLakeArea la lo = true.
Proof.
  intros Hx.
  apply fetchLocalIncidents_origin in Hx as [item [-> | ->]].
  - unfold Aggregator.articleIncident.
    pose proof (articleCoordinate_in_lake_area
                  (toLowerCase (Aggregator.art_title item ++ lit " " ++
                                Aggregator.art_summary item))
                  (Aggregator.art_id item)) as H.
    destruct (Geocode.articleCoordinate _ _) as [la lo].
    exists la, lo. auto.
  - exists (Double.literal 3820 100), (Double.literal (-9263) 100). repeat split.
Qed.

(** X12. When neither body fails to parse, the result of
    [fetchLocalIncidents] is a rearrangement of the incidents the two loops
    pushed: the sort drops nothing and merges nothing, so two items with the
    same URL both stay, and the result is never longer than the two lists
    together. *)
Theorem X12_result_rearranges_kept_items
    (Date_parse : list N -> option Z) (clock : nat -> Z)
    (lakeExpoResponse cityResponse : Aggregator.Settled)
    (arts anns : list Aggregator.Article) :
  Aggregator.sourceItems Aggregator.articles lakeExpoResponse
    = Aggregator.Normal arts ->
  Aggregator.sourceItems Aggregator.announcements cityResponse
    = Aggregator.Normal anns ->
  let result :=
    Aggregator.fetchLocalIncidents Date_parse clock lakeExpoResponse cityResponse in
  Permutation
    (Aggregator.processItems Date_parse clock Aggregator.articleIncident 0 arts ++
     Aggregator.processItems Date_parse clock Aggregator.announcementIncident
       (length arts) anns)
    result /\
  (length result <= length arts + length anns)%nat /\
  ((forall j item, nth_error (arts ++ anns) j = Some item ->
      Aggregator.passesDateCheck Date_parse (clock j)
        (Aggregator.art_publishedAt item) = true) ->
   length result = (length arts + length anns)%nat).
Proof.
  intros Ha Hb result.
  assert (Hperm : Permutation
    (Aggregator.processItems Date_parse clock Aggregator.articleIncident 0 arts ++
     Aggregator.processItems Date_parse clock Aggregator.announcementIncident
       (length arts) anns) result).
  { subst result. unfold Aggregator.fetchLocalIncidents,
      Aggregator.fetchLocalIncidents_body.
    rewrite Ha, Hb. simpl. apply sortWith_Permutation. }
  assert (Hlen : forall mk i items,
            (length (Aggregator.processItems Date_parse clock mk i items)
             <= length items)%nat).
  { intros mk i items. revert i.
    induction items as [|it items IH]; intros i; simpl; [lia|].
    destruct (Aggregator.passesDateCheck _ _ _); simpl;
      specialize (IH (S i)); lia. }
  split; [exact Hperm|]. split.
  - rewrite <- (Permutation_length Hperm), List.length_app.
    pose proof (Hlen Aggregator.articleIncident 0%nat arts).
    pose proof (Hlen Aggregator.announcementIncident (length arts) anns).
    lia.
  - intros Hall.
    rewrite <- (Permutation_length Hperm), List.length_app.
    rewrite (processItems_all_pass Date_parse clock _ arts 0).
    + rewrite (processItems_all_pass Date_parse clock _ anns (length arts)).
      * rewrite !List.length_map. reflexivity.
      * intros j item Hj. apply Hall.
        rewrite nth_error_app2 by lia.
        replace (length arts + j - length arts)%nat with j by lia. exact Hj.
    + intros j item Hj. apply Hall.
      assert (Hlt : (j < length arts)%nat)
        by (apply List.nth_error_Some; rewrite Hj; discriminate).
      rewrite List.nth_error_app1 by exact Hlt. exact Hj.
Qed.


Lemma X10_returned_severity_matches_category_witness :
  let item :=
    {| Aggregator.art_id := lit "lake-expo-17";
       Aggregator.art_title := lit "Brush fire near Camdenton";
       Aggregator.art_summary := lit "Crews contained it by noon";
       Aggregator.art_url := lit "https://www.lakeexpo.com/news/17";
       Aggregator.art_publishedAt := lit "2024-01-12T08:00:00.000Z" |} in
  let data :=
    {| Aggregator.articles := Some [item]; Aggregator.announcements := None |} in
  let good :=
    Aggregator.fulfilled
      {| Aggregator.ok := true; Aggregator.json := Aggregator.Normal data |} in
  let clock := fun _ : nat => 1705314600000%Z in
  let x := Aggregator.articleIncident item in
  In x (Aggregator.fetchLocalIncidents IsoDate.parse clock good Aggregator.rejected) /\
  Aggregator.type x = Classifier.Fire /\
  Aggregator.severity x = Classifier.SevAlert /\
  Aggregator.source x = lit "Lake Expo".
Proof.
  intros item data good clock x.
  assert (Hin : In x (Aggregator.fetchLocalIncidents IsoDate.parse clock good
                        Aggregator.rejected))
    by (vm_compute; left; reflexivity).
  assert (Hty : Aggregator.type x = Classifier.Fire) by (vm_compute; reflexivity).
  destruct (X10_returned_severity_matches_category IsoDate.parse clock good
              Aggregator.rejected x Hin) as (Hfire & _ & _ & _).
  split; [exact Hin|]. split; [exact Hty|]. split; [exact (Hfire Hty)|].
  vm_compute. reflexivity.
Defined.

Lemma X11_returned_coordinates_in_lake_area_witness :
  let item :=
    {| Aggregator.art_id := lit "lake-expo-18";
       Aggregator.art_title := lit "Road work begins Monday";
       Aggregator.art_summary := lit "Expect delays";
       Aggregator.art_url := lit "https://www.lakeexpo.com/news/18";
       Aggregator.art_publishedAt := lit "2024-01-12T08:00:00.000Z" |} in
  let data :=
    {| Aggregator.articles := Some [item]; Aggregator.announcements := None |} in
  let good :=
    Aggregator.fulfilled
      {| Aggregator.ok := true; Aggregator.json := Aggregator.Normal data |} in
  let clock := fun _ : nat => 1705314600000%Z in
  let x := Aggregator.articleIncident item in
  Geocode.matchPlace
    (toLowerCase (Aggregator.art_title item ++ lit " " ++ Aggregator.art_summary item))
    = None /\
  In x (Aggregator.fetchLocalIncidents IsoDate.parse clock good Aggregator.rejected) /\
  exists la lo,
    Aggregator.lat x = Some la /\ Aggregator.lng x = Some lo /\
    Traffic.isWithinLakeArea la lo = true.
Proof.
  intros item data good clock x.
  assert (Hin : In x (Aggregator.fetchLocalIncidents IsoDate.parse clock good
                        Aggregator.rejected))
    by (vm_compute; left; reflexivity).
  split; [vm_compute; reflexivity|]. split; [exact Hin|].
  exact (X11_returned_coordinates_in_lake_area IsoDate.parse clock good
           Aggregator.rejected x Hin).
Defined.

Lemma X12_result_rearranges_kept_items_witness :
  let first :=
    {| Aggregator.art_id := lit "lake-expo-1705000000000-0";
       Aggregator.art_title := lit "Boat show returns to Osage Beach";
       Aggregator.art_summary := lit "Vendors from four states";
       Aggregator.art_url := lit "https://www.lakeexpo.com/news/boat-show";
       Aggregator.art_publishedAt := lit "2024-01-10" |} in
  let again :=
    {| Aggregator.art_id := lit "city-1705000000000-0";
       Aggregator.art_title := lit "Boat show returns to Osage Beach";
       Aggregator.art_summary := lit "Vendors from four states";
       Aggregator.art_url := lit "https://www.lakeexpo.com/news/boat-show";
       Aggregator.art_publishedAt := lit "2024-01-10" |} in
  let lakeExpo :=
    Aggregator.fulfilled
      {| Aggregator.ok := true;
         Aggregator.json := Aggregator.Normal
           {| Aggregator.articles := Some [first];
              Aggregator.announcements := None |} |} in
  let city :=
    Aggregator.fulfilled
      {| Aggregator.ok := true;
         Aggregator.json := Aggregator.Normal
           {| Aggregator.articles := None;
              Aggregator.announcements := Some [again] |} |} in
  let clock := fun _ : nat => 1705314600000%Z in
  let result := Aggregator.fetchLocalIncidents IsoDate.parse clock lakeExpo city in
  Aggregator.sourceUrl (Aggregator.articleIncident first)
    = Aggregator.sourceUrl (Aggregator.announcementIncident again) /\
  Permutation
    [Aggregator.articleIncident first; Aggregator.announcementIncident again]
    result /\
  length result = 2%nat.
Proof.
  intros first again lakeExpo city clock result.
  destruct (X12_result_rearranges_kept_items IsoDate.parse clock lakeExpo city
              [first] [again] eq_refl eq_refl) as (Hperm & _ & Hlen).
  split; [reflexivity|]. split.
  - exact Hperm.
  - apply Hlen. intros [|[|j]] item Hj; simpl in Hj.
    + injection Hj as <-. vm_compute. reflexivity.
    + injection Hj as <-. vm_compute. reflexivity.
    + destruct j; discriminate.
Defined.


(** ** Traffic incidents *)

Section TrafficFacts.

Import Classifier MapState Aggregator Traffic.

Context (Date_parse : list N -> option Z) (now : Z) (toISOString : Z -> list N).

Lemma orElse_nonempty (v : option (list N)) (d : list N) :
  d <> [] -> orElse v d <> [].
Proof. destruct v as [[|c s]|]; simpl; intros H; [exact H|discriminate|exact H]. Qed.

Lemma classifyTags_description (tags : gmap string (list N)) :
  snd (classifyTags tags) <> [].
Proof.
  unfold classifyTags.
  repeat match goal with
         | |- context [if ?b then _ else _] => destruct b
         end; cbn [snd]; try discriminate;
    apply orElse_nonempty; discriminate.
Qed.

Lemma determineSeverity_cases (ty : IncidentType) (d : list N) :
  (determineSeverity ty d = SevAlert <-> ty = TClosure \/ ty = TAccident) /\
  (determineSeverity ty d = SevAdvisory <-> ty = TConstruction \/ ty = THazard) /\
  (determineSeverity ty d = SevInfo <-> ty = TDisabled \/ ty = TOther).
Proof.
  destruct ty; cbv; repeat split; intros H;
    try discriminate; try reflexivity; auto;
    destruct H as [H|H]; discriminate.
Qed.

Lemma keepElement_inv (element : Element) :
  keepElement element = true ->
  el_type element = lit "way" /\
  exists lat lng, el_center element = Some (lat, lng) /\
                  isWithinLakeArea lat lng = true.
Proof.
  unfold keepElement. case_bool_decide as Hty; simpl; [|discriminate].
  destruct (el_center element) as [[lat lng]|]; [|discriminate].
  intros H. split; [exact Hty|]. exists lat, lng. auto.
Qed.

Lemma toIncident_inv (element : Element) (x : TrafficIncident) :
  toIncident Date_parse now toISOString element = Normal x ->
  ti_id x = lit "osm-" ++ el_type element ++ lit "-" ++
            LocalIntel.numberToString (Some (Z.of_N (el_id element))) /\
  (ti_lat x, ti_lng x) = default (0, 0)%Q (el_center element) /\
  (ti_type x, ti_description x) = classifyTags (default ∅ (el_tags element)) /\
  ti_severity x = determineSeverity (ti_type x) (ti_description x) /\
  ti_source x = Some (lit "OpenStreetMap").
Proof.
  unfold toIncident.
  destruct (default (0, 0)%Q (el_center element)) as [lat lng].
  destruct (classifyTags (default ∅ (el_tags element))) as [ty d].
  destruct (if truthy (el_timestamp element) then _ else _) as [ts|];
    simpl; [|discriminate].
  intros H. injection H as <-. simpl. repeat split.
Qed.

Lemma mapElements_In (elements : list Element) (incidents : list TrafficIncident) :
  mapElements Date_parse now toISOString elements = Normal incidents ->
  length incidents = length elements /\
  forall x, In x incidents ->
    exists element, In element elements /\
      toIncident Date_parse now toISOString element = Normal x.
Proof.
  revert incidents. induction elements as [|e es IH]; intros incidents; simpl.
  - intros H. injection H as <-. split; [reflexivity|]. intros x [].
  - destruct (toIncident Date_parse now toISOString e) as [y|] eqn:Ey;
      simpl; [|discriminate].
    destruct (mapElements Date_parse now toISOString es) as [ys|] eqn:Eys;
      simpl; [|discriminate].
    intros H. injection H as <-.
    destruct (IH ys eq_refl) as [Hlen Hin]. split; [simpl; lia|].
    intros x [<-|Hx].
    + exists e. auto.
    + destruct (Hin x Hx) as (el & Hel & Hx'). exists el. auto.
Qed.

Lemma mapElements_throw (elements : list Element) (element : Element) :
  In element elements ->
  toIncident Date_parse now toISOString element = Throw ->
  mapElements Date_parse now toISOString elements = Throw.
Proof.
  induction elements as [|e es IH]; intros Hin Hthrow; [destruct Hin|].
  simpl. destruct Hin as [->|Hin].
  - rewrite Hthrow. reflexivity.
  - destruct (toIncident Date_parse now toISOString e); [|reflexivity].
    simpl. rewrite (IH Hin Hthrow). reflexivity.
Qed.

Lemma mapElements_normal (elements : list Element) :
  (forall element, In element elements ->
     toIncident Date_parse now toISOString element <> Throw) ->
  exists incidents,
    mapElements Date_parse now toISOString elements = Normal incidents.
Proof.
  induction elements as [|e es IH]; intros H; simpl.
  - eexists. reflexivity.
  - destruct (toIncident Date_parse now toISOString e) as [y|] eqn:Ey.
    + destruct IH as [ys Hys]; [intros el Hel; apply H; right; exact Hel|].
      rewrite Hys. simpl. eexists. reflexivity.
    + exfalso. apply (H e); [left; reflexivity | exact Ey].
Qed.

Lemma toIncident_throw_iff (element : Element) :
  toIncident Date_parse now toISOString element = Throw <->
  exists c s, el_timestamp element = Some (c :: s) /\ Date_parse (c :: s) = None.
Proof.
  unfold toIncident, isoOf.
  destruct (default (0, 0)%Q (el_center element)) as [lat lng].
  destruct (classifyTags (default ∅ (el_tags element))) as [ty d].
  destruct (el_timestamp element) as [[|c s]|]; simpl.
  - split; [discriminate|]. intros (c & s & H & _). discriminate.
  - destruct (Date_parse (c :: s)) eqn:E; simpl.
    + split; [discriminate|]. intros (c' & s' & H & H').
      injection H as <- <-. congruence.
    + split; [|reflexivity]. intros _. exists c, s. auto.
  - split; [discriminate|]. intros (c & s & H & _). discriminate.
Qed.

Lemma fetchTrafficIncidents_In (response : option OverpassResponse)
    (x : TrafficIncident) :
  In x (fetchTrafficIncidents Date_parse now toISOString response) ->
  exists element,
    keepElement element = true /\
    toIncident Date_parse now toISOString element = Normal x.
Proof.
  unfold fetchTrafficIncidents, fetchTrafficIncidents_body.
  destruct response as [response|]; [|intros []].
  destruct (ov_ok response); simpl; [|intros []].
  destruct (ov_json response) as [[elements|]|]; simpl; try (intros []).
  destruct (mapElements Date_parse now toISOString (List.filter keepElement elements))
    as [incidents|] eqn:E; [|intros []].
  intros Hx. apply mapElements_In in E as [_ E].
  destruct (E x Hx) as (el & Hel & Hx'). exists el. split; [|exact Hx'].
  apply List.filter_In in Hel. apply Hel.
Qed.

Lemma existsb_severity (s : IncidentSeverity) (incidents : list TrafficIncident) :
  existsb (fun i => severity_eqb (ti_severity i) s) incidents = true <->
  exists i, In i incidents /\ ti_severity i = s.
Proof.
  rewrite existsb_exists. split; intros (i & Hi & H); exists i; split; auto.
  - destruct (ti_severity i), s; simpl in H; congruence.
  - rewrite H. destruct s; reflexivity.
Qed.

End TrafficFacts.

(** X13. Every incident [fetchTrafficIncidents] returns lies inside
    [LAKE_AREA_BOUNDS], comes from a way of OpenStreetMap (its identifier
    starts with osm-way-), has a description that is not empty, and has the
    severity its type fixes: alert exactly for a closure or an accident,
    advisory exactly for construction or a hazard, info otherwise. *)
Theorem X13_traffic_incident_invariants
    (Date_parse : list N -> option Z) (now : Z) (toISOString : Z -> list N)
    (response : option Traffic.OverpassResponse) (x : MapState.TrafficIncident) :
  In x (Traffic.fetchTrafficIncidents Date_parse now toISOString response) ->
  Traffic.isWithinLakeArea (MapState.ti_lat x) (MapState.ti_lng x) = true /\
  startsWith (MapState.ti_id x) (lit "osm-way-") = true /\
  MapState.ti_source x = Some (lit "OpenStreetMap") /\
  MapState.ti_description x <> [] /\
  (MapState.ti_severity x = Classifier.SevAlert <->
     MapState.ti_type x = MapState.TClosure \/
     MapState.ti_type x = MapState.TAccident) /\
  (MapState.ti_severity x = Classifier.SevAdvisory <->
     MapState.ti_type x = MapState.TConstruction \/
     MapState.ti_type x = MapState.THazard) /\
  (MapState.ti_severity x = Classifier.SevInfo <->
     MapState.ti_type x = MapState.TDisabled \/
     MapState.ti_type x = MapState.TOther).
Proof.
  intros Hx.
  apply fetchTrafficIncidents_In in Hx as (el & Hkeep & Hx).
  apply keepElement_inv in Hkeep as (Hty & lat & lng & Hc & Hin).
  apply toIncident_inv in Hx as (Hid & Hll & Htd & Hsev & Hsrc).
  rewrite Hc in Hll. simpl in Hll. injection Hll as -> ->.
  split; [exact Hin|]. split.
  { rewrite Hid, Hty.
    change (lit "osm-" ++ lit "way" ++ lit "-" ++
            LocalIntel.numberToString (Some (Z.of_N (Traffic.el_id el))))
      with (lit "osm-way-" ++
            LocalIntel.numberToString (Some (Z.of_N (Traffic.el_id el)))).
    apply startsWith_app. }
  split; [exact Hsrc|]. split.
  { pose proof (classifyTags_description (default ∅ (Traffic.el_tags el))) as H.
    rewrite <- Htd in H. exact H. }
  rewrite Hsev. apply determineSeverity_cases.
Qed.

(** X14. One element that passes the filter and carries a time stamp that
    is not a date makes [fetchTrafficIncidents] return no incident at all:
    the [RangeError] of [toISOString] ends the [map] and the [catch] returns
    the empty list.  Without such an element, every element that passes the
    filter gives one incident. *)
Theorem X14_invalid_timestamp_empties_traffic
    (Date_parse : list N -> option Z) (now : Z) (toISOString : Z -> list N)
    (elements : list Traffic.Element) :
  let result :=
    Traffic.fetchTrafficIncidents Date_parse now toISOString
      (Some {| Traffic.ov_ok := true;
               Traffic.ov_json := Aggregator.Normal (Some elements) |}) in
  ((exists element c s,
      In element elements /\ Traffic.keepElement element = true /\
      Traffic.el_timestamp element = Some (c :: s) /\
      Date_parse (c :: s) = None) ->
   result = []) /\
  ((forall element c s,
      In element elements -> Traffic.keepElement element = true ->
      Traffic.el_timestamp element = Some (c :: s) ->
      Date_parse (c :: s) <> None) ->
   length result = length (List.filter Traffic.keepElement elements)).
Proof.
  intros result. subst result.
  unfold Traffic.fetchTrafficIncidents, Traffic.fetchTrafficIncidents_body.
  simpl. split.
  - intros (el & c & s & Hin & Hkeep & Hts & Hnone).
    rewrite (mapElements_throw Date_parse now toISOString
               (List.filter Traffic.keepElement elements) el); [reflexivity| |].
    + apply List.filter_In. auto.
    + apply toIncident_throw_iff. exists c, s. auto.
  - intros Hall.
    destruct (mapElements_normal Date_parse now toISOString
                (List.filter Traffic.keepElement elements)) as [incidents E].
    + intros el Hel Hthrow. apply List.filter_In in Hel as [Hin Hkeep].
      apply toIncident_throw_iff in Hthrow as (c & s & Hts & Hnone).
      exact (Hall el c s Hin Hkeep Hts Hnone).
    + rewrite E. apply mapElements_In in E as [Hlen _]. exact Hlen.
Qed.

(** X15. [getHighestIncidentSeverity] returns null exactly for the empty
    list, and otherwise the severity of one of the incidents that no other
    incident exceeds, in the order info, advisory, alert. *)
Theorem X15_getHighestIncidentSeverity_is_maximum
    (incidents : list MapState.TrafficIncident) :
  (Traffic.getHighestIncidentSeverity incidents = None <-> incidents = []) /\
  (forall s, Traffic.getHighestIncidentSeverity incidents = Some s ->
     (exists i, In i incidents /\ MapState.ti_severity i = s) /\
     (forall i, In i incidents ->
        (Traffic.severityRank (MapState.ti_severity i)
         <= Traffic.severityRank s)%nat)).
Proof.
  split.
  - destruct incidents as [|i incidents]; [split; reflexivity|].
    unfold Traffic.getHighestIncidentSeverity.
    split; [|discriminate].
    destruct (existsb _ _); [discriminate|].
    destruct (existsb _ _); discriminate.
  - intros s. destruct incidents as [|i0 incidents]; [discriminate|].
    unfold Traffic.getHighestIncidentSeverity.
    generalize (i0 :: incidents) (in_eq i0 incidents). intros l Hi0.
    destruct (existsb (fun i => Traffic.severity_eqb (MapState.ti_severity i)
                                  Classifier.SevAlert) l) eqn:Ealert.
    { intros H. injection H as <-. split.
      - apply existsb_severity. exact Ealert.
      - intros i _. destruct (MapState.ti_severity i); simpl; lia. }
    destruct (existsb (fun i => Traffic.severity_eqb (MapState.ti_severity i)
                                  Classifier.SevAdvisory) l) eqn:Eadv.
    { intros H. injection H as <-. split.
      - apply existsb_severity. exact Eadv.
      - intros i Hi. destruct (MapState.ti_severity i) eqn:Es; simpl; try lia.
        exfalso. assert (Hex : existsb (fun i => Traffic.severity_eqb
                     (MapState.ti_severity i) Classifier.SevAlert) l = true)
          by (apply existsb_severity; exists i; auto).
        congruence. }
    intros H. injection H as <-.
    assert (Hall : forall i, In i l -> MapState.ti_severity i = Classifier.SevInfo).
    { intros i Hi. destruct (MapState.ti_severity i) eqn:Es; [reflexivity| |].
      - assert (Hex : existsb (fun i => Traffic.severity_eqb
                     (MapState.ti_severity i) Classifier.SevAdvisory) l = true)
          by (apply existsb_severity; exists i; auto).
        congruence.
      - assert (Hex : existsb (fun i => Traffic.severity_eqb
                     (MapState.ti_severity i) Classifier.SevAlert) l = true)
          by (apply existsb_severity; exists i; auto).
        congruence. }
    split.
    + exists i0. split; [exact Hi0 | apply Hall; exact Hi0].
    + intros i Hi. rewrite (Hall i Hi). simpl. lia.
Qed.


Lemma X13_traffic_incident_invariants_witness :
  let gate :=
    {| Traffic.el_type := lit "way";
       Traffic.el_id := 4242;
       Traffic.el_center := Some (38.12, -92.68)%Q;
       Traffic.el_tags := Some {[ "barrier"%string := lit "gate" ]};
       Traffic.el_timestamp := None |} in
  let far :=
    {| Traffic.el_type := lit "way";
       Traffic.el_id := 7;
       Traffic.el_center := Some (39.10, -94.58)%Q;
       Traffic.el_tags := None;
       Traffic.el_timestamp := None |} in
  let response :=
    Some {| Traffic.ov_ok := true;
            Traffic.ov_json := Aggregator.Normal (Some [far; gate]) |} in
  let toISOString := fun _ : Z => lit "2024-01-15T10:30:00.000Z" in
  let x :=
    {| MapState.ti_id := lit "osm-way-4242";
       MapState.ti_type := MapState.TClosure;
       MapState.ti_description := lit "Road closure: gate";
       MapState.ti_lat := 38.12;
       MapState.ti_lng := -92.68;
       MapState.ti_severity := Classifier.SevAlert;
       MapState.ti_timestamp := lit "2024-01-15T10:30:00.000Z";
       MapState.ti_source := Some (lit "OpenStreetMap") |} in
  Traffic.fetchTrafficIncidents IsoDate.parse 1705314600000 toISOString response
    = [x] /\
  Traffic.isWithinLakeArea (MapState.ti_lat x) (MapState.ti_lng x) = true /\
  MapState.ti_description x <> [].
Proof.
  intros gate far response toISOString x.
  assert (Hres : Traffic.fetchTrafficIncidents IsoDate.parse 1705314600000
                   toISOString response = [x])
    by (vm_compute; reflexivity).
  assert (Hin : In x (Traffic.fetchTrafficIncidents IsoDate.parse 1705314600000
                        toISOString response))
    by (rewrite Hres; left; reflexivity).
  destruct (X13_traffic_incident_invariants IsoDate.parse 1705314600000
              toISOString response x Hin) as (Hbox & _ & _ & Hdesc & _).
  split; [exact Hres|]. split; [exact Hbox | exact Hdesc].
Defined.

Lemma X14_invalid_timestamp_empties_traffic_witness :
  let gate :=
    {| Traffic.el_type := lit "way";
       Traffic.el_id := 4242;
       Traffic.el_center := Some (38.12, -92.68)%Q;
       Traffic.el_tags := Some {[ "barrier"%string := lit "gate" ]};
       Traffic.el_timestamp := None |} in
  let works :=
    {| Traffic.el_type := lit "way";
       Traffic.el_id := 4243;
       Traffic.el_center := Some (38.20, -92.75)%Q;
       Traffic.el_tags := Some {[ "construction"%string := lit "minor" ]};
       Traffic.el_timestamp := Some (lit "last week") |} in
  let toISOString := fun _ : Z => lit "2024-01-15T10:30:00.000Z" in
  let fetched elements :=
    Traffic.fetchTrafficIncidents IsoDate.parse 1705314600000 toISOString
      (Some {| Traffic.ov_ok := true;
               Traffic.ov_json := Aggregator.Normal (Some elements) |}) in
  IsoDate.parse (lit "last week") = None /\
  fetched [gate; works] = [] /\
  length (fetched [gate]) = 1%nat.
Proof.
  intros gate works toISOString fetched.
  assert (Hbad : IsoDate.parse (lit "last week") = None) by (vm_compute; reflexivity).
  split; [exact Hbad|]. split.
  - apply (proj1 (X14_invalid_timestamp_empties_traffic IsoDate.parse
                    1705314600000 toISOString [gate; works])).
    exists works, 108, (lit "ast week").
    split; [right; left; reflexivity|].
    split; [vm_compute; reflexivity|].
    split; [reflexivity | exact Hbad].
  - apply (proj2 (X14_invalid_timestamp_empties_traffic IsoDate.parse
                    1705314600000 toISOString [gate])).
    intros element c s [<-|[]] _ Hts. discriminate.
Defined.

Lemma X15_getHighestIncidentSeverity_is_maximum_witness :
  let incident severity :=
    {| MapState.ti_id := lit "osm-way-1";
       MapState.ti_type := MapState.TOther;
       MapState.ti_description := lit "Traffic incident";
       MapState.ti_lat := 38.12;
       MapState.ti_lng := -92.68;
       MapState.ti_severity := severity;
       MapState.ti_timestamp := lit "2024-01-15T10:30:00.000Z";
       MapState.ti_source := Some (lit "OpenStreetMap") |} in
  let incidents := [incident Classifier.SevInfo; incident Classifier.SevAdvisory] in
  Traffic.getHighestIncidentSeverity incidents = Some Classifier.SevAdvisory /\
  forall i, In i incidents ->
    (Traffic.severityRank (MapState.ti_severity i) <= 1)%nat.
Proof.
  intros incident incidents.
  assert (H : Traffic.getHighestIncidentSeverity incidents
              = Some Classifier.SevAdvisory) by reflexivity.
  split; [exact H|].
  exact (proj2 (proj2 (X15_getHighestIncidentSeverity_is_maximum incidents)
                  Classifier.SevAdvisory H)).
Defined.


(** ** Weather alerts *)

Section WeatherFacts.

Import Weather.

(** The loop keeps the highest level it has met, from [h] on. *)
Lemma highestFrom_spec (alerts : list WeatherAlert) :
  forall h : option AlertLevel,
  h <> Some LWarning ->
  let r := highestFrom h alerts in
  (levelRank h <= levelRank r)%nat /\
  (forall a, In a alerts ->
     (levelRank (getAlertSeverity (wa_event a) (wa_severity a)) <= levelRank r)%nat) /\
  (r = h \/
   exists a, In a alerts /\ getAlertSeverity (wa_event a) (wa_severity a) = r).
Proof.
  induction alerts as [|a alerts IH]; intros h Hh; simpl.
  - split; [lia|]. split; [intros a []|]. left. reflexivity.
  - destruct (getAlertSeverity (wa_event a) (wa_severity a)) as [[| |]|] eqn:Ea;
      simpl.
    + split; [destruct h as [[| |]|]; simpl; lia|].
      split.
      * intros b _.
        destruct (getAlertSeverity (wa_event b) (wa_severity b)) as [[| |]|];
          simpl; lia.
      * right. exists a. auto.
    + assert (Hw : isLevel h LWarning = false)
        by (destruct h as [[| |]|]; simpl; congruence).
      rewrite Hw. simpl.
      destruct (IH (Some LWatch)) as (H1 & H2 & H3); [discriminate|].
      simpl in H1. split; [destruct h as [[| |]|]; simpl; try lia; congruence|].
      split.
      * intros b [<-|Hb]; [rewrite Ea; simpl; lia | apply H2; exact Hb].
      * right. destruct H3 as [H3|(b & Hb & H3)].
        -- exists a. split; [left; reflexivity | congruence].
        -- exists b. auto.
    + destruct h as [[| |]|]; simpl.
      * congruence.
      * destruct (IH (Some LWatch)) as (H1 & H2 & H3); [discriminate|].
        simpl in H1. split; [simpl; lia|]. split.
        -- intros b [<-|Hb]; [rewrite Ea; simpl; lia | apply H2; exact Hb].
        -- destruct H3 as [H3|(b & Hb & H3)]; [left; exact H3|].
           right. exists b. auto.
      * destruct (IH (Some LAdvisory)) as (H1 & H2 & H3); [discriminate|].
        simpl in H1. split; [simpl; lia|]. split.
        -- intros b [<-|Hb]; [rewrite Ea; simpl; lia | apply H2; exact Hb].
        -- destruct H3 as [H3|(b & Hb & H3)]; [left; exact H3|].
           right. exists b. auto.
      * destruct (IH (Some LAdvisory)) as (H1 & H2 & H3); [discriminate|].
        simpl in H1. split; [simpl; lia|]. split.
        -- intros b [<-|Hb]; [rewrite Ea; simpl; lia | apply H2; exact Hb].
        -- right. destruct H3 as [H3|(b & Hb & H3)].
           ++ exists a. split; [left; reflexivity | congruence].
           ++ exists b. auto.
    + assert (Hsame :
        (if match h with None => true | Some _ => false end && false
         then Some LAdvisory else h) = h) by (destruct h; reflexivity).
      destruct (IH h Hh) as (H1 & H2 & H3).
      split; [exact H1|]. split.
      * intros b [<-|Hb]; [rewrite Ea; simpl; lia | apply H2; exact Hb].
      * destruct H3 as [H3|(b & Hb & H3)]; [left; exact H3|].
        right. exists b. auto.
Qed.

Lemma getHighestSeverity_spec (alerts : list WeatherAlert) :
  let r := getHighestSeverity alerts in
  (forall a, In a alerts ->
     (levelRank (getAlertSeverity (wa_event a) (wa_severity a)) <= levelRank r)%nat) /\
  (r = None \/
   exists a, In a alerts /\ getAlertSeverity (wa_event a) (wa_severity a) = r).
Proof.
  destruct alerts as [|a0 alerts].
  - simpl. split; [intros a []|]. left. reflexivity.
  - change (getHighestSeverity (a0 :: alerts)) with (highestFrom None (a0 :: alerts)).
    destruct (highestFrom_spec (a0 :: alerts) None) as (_ & H2 & H3);
      [discriminate|].
    split; [exact H2 | exact H3].
Qed.

Lemma levelRank_inj (a b : option AlertLevel) :
  levelRank a = levelRank b -> a = b.
Proof.
  destruct a as [[| |]|], b as [[| |]|]; simpl; intros H;
    try reflexivity; discriminate.
Qed.

End WeatherFacts.

(** X16. [getHighestSeverity] returns the highest level among the alerts,
    in the order null, advisory, watch, warning: no alert has a higher
    level, and the result is null or the level of one of the alerts.  So
    the result does not depend on the order of the alerts. *)
Theorem X16_getHighestSeverity_is_maximum (alerts : list Weather.WeatherAlert) :
  let level a :=
    Weather.getAlertSeverity (Weather.wa_event a) (Weather.wa_severity a) in
  (forall a, In a alerts ->
     (Weather.levelRank (level a)
      <= Weather.levelRank (Weather.getHighestSeverity alerts))%nat) /\
  (Weather.getHighestSeverity alerts = None \/
   exists a, In a alerts /\ level a = Weather.getHighestSeverity alerts) /\
  (forall alerts', Permutation alerts alerts' ->
     Weather.getHighestSeverity alerts' = Weather.getHighestSeverity alerts).
Proof.
  intros level.
  destruct (getHighestSeverity_spec alerts) as [Hmax Hwit].
  split; [exact Hmax|]. split; [exact Hwit|].
  intros alerts' Hperm.
  destruct (getHighestSeverity_spec alerts') as [Hmax' Hwit'].
  apply levelRank_inj. apply Nat.le_antisymm.
  - destruct Hwit' as [->|(a & Ha & <-)]; [simpl; lia|].
    apply Hmax. apply (Permutation_in (l:=alerts')); [symmetry; exact Hperm|exact Ha].
  - destruct Hwit as [->|(a & Ha & <-)]; [simpl; lia|].
    apply Hmax'. apply (Permutation_in (l:=alerts)); [exact Hperm|exact Ha].
Qed.

Lemma X16_getHighestSeverity_is_maximum_witness :
  let alert event severity :=
    {| Weather.wa_id := lit "urn:oid:2.49.0.1.840.0.1";
       Weather.wa_event := lit event;
       Weather.wa_severity := lit severity;
       Weather.wa_headline := lit event;
       Weather.wa_description := [];
       Weather.wa_areaDesc := lit "Camden; Miller; Morgan";
       Weather.wa_effective := lit "2024-01-15T10:30:00-06:00";
       Weather.wa_expires := lit "2024-01-15T18:00:00-06:00" |} in
  let alerts :=
    [alert "Wind Advisory" "Minor"; alert "Flood Watch" "Moderate";
     alert "Special Weather Statement" "Unknown"]%string in
  Weather.getHighestSeverity alerts = Some Weather.LWatch /\
  Weather.getHighestSeverity (rev alerts) = Some Weather.LWatch.
Proof.
  intros alert alerts.
  assert (H : Weather.getHighestSeverity alerts = Some Weather.LWatch)
    by (vm_compute; reflexivity).
  split; [exact H|].
  rewrite <- H.
  apply (proj2 (proj2 (X16_getHighestSeverity_is_maximum alerts))).
  apply Permutation_rev.
Defined.


Section ShortNameFacts.

Import Weather WeatherSpec.

Lemma tailMatchesHere_head (word s : list N) (c : N) :
  isWhiteSpace c = false -> tailMatchesHere word (c :: s) = false.
Proof. intros H. unfold tailMatchesHere. simpl. rewrite H. reflexivity. Qed.

Lemma stripTail_nil (word : list N) : stripTail word [] = [].
Proof. simpl. destruct (tailMatchesHere word []); reflexivity. Qed.

Lemma stripTail_name (word name t : list N) :
  Forall notWhiteSpace name ->
  stripTail word (name ++ t) = name ++ stripTail word t.
Proof.
  induction 1 as [|c name Hc _ IH]; [reflexivity|].
  simpl. rewrite (tailMatchesHere_head word (name ++ t) c Hc), IH. reflexivity.
Qed.

Lemma stripTail_no_space (word name : list N) :
  Forall notWhiteSpace name -> stripTail word name = name.
Proof.
  intros H. rewrite <- (app_nil_r name) at 1.
  rewrite (stripTail_name word name [] H), stripTail_nil, app_nil_r. reflexivity.
Qed.

Lemma takeWhile_run (run w : list N) :
  Forall (fun c => isWhiteSpace c = true) run -> Forall notWhiteSpace w ->
  takeWhile isWhiteSpace (run ++ w) = run.
Proof.
  intros Hrun Hw. induction Hrun as [|c run Hc _ IH]; simpl.
  - destruct Hw as [|d w Hd _]; simpl; [reflexivity|]. rewrite Hd. reflexivity.
  - rewrite Hc, IH. reflexivity.
Qed.

Lemma tailMatchesHere_run (word run w : list N) :
  Forall (fun c => isWhiteSpace c = true) run -> Forall notWhiteSpace w ->
  run <> [] ->
  tailMatchesHere word (run ++ w) = equals_ci w word.
Proof.
  intros Hrun Hw Hne. unfold tailMatchesHere.
  rewrite (takeWhile_run run w Hrun Hw).
  destruct run as [|c run]; [congruence|].
  rewrite List.skipn_app, List.skipn_all, Nat.sub_diag. reflexivity.
Qed.

Lemma stripTail_run_match (word run w : list N) :
  Forall (fun c => isWhiteSpace c = true) run -> Forall notWhiteSpace w ->
  run <> [] -> equals_ci w word = true ->
  stripTail word (run ++ w) = [].
Proof.
  intros Hrun Hw Hne Heq.
  pose proof (tailMatchesHere_run word run w Hrun Hw Hne) as H.
  rewrite Heq in H. destruct run as [|c run]; [congruence|].
  simpl. simpl in H. rewrite H. reflexivity.
Qed.

Lemma stripTail_run_other (word run w : list N) :
  Forall (fun c => isWhiteSpace c = true) run -> Forall notWhiteSpace w ->
  equals_ci w word = false ->
  stripTail word (run ++ w) = run ++ w.
Proof.
  intros Hrun Hw Heq. induction Hrun as [|c run Hc Hrun IH].
  - apply stripTail_no_space. exact Hw.
  - pose proof (tailMatchesHere_run word (c :: run) w
                  (List.Forall_cons _ c _ Hc Hrun) Hw) as H.
    rewrite Heq in H. simpl. simpl in H. rewrite H by discriminate.
    rewrite IH. reflexivity.
Qed.

Lemma stripTail_prefix (word s : list N) : stripTail word s `prefix_of` s.
Proof.
  induction s as [|c s IH]; simpl.
  - destruct (tailMatchesHere word []); apply prefix_nil.
  - destruct (tailMatchesHere word (c :: s)); [apply prefix_nil|].
    apply prefix_cons. exact IH.
Qed.

Lemma equals_ci_length (w word : list N) :
  equals_ci w word = true -> length w = length word.
Proof.
  revert word. induction w as [|c w IH]; intros [|d word]; simpl;
    try discriminate; [reflexivity|].
  intros H. apply andb_true_iff in H as [_ H]. rewrite (IH word H). reflexivity.
Qed.

(** A code unit whose canonical form is an upper-case ASCII letter is not
    white space. *)
Lemma letter_notWhiteSpace (c : N) :
  65 <= upperAscii c <= 90 -> notWhiteSpace c.
Proof.
  unfold upperAscii, notWhiteSpace, isWhiteSpace. intros H.
  assert (Hc : 65 <= c <= 90 \/ 97 <= c <= 122).
  { destruct (N.leb_spec 97 c), (N.leb_spec c 122); simpl in H; lia. }
  repeat match goal with
         | |- context [?a <=? ?b] =>
             destruct (N.leb_spec a b); simpl; try lia
         | |- context [?a =? ?b] =>
             destruct (N.eqb_spec a b); simpl; try lia
         end; reflexivity.
Qed.

Lemma equals_ci_letters (w word : list N) :
  equals_ci w word = true ->
  Forall (fun d => 65 <= upperAscii d <= 90) word ->
  Forall notWhiteSpace w.
Proof.
  revert word. induction w as [|c w IH]; intros [|d word]; simpl;
    try discriminate; [constructor|].
  intros H Hword. apply andb_true_iff in H as [Hc H].
  apply N.eqb_eq in Hc. inversion Hword as [|? ? Hd Hword']; subst.
  constructor; [|exact (IH word H Hword')].
  apply letter_notWhiteSpace. rewrite Hc. exact Hd.
Qed.

Lemma suffixWords_letters (word : list N) :
  In word suffixWords -> Forall (fun d => 65 <= upperAscii d <= 90) word.
Proof.
  intros [<-|[<-|[<-|[]]]];
    repeat (constructor; [vm_compute; split; discriminate|]); constructor.
Qed.

(** One [replace] on a name with no white space, a run of white space and a
    word: the run and the word go when the word is the one of the pattern. *)
Lemma stripTail_event (word name run w : list N) :
  Forall notWhiteSpace name ->
  Forall (fun c => isWhiteSpace c = true) run -> run <> [] ->
  Forall notWhiteSpace w ->
  stripTail word (name ++ run ++ w)
    = if equals_ci w word then name else name ++ run ++ w.
Proof.
  intros Hname Hrun Hne Hw. rewrite (stripTail_name word name _ Hname).
  destruct (equals_ci w word) eqn:E.
  - rewrite (stripTail_run_match word run w Hrun Hw Hne E). apply app_nil_r.
  - rewrite (stripTail_run_other word run w Hrun Hw E). reflexivity.
Qed.

End ShortNameFacts.

(** X17. [getShortAlertName] returns a prefix of the event, and never the
    empty string for an event that is not empty.  For an event made of a
    name without white space, white space and one of the words Warning,
    Watch and Advisory in any mix of upper and lower case, it returns the
    name. *)
Theorem X17_getShortAlertName_strips_suffix (alert : Weather.WeatherAlert) :
  Weather.getShortAlertName alert `prefix_of` Weather.wa_event alert /\
  (Weather.wa_event alert <> [] -> Weather.getShortAlertName alert <> []) /\
  (forall name run w word,
     Weather.wa_event alert = name ++ run ++ w ->
     name <> [] -> Forall WeatherSpec.notWhiteSpace name ->
     run <> [] -> Forall (fun c => isWhiteSpace c = true) run ->
     In word WeatherSpec.suffixWords -> Weather.equals_ci w word = true ->
     Weather.getShortAlertName alert = name).
Proof.
  unfold Weather.getShortAlertName.
  split; [|split].
  - destruct (Weather.stripTail _ _) eqn:E; [reflexivity|]. rewrite <- E.
    etransitivity; [apply stripTail_prefix|].
    etransitivity; apply stripTail_prefix.
  - intros Hne. destruct (Weather.stripTail _ _); [exact Hne | discriminate].
  - intros name run w word Hev Hname Hns Hrun Hws Hword Heq.
    pose proof (equals_ci_letters w word Heq (suffixWords_letters word Hword)) as Hw.
    pose proof (equals_ci_length w word Heq) as Hlen.
    assert (Hother : forall word', length word' <> length word ->
                       Weather.equals_ci w word' = false).
    { intros word' Hd. destruct (Weather.equals_ci w word') eqn:E; [|reflexivity].
      apply equals_ci_length in E. congruence. }
    rewrite Hev.
    destruct Hword as [<-|[<-|[<-|[]]]].
    + rewrite (stripTail_event (lit "Warning") name run w Hns Hws Hrun Hw), Heq.
      rewrite !(stripTail_no_space _ name Hns).
      destruct name; [congruence | reflexivity].
    + rewrite (stripTail_event (lit "Warning") name run w Hns Hws Hrun Hw).
      rewrite (Hother (lit "Warning")) by (vm_compute; discriminate).
      rewrite (stripTail_event (lit "Watch") name run w Hns Hws Hrun Hw), Heq.
      rewrite (stripTail_no_space _ name Hns).
      destruct name; [congruence | reflexivity].
    + rewrite (stripTail_event (lit "Warning") name run w Hns Hws Hrun Hw).
      rewrite (Hother (lit "Warning")) by (vm_compute; discriminate).
      rewrite (stripTail_event (lit "Watch") name run w Hns Hws Hrun Hw).
      rewrite (Hother (lit "Watch")) by (vm_compute; discriminate).
      rewrite (stripTail_event (lit "Advisory") name run w Hns Hws Hrun Hw), Heq.
      destruct name; [congruence | reflexivity].
Qed.

Lemma X17_getShortAlertName_strips_suffix_witness :
  let alert :=
    {| Weather.wa_id := lit "urn:oid:2.49.0.1.840.0.2";
       Weather.wa_event := lit "Tornado  WARNING";
       Weather.wa_severity := lit "Extreme";
       Weather.wa_headline := lit "Tornado Warning issued";
       Weather.wa_description := [];
       Weather.wa_areaDesc := lit "Camden";
       Weather.wa_effective := lit "2024-01-15T10:30:00-06:00";
       Weather.wa_expires := lit "2024-01-15T11:00:00-06:00" |} in
  Weather.getShortAlertName alert = lit "Tornado".
Proof.
  intros alert.
  apply (proj2 (proj2 (X17_getShortAlertName_strips_suffix alert))
           (lit "Tornado") (lit "  ") (lit "WARNING") (lit "Warning")).
  - reflexivity.
  - discriminate.
  - repeat (constructor; [reflexivity|]). constructor.
  - discriminate.
  - repeat (constructor; [reflexivity|]). constructor.
  - left. reflexivity.
  - reflexivity.
Defined.


Section AlertFeedFacts.

Import Weather.

Lemma omap_properties (features : list Feature) (a : WeatherAlert) :
  In a (omap (fun feature => toAlert <$> properties feature)
          (List.filter isActual features)) ->
  exists props, p_status props = Some (lit "Actual") /\ a = toAlert props.
Proof.
  induction features as [|f features IH]; [intros []|].
  cbn [List.filter]. destruct (isActual f) eqn:E; [|exact IH].
  unfold isActual in E.
  destruct (properties f) as [props|] eqn:Ep; [|discriminate].
  cbn [omap list_omap]. rewrite Ep. cbn [fmap option_fmap option_map].
  apply bool_decide_eq_true in E.
  intros [<-|Ha]; [exists props; auto | exact (IH Ha)].
Qed.

Lemma omap_properties_length (features : list Feature) :
  length (omap (fun feature => toAlert <$> properties feature)
            (List.filter isActual features))
  = length (List.filter isActual features).
Proof.
  induction features as [|f features IH]; [reflexivity|].
  cbn [List.filter]. destruct (isActual f) eqn:E; [|exact IH].
  unfold isActual in E.
  destruct (properties f) as [props|] eqn:Ep; [|discriminate].
  cbn [omap list_omap length]. rewrite Ep. cbn [fmap option_fmap option_map length].
  f_equal. exact IH.
Qed.

Lemma fetchWeatherAlerts_In (response : option AlertsResponse) (a : WeatherAlert) :
  In a (fetchWeatherAlerts response) ->
  exists props, p_status props = Some (lit "Actual") /\ a = toAlert props.
Proof.
  unfold fetchWeatherAlerts.
  destruct response as [response|]; [|intros []].
  destruct (al_ok response); simpl; [|intros []].
  destruct (al_json response) as [[features|]|]; try (intros []).
  apply omap_properties.
Qed.

End AlertFeedFacts.

(** X18. Every alert [fetchWeatherAlerts] returns comes from a feature
    whose status is Actual, and its event, severity and headline are never
    empty: a missing one is replaced.  An alert made from properties with
    neither event nor severity has the level null.  For an answer that is
    [ok] and has a list of features, there is one alert for each feature
    with the status Actual. *)
Theorem X18_fetchWeatherAlerts_fields
    (response : option Weather.AlertsResponse) :
  (forall a, In a (Weather.fetchWeatherAlerts response) ->
     Weather.wa_event a <> [] /\ Weather.wa_severity a <> [] /\
     Weather.wa_headline a <> [] /\
     exists props,
       Weather.p_status props = Some (lit "Actual") /\
       a = Weather.toAlert props) /\
  (forall props,
     Traffic.truthy (Weather.p_event props) = false ->
     Traffic.truthy (Weather.p_severity props) = false ->
     Weather.getAlertSeverity (Weather.wa_event (Weather.toAlert props))
       (Weather.wa_severity (Weather.toAlert props)) = None) /\
  (forall features,
     response = Some {| Weather.al_ok := true;
                        Weather.al_json := Aggregator.Normal (Some features) |} ->
     length (Weather.fetchWeatherAlerts response)
       = length (List.filter Weather.isActual features)).
Proof.
  split; [|split].
  - intros a Ha. apply fetchWeatherAlerts_In in Ha as (props & Hst & ->).
    split; [apply orElse_nonempty; discriminate|].
    split; [apply orElse_nonempty; discriminate|].
    split; [apply orElse_nonempty, orElse_nonempty; discriminate|].
    exists props. split; [exact Hst | reflexivity].
  - intros props He Hs. simpl.
    destruct (Weather.p_event props) as [[|? ?]|];
      destruct (Weather.p_severity props) as [[|? ?]|];
      try discriminate; vm_compute; reflexivity.
  - intros features ->. simpl. apply omap_properties_length.
Qed.

Lemma X18_fetchWeatherAlerts_fields_witness :
  let bare status :=
    {| Weather.p_status := Some (lit status);
       Weather.p_id := None;
       Weather.p_event := None;
       Weather.p_severity := None;
       Weather.p_headline := None;
       Weather.p_description := None;
       Weather.p_areaDesc := None;
       Weather.p_effective := None;
       Weather.p_expires := None |} in
  let features :=
    [ {| Weather.properties := Some (bare "Test"%string) |};
      {| Weather.properties := Some (bare "Actual"%string) |};
      {| Weather.properties := None |} ] in
  let response :=
    Some {| Weather.al_ok := true;
            Weather.al_json := Aggregator.Normal (Some features) |} in
  let a := Weather.toAlert (bare "Actual"%string) in
  Weather.fetchWeatherAlerts response = [a] /\
  Weather.wa_event a <> [] /\
  Weather.getAlertSeverity (Weather.wa_event a) (Weather.wa_severity a) = None /\
  length (Weather.fetchWeatherAlerts response) = 1%nat.
Proof.
  intros bare features response a.
  assert (E : Weather.fetchWeatherAlerts response = [a]) by (vm_compute; reflexivity).
  assert (Hin : In a (Weather.fetchWeatherAlerts response))
    by (rewrite E; left; reflexivity).
  destruct (X18_fetchWeatherAlerts_fields response) as (Hfields & Hnull & Hlen).
  split; [exact E|].
  split; [exact (proj1 (Hfields a Hin))|].
  split; [exact (Hnull (bare "Actual"%string) eq_refl eq_refl)|].
  rewrite (Hlen features eq_refl). vm_compute. reflexivity.
Defined.

(** ** The status bar *)

(** X19. The condition the status bar shows: alert when the highest
    weather level is warning; advisory for any other weather level; with no
    weather level, advisory as soon as there is one traffic incident,
    whatever its severity and whatever the initial condition, and the
    initial condition when there is none.  So traffic incidents alone never
    give the condition alert. *)
Theorem X19_effectiveCondition_priority
    (initialCondition : StatusBar.ConditionLevel)
    (weatherAlerts : list Weather.WeatherAlert)
    (trafficIncidents : list MapState.TrafficIncident) :
  let shown :=
    StatusBar.effectiveCondition initialCondition weatherAlerts trafficIncidents in
  shown =
    match Weather.getHighestSeverity weatherAlerts, trafficIncidents with
    | Some Weather.LWarning, _ => StatusBar.CAlert
    | Some _, _ => StatusBar.CAdvisory
    | None, _ :: _ => StatusBar.CAdvisory
    | None, [] => initialCondition
    end /\
  (weatherAlerts = [] -> trafficIncidents <> [] -> shown = StatusBar.CAdvisory) /\
  (shown = StatusBar.CAlert ->
   initialCondition <> StatusBar.CAlert ->
   exists a, In a weatherAlerts /\
     Weather.getAlertSeverity (Weather.wa_event a) (Weather.wa_severity a)
       = Some Weather.LWarning).
Proof.
  intros shown.
  assert (Hshown : shown =
    match Weather.getHighestSeverity weatherAlerts, trafficIncidents with
    | Some Weather.LWarning, _ => StatusBar.CAlert
    | Some _, _ => StatusBar.CAdvisory
    | None, _ :: _ => StatusBar.CAdvisory
    | None, [] => initialCondition
    end).
  { subst shown. unfold StatusBar.effectiveCondition.
    destruct (Weather.getHighestSeverity weatherAlerts) as [[| |]|]; simpl;
      try reflexivity.
    destruct trafficIncidents as [|i l]; [reflexivity|].
    unfold Traffic.getHighestIncidentSeverity.
    destruct (existsb _ (i :: l)); [reflexivity|].
    destruct (existsb _ (i :: l)); reflexivity. }
  split; [exact Hshown|]. split.
  - intros -> Hne. rewrite Hshown. simpl.
    destruct trafficIncidents; [congruence | reflexivity].
  - intros Halert Hinit. rewrite Hshown in Halert.
    destruct (getHighestSeverity_spec weatherAlerts) as [_ Hwit].
    destruct (Weather.getHighestSeverity weatherAlerts) as [[| |]|] eqn:E;
      try discriminate.
    + destruct Hwit as [Hwit|Hwit]; [discriminate | exact Hwit].
    + destruct trafficIncidents; [congruence | discriminate].
Qed.

Lemma X19_effectiveCondition_priority_witness :
  let closure :=
    {| MapState.ti_id := lit "osm-way-4242";
       MapState.ti_type := MapState.TClosure;
       MapState.ti_description := lit "Road closure: gate";
       MapState.ti_lat := 38.12;
       MapState.ti_lng := -92.68;
       MapState.ti_severity := Classifier.SevAlert;
       MapState.ti_timestamp := lit "2024-01-15T10:30:00.000Z";
       MapState.ti_source := Some (lit "OpenStreetMap") |} in
  Traffic.getHighestIncidentSeverity [closure] = Some Classifier.SevAlert /\
  StatusBar.effectiveCondition StatusBar.CAlert [] [closure] = StatusBar.CAdvisory.
Proof.
  intros closure. split; [reflexivity|].
  apply (proj1 (proj2 (X19_effectiveCondition_priority StatusBar.CAlert []
                         [closure]))).
  - reflexivity.
  - discriminate.
Defined.

(** ** Incident markers *)

Section MarkerFacts.

Import Classifier Aggregator MapView.

Lemma filter_and_length {A : Type} (p q : A -> bool) (l : list A) :
  (length (List.filter (fun x => p x && q x) l) <= length (List.filter p l))%nat.
Proof.
  induction l as [|x l IH]; simpl; [lia|].
  destruct (p x), (q x); simpl; lia.
Qed.

Lemma filter_and_all {A : Type} (p q : A -> bool) (l : list A) :
  Forall (fun x => q x = true) l ->
  List.filter (fun x => p x && q x) l = List.filter p l.
Proof.
  induction 1 as [|x l Hx _ IH]; simpl; [reflexivity|].
  rewrite Hx, andb_true_r, IH. reflexivity.
Qed.

Lemma filter_all {A : Type} (q : A -> bool) (l : list A) :
  Forall (fun x => q x = true) l -> List.filter q l = l.
Proof.
  induction 1 as [|x l Hx _ IH]; simpl; [reflexivity|].
  rewrite Hx, IH. reflexivity.
Qed.

Lemma markers_le_count (showTraffic showLocal : bool)
    (trafficIncidents : list MapState.TrafficIncident)
    (localIncidents : list LocalIncident) :
  (incidentMarkers showTraffic showLocal trafficIncidents localIncidents
   <= visibleCount showTraffic showLocal trafficIncidents localIncidents)%nat.
Proof.
  unfold incidentMarkers, visibleCount, trafficLayerLocals, localLayer.
  pose proof (filter_and_length isAccident hasCoordinates localIncidents).
  pose proof (filter_and_length (fun i => negb (isAccident i)) hasCoordinates
                localIncidents).
  pose proof (filter_and_length (fun _ => true) hasCoordinates localIncidents) as H1.
  assert (H2 : (length (List.filter (fun _ : LocalIncident => true) localIncidents)
                <= length localIncidents)%nat) by apply List.filter_length_le.
  destruct showTraffic, showLocal; simpl in *; lia.
Qed.

Lemma markers_eq_count (showTraffic showLocal : bool)
    (trafficIncidents : list MapState.TrafficIncident)
    (localIncidents : list LocalIncident) :
  Forall (fun i => hasCoordinates i = true) localIncidents ->
  incidentMarkers showTraffic showLocal trafficIncidents localIncidents
  = visibleCount showTraffic showLocal trafficIncidents localIncidents.
Proof.
  intros Hall.
  unfold incidentMarkers, visibleCount, trafficLayerLocals, localLayer.
  destruct showTraffic, showLocal; cbv beta iota zeta.
  - rewrite (filter_and_all isAccident hasCoordinates _ Hall).
    rewrite (filter_and_all (fun i => negb (true && isAccident i)) hasCoordinates
               _ Hall).
    cbn [andb length]. lia.
  - rewrite (filter_and_all isAccident hasCoordinates _ Hall). cbn [length]. lia.
  - rewrite (filter_and_all (fun i => negb (false && isAccident i)) hasCoordinates
               _ Hall).
    cbn [andb negb length].
    rewrite (filter_all (fun _ => true) localIncidents);
      [lia | apply List.Forall_forall; reflexivity].
  - reflexivity.
Qed.

End MarkerFacts.

(** X20. The number in the text incidents visible is never below the
    number of incident markers on the map, and equals it when every local
    incident has coordinates, which holds for every list
    [fetchLocalIncidents] returns.  With both filters on, a local incident
    is drawn once: the accidents with the traffic icon, the others with the
    local icon. *)
Theorem X20_visible_count_matches_markers
    (showTrafficIncidents showLocalIncidents : bool)
    (trafficIncidents : list MapState.TrafficIncident)
    (localIncidents : list Aggregator.LocalIncident) :
  (MapView.incidentMarkers showTrafficIncidents showLocalIncidents
     trafficIncidents localIncidents
   <= MapView.visibleCount showTrafficIncidents showLocalIncidents
        trafficIncidents localIncidents)%nat /\
  (Forall (fun i => MapView.hasCoordinates i = true) localIncidents ->
   MapView.incidentMarkers showTrafficIncidents showLocalIncidents
     trafficIncidents localIncidents
   = MapView.visibleCount showTrafficIncidents showLocalIncidents
       trafficIncidents localIncidents) /\
  (forall Date_parse clock lakeExpoResponse cityResponse,
     localIncidents = Aggregator.fetchLocalIncidents Date_parse clock
                        lakeExpoResponse cityResponse ->
     MapView.incidentMarkers showTrafficIncidents showLocalIncidents
       trafficIncidents localIncidents
     = MapView.visibleCount showTrafficIncidents showLocalIncidents
         trafficIncidents localIncidents) /\
  (length (MapView.trafficLayerLocals true localIncidents) +
   length (MapView.localLayer true true localIncidents)
   = length (List.filter MapView.hasCoordinates localIncidents))%nat.
Proof.
  split; [apply markers_le_count|].
  split; [apply markers_eq_count|]. split.
  - intros Date_parse clock le ci ->. apply markers_eq_count.
    apply List.Forall_forall. intros x Hx.
    destruct (fetchLocalIncidents_coordinates Date_parse clock le ci x Hx)
      as [Hla Hlo].
    unfold MapView.hasCoordinates.
    destruct (Aggregator.lat x), (Aggregator.lng x); congruence.
  - unfold MapView.trafficLayerLocals, MapView.localLayer. simpl.
    induction localIncidents as [|x l IH]; simpl; [reflexivity|].
    destruct (MapView.isAccident x), (MapView.hasCoordinates x); simpl; lia.
Qed.


Lemma X20_visible_count_matches_markers_witness :
  let crash :=
    {| Aggregator.art_id := lit "lake-expo-21";
       Aggregator.art_title := lit "Two-car crash on Highway 54";
       Aggregator.art_summary := lit "No injuries reported";
       Aggregator.art_url := lit "https://www.lakeexpo.com/news/21";
       Aggregator.art_publishedAt := lit "2024-01-12T08:00:00.000Z" |} in
  let meeting :=
    {| Aggregator.art_id := lit "lake-expo-22";
       Aggregator.art_title := lit "Chamber sets spring calendar";
       Aggregator.art_summary := lit "Dates announced";
       Aggregator.art_url := lit "https://www.lakeexpo.com/news/22";
       Aggregator.art_publishedAt := lit "2024-01-13T08:00:00.000Z" |} in
  let good :=
    Aggregator.fulfilled
      {| Aggregator.ok := true;
         Aggregator.json := Aggregator.Normal
           {| Aggregator.articles := Some [crash; meeting];
              Aggregator.announcements := None |} |} in
  let clock := fun _ : nat => 1705314600000%Z in
  let localIncidents :=
    Aggregator.fetchLocalIncidents IsoDate.parse clock good Aggregator.rejected in
  MapView.visibleCount true false [] localIncidents = 1%nat /\
  MapView.incidentMarkers true false [] localIncidents = 1%nat /\
  MapView.incidentMarkers false true [] localIncidents = 2%nat.
Proof.
  intros crash meeting good clock localIncidents.
  assert (H1 : MapView.visibleCount true false [] localIncidents = 1%nat)
    by (vm_compute; reflexivity).
  assert (H2 : MapView.visibleCount false true [] localIncidents = 2%nat)
    by (vm_compute; reflexivity).
  split; [exact H1|]. split.
  - rewrite <- H1.
    exact (proj1 (proj2 (proj2 (X20_visible_count_matches_markers true false []
                                  localIncidents)))
             IsoDate.parse clock good Aggregator.rejected eq_refl).
  - rewrite <- H2.
    exact (proj1 (proj2 (proj2 (X20_visible_count_matches_markers false true []
                                  localIncidents)))
             IsoDate.parse clock good Aggregator.rejected eq_refl).
Defined.

(** ** Panels and filters of the map *)

Section PanelFacts.

Import MapState.

Lemma clearSelection_fold_location (due : list (Z * Selection)) :
  forall s,
  selectedLocation s = None \/ (exists u, In (u, SelLocation) due) ->
  selectedLocation (fold_left (fun st tm => clearSelection (snd tm) st) due s)
    = None.
Proof.
  induction due as [|tm due IH]; intros s H; simpl.
  - destruct H as [H|[u []]]. exact H.
  - apply IH. destruct H as [H|[u [Hu|Hu]]].
    + left. destruct tm as [v []]; simpl; auto.
    + left. subst tm. reflexivity.
    + right. exists u. exact Hu.
Qed.

Lemma advanceTo_facts (t : Z) (s : State) :
  isPanelOpen (advanceTo t s) = isPanelOpen s /\
  now (advanceTo t s) = Z.max (now s) t /\
  (forall tm, In tm (timers (advanceTo t s)) <->
              In tm (timers s) /\ (t < fst tm)%Z) /\
  (forall u, In (u, SelLocation) (timers s) -> (u <= t)%Z ->
             selectedLocation (advanceTo t s) = None).
Proof.
  unfold advanceTo. cbn [isPanelOpen now timers selectedLocation].
  split; [apply (clearSelection_fold_flags _ s)|].
  split; [reflexivity|]. split.
  - intros tm. rewrite List.filter_In, negb_true_iff, Z.leb_gt. reflexivity.
  - intros u Hu Hle. apply clearSelection_fold_location. right. exists u.
    apply List.filter_In. split; [exact Hu|]. apply Z.leb_le. exact Hle.
Qed.

Lemma remove_then_add (t : LocationType) (prev : gset LocationType) :
  t ∈ prev -> prev ∖ {[t]} ∪ {[t]} = prev.
Proof.
  intros Hin. apply set_eq. intros x.
  rewrite elem_of_union, elem_of_difference, elem_of_singleton.
  destruct (decide (x = t)) as [->|Hx]; tauto.
Qed.

Lemma add_then_remove (t : LocationType) (prev : gset LocationType) :
  t ∉ prev -> (prev ∪ {[t]}) ∖ {[t]} = prev.
Proof.
  intros Hout. apply set_eq. intros x.
  rewrite elem_of_difference, elem_of_union, elem_of_singleton.
  split; [tauto|]. intros Hx. split; [tauto|]. intros ->. contradiction.
Qed.

Lemma size_add_nonzero (t : LocationType) (prev : gset LocationType) :
  size (prev ∪ {[t]}) <> 0%nat.
Proof.
  intros Hz. apply size_empty_iff in Hz.
  apply (not_elem_of_empty (C:=gset LocationType) t).
  rewrite <- Hz. apply elem_of_union_r, elem_of_singleton. reflexivity.
Qed.

Lemma not_in_removed (t : LocationType) (prev : gset LocationType) :
  t ∉ prev ∖ {[t]}.
Proof.
  rewrite elem_of_difference, elem_of_singleton. tauto.
Qed.

Lemma toggleUpdater_twice (t : LocationType) (prev : gset LocationType) :
  prev <> ∅ -> toggleUpdater t (toggleUpdater t prev) = prev.
Proof.
  intros Hprev.
  assert (Hsize : size prev <> 0%nat).
  { intros H. apply size_empty_iff in H. apply Hprev.
    apply leibniz_equiv. exact H. }
  unfold toggleUpdater at 2.
  destruct (decide (t ∈ prev)) as [Hin|Hout].
  - destruct (decide (size (prev ∖ {[t]}) = 0%nat)) as [Hz|Hnz].
    + unfold toggleUpdater.
      destruct (decide (t ∈ prev)); [|contradiction].
      destruct (decide (size (prev ∖ {[t]}) = 0%nat)); [reflexivity|contradiction].
    + unfold toggleUpdater.
      destruct (decide (t ∈ prev ∖ {[t]})) as [Hbad|_];
        [destruct (not_in_removed t prev Hbad)|].
      rewrite (remove_then_add t prev Hin).
      destruct (decide (size prev = 0%nat)); [contradiction | reflexivity].
  - destruct (decide (size (prev ∪ {[t]}) = 0%nat)) as [Hz|Hnz];
      [destruct (size_add_nonzero t prev Hz)|].
    unfold toggleUpdater.
    destruct (decide (t ∈ prev ∪ {[t]})) as [_|Hbad].
    + rewrite (add_then_remove t prev Hout).
      destruct (decide (size prev = 0%nat)); [contradiction | reflexivity].
    + exfalso. apply Hbad, elem_of_union_r, elem_of_singleton. reflexivity.
Qed.

Lemma toggleUpdater_fixed (t : LocationType) (prev : gset LocationType) :
  prev <> ∅ -> (toggleUpdater t prev = prev <-> prev = {[t]}).
Proof.
  intros Hprev. unfold toggleUpdater. split.
  - destruct (decide (t ∈ prev)) as [Hin|Hout].
    + destruct (decide (size (prev ∖ {[t]}) = 0%nat)) as [Hz|Hnz].
      * intros _. apply size_empty_iff in Hz.
        rewrite <- (remove_then_add t prev Hin).
        apply leibniz_equiv in Hz. rewrite Hz.
        apply leibniz_equiv. apply (left_id ∅ (∪)).
      * intros H. exfalso. apply (not_in_removed t prev). rewrite H. exact Hin.
    + destruct (decide (size (prev ∪ {[t]}) = 0%nat)) as [Hz|Hnz];
        [destruct (size_add_nonzero t prev Hz)|].
      intros H. exfalso. apply Hout. rewrite <- H.
      apply elem_of_union_r, elem_of_singleton. reflexivity.
  - intros ->.
    destruct (decide (t ∈ ({[t]} : gset LocationType))) as [_|Hbad].
    + destruct (decide (size (({[t]} : gset LocationType) ∖ {[t]}) = 0%nat))
        as [_|Hnz]; [reflexivity|].
      exfalso. apply Hnz. apply size_empty_iff. intros x.
      rewrite elem_of_difference, elem_of_singleton, elem_of_empty. tauto.
    + exfalso. apply Hbad, elem_of_singleton. reflexivity.
Qed.

End PanelFacts.

(** X21. The timer of [handleClosePanel] is not cancelled: when the panel
    of a location is closed and a marker is clicked before the 300 ms have
    passed, the callback still runs at 300 ms and clears the new selection,
    so the panel is open with no location selected. *)
Theorem X21_reopened_panel_loses_selection
    (s : MapState.State) (location : MapState.Location) (d1 d2 : Z) :
  (0 <= d1 < MapState.closeDelay)%Z -> (MapState.closeDelay <= d1 + d2)%Z ->
  let clicked :=
    fold_left MapState.step
      [MapState.ClosePanel; MapState.Elapse d1; MapState.MarkerClick location] s in
  let later := MapState.step clicked (MapState.Elapse d2) in
  MapState.isPanelOpen clicked = true /\
  MapState.selectedLocation clicked = Some location /\
  MapState.isPanelOpen later = true /\
  MapState.selectedLocation later = None.
Proof.
  intros Hd1 Hd2 clicked later. unfold MapState.closeDelay in Hd1, Hd2.
  set (s1 := MapState.step s MapState.ClosePanel).
  set (s2 := MapState.step s1 (MapState.Elapse d1)).
  assert (Hclicked : clicked = MapState.handleMarkerClick location s2) by reflexivity.
  assert (Hnow1 : MapState.now s1 = MapState.now s) by reflexivity.
  assert (Htimer1 : In ((MapState.now s + 300)%Z, MapState.SelLocation)
                      (MapState.timers s1)).
  { subst s1. simpl. apply in_or_app. right. left. reflexivity. }
  destruct (advanceTo_facts (MapState.now s1 + Z.max 0 d1)%Z s1)
    as (_ & Hnow2 & Htimers2 & _).
  fold (MapState.step s1 (MapState.Elapse d1)) in Hnow2, Htimers2.
  fold s2 in Hnow2, Htimers2.
  assert (Htimer2 : In ((MapState.now s + 300)%Z, MapState.SelLocation)
                      (MapState.timers s2)).
  { apply Htimers2. split; [exact Htimer1|]. simpl. lia. }
  split; [rewrite Hclicked; reflexivity|].
  split; [rewrite Hclicked; reflexivity|].
  destruct (advanceTo_facts (MapState.now clicked + Z.max 0 d2)%Z clicked)
    as (Hopen & _ & _ & Hclear).
  fold (MapState.step clicked (MapState.Elapse d2)) in Hopen, Hclear.
  fold later in Hopen, Hclear.
  split; [rewrite Hopen, Hclicked; reflexivity|].
  apply (Hclear (MapState.now s + 300)%Z).
  - rewrite Hclicked. exact Htimer2.
  - assert (Hnowc : MapState.now clicked = MapState.now s2)
      by (rewrite Hclicked; reflexivity).
    rewrite Hnowc, Hnow2, Hnow1. lia.
Qed.

Lemma X21_reopened_panel_loses_selection_witness :
  let location :=
    {| MapState.loc_id := lit "7";
       MapState.loc_name := lit "Dog Days";
       MapState.loc_type := MapState.bar;
       MapState.loc_lat := 38.14;
       MapState.loc_lng := -92.66;
       MapState.camEmbedUrl := None;
       MapState.isOpen := Some true |} in
  let s :=
    MapState.run
      [MapState.MarkerClick location; MapState.ClosePanel; MapState.Elapse 100;
       MapState.MarkerClick location; MapState.Elapse 200] in
  MapState.isPanelOpen s = true /\ MapState.selectedLocation s = None.
Proof.
  intros location s.
  destruct (X21_reopened_panel_loses_selection
              (MapState.step MapState.initial (MapState.MarkerClick location))
              location 100 200) as (_ & _ & Hopen & Hsel).
  - unfold MapState.closeDelay. lia.
  - unfold MapState.closeDelay. lia.
  - split; [exact Hopen | exact Hsel].
Defined.

(** X22. In every state the component can reach, toggling the same type
    filter twice gives back the set of active types, and one toggle leaves
    the set as it is exactly when the type is the only active one. *)
Theorem X22_toggle_twice_restores (s : MapState.State) (t : MapState.LocationType) :
  MapState.reachable s ->
  MapState.activeTypes
    (MapState.toggleTypeFilter t (MapState.toggleTypeFilter t s))
    = MapState.activeTypes s /\
  (MapState.activeTypes (MapState.toggleTypeFilter t s) = MapState.activeTypes s
   <-> MapState.activeTypes s = {[t]}).
Proof.
  intros Hs. apply reachable_activeTypes_nonempty in Hs.
  split.
  - apply (toggleUpdater_twice t _ Hs).
  - apply (toggleUpdater_fixed t _ Hs).
Qed.

Lemma X22_toggle_twice_restores_witness :
  let s := MapState.run [MapState.ToggleType MapState.bar] in
  MapState.activeTypes
    (MapState.toggleTypeFilter MapState.marina
       (MapState.toggleTypeFilter MapState.marina s))
  = MapState.activeTypes s.
Proof.
  intros s.
  exact (proj1 (X22_toggle_twice_restores s MapState.marina
                  (reachable_run [MapState.ToggleType MapState.bar]))).
Defined.


(** ** The news routes *)

Section RouteFacts.

Import Sanitize Aggregator NewsRoutes.

Lemma trim_head (c : N) (s : list N) :
  isWhiteSpace c = false -> exists r, trim (c :: s) = c :: r.
Proof.
  intros Hc. unfold trim, trimEnd. cbn [trimStart]. rewrite Hc.
  change (rev (c :: s)) with (rev s ++ [c]).
  rewrite (trimStart_snoc _ _ Hc), List.rev_app_distr. simpl.
  eexists. reflexivity.
Qed.

Lemma sanitizeUrl_absolute (u : list N) :
  startsWith u (lit "http") = true -> storedUrl (sanitizeUrl u).
Proof.
  intros H. apply startsWith_inv in H as [r ->].
  rewrite sanitizeUrl_allow_list.
  change (lit "http" ++ r) with (104 :: lit "ttp" ++ r).
  destruct (trim_head 104 (lit "ttp" ++ r) eq_refl) as [r' E]. rewrite E.
  destruct (matchesAllowedPrefix (104 :: r')) eqn:Hm; [|left; reflexivity].
  right. unfold matchesAllowedPrefix in Hm.
  apply orb_true_iff in Hm as [Hm|Hm]; [|discriminate].
  apply orb_true_iff in Hm. exact Hm.
Qed.

Section Loops.

Context (base idPrefix : list N) (limit : nat)
        (isoNow : nat -> list N) (dateNow : nat -> Z).

Hypothesis base_http : startsWith base (lit "http") = true.

Lemma absoluteUrl_http (href : list N) :
  startsWith (absoluteUrl base href) (lit "http") = true.
Proof.
  unfold absoluteUrl. destruct (startsWith href (lit "http")) eqn:E; [exact E|].
  destruct (startsWith_inv _ _ base_http) as [r ->].
  rewrite <- List.app_assoc. apply startsWith_app.
Qed.

Lemma accepted_title (seenUrls : gset (list N)) (url raw : list N) :
  accepts seenUrls url (trim raw) = true ->
  (url ∉ seenUrls) /\
  (10 < length (sanitizeText (trim raw)))%nat /\
  Forall SanitizeSpec.noMarkup (sanitizeText (trim raw)).
Proof.
  unfold accepts. intros H.
  apply andb_true_iff in H as [H Hlen]. apply andb_true_iff in H as [Hne Hseen].
  apply Nat.ltb_lt in Hlen. apply negb_true_iff, bool_decide_eq_false in Hseen.
  split; [exact Hseen|]. split; [|apply sanitizeText_noMarkup].
  destruct (trim raw) as [|c t] eqn:E; [discriminate|].
  unfold sanitizeText. rewrite <- E, trim_idem.
  pose proof (proj1 (escapeHtml_length (trim raw))). rewrite E in *. lia.
Qed.

Lemma titleItem_stored (i : nat) (m : TitleMatch) (seenUrls : gset (list N)) :
  accepts seenUrls (absoluteUrl base (tm_href m)) (trim (tm_text m)) = true ->
  storedItem (titleItem idPrefix isoNow dateNow i m
                (absoluteUrl base (tm_href m)) (trim (tm_text m))).
Proof.
  intros H. apply accepted_title in H as (_ & Hlen & Hclean).
  unfold storedItem, titleItem. cbn [art_url art_title art_summary].
  split; [apply sanitizeUrl_absolute, absoluteUrl_http|].
  split; [exact Hlen|]. split; [exact Hclean|].
  unfold truncateText.
  set (summary := match tm_summary m with
                  | Some text => replaceAll whitespaceMatcher 0 (trim text)
                  | None => trim (tm_text m)
                  end).
  pose proof (sanitizeText_noMarkup summary) as Hs.
  destruct (sanitizeText summary) as [|c t]; [constructor|].
  destruct (Z.of_nat (length (c :: t)) <=? 200)%Z; [exact Hs|].
  apply Forall_app. split.
  - unfold substring0. apply firstn_Forall. exact Hs.
  - repeat constructor; discriminate.
Qed.

Lemma linkItem_stored (toUrl : list N -> list N) (i : nat) (m : LinkMatch)
    (seenUrls : gset (list N)) :
  startsWith (toUrl (lm_href m)) (lit "http") = true ->
  accepts seenUrls (toUrl (lm_href m)) (trim (lm_text m)) = true ->
  storedItem (linkItem idPrefix isoNow dateNow i
                (toUrl (lm_href m)) (trim (lm_text m))).
Proof.
  intros Hurl H. apply accepted_title in H as (_ & Hlen & Hclean).
  unfold storedItem, linkItem. cbn [art_url art_title art_summary].
  split; [apply sanitizeUrl_absolute, Hurl|].
  split; [exact Hlen|]. split; exact Hclean.
Qed.

Lemma titleLoop_spec (matches : list TitleMatch) :
  forall i seenUrls items,
  let result := snd (titleLoop base idPrefix limit isoNow dateNow i matches
                       seenUrls items) in
  (Forall storedItem items -> Forall storedItem result) /\
  (length result <= Nat.max (length items) limit)%nat /\
  items `prefix_of` result.
Proof.
  induction matches as [|m rest IH]; intros i seenUrls items; simpl.
  - split; [auto|]. split; [lia | reflexivity].
  - destruct (Nat.ltb_spec (length items) limit) as [Hlt|Hge]; simpl.
    + destruct (accepts seenUrls _ _) eqn:Hacc.
      * destruct (IH (S i) ({[absoluteUrl base (tm_href m)]} ∪ seenUrls)
                    (items ++ [titleItem idPrefix isoNow dateNow i m
                                 (absoluteUrl base (tm_href m))
                                 (trim (tm_text m))]))
          as (H1 & H2 & H3).
        split; [|split].
        -- intros Hitems. apply H1. apply Forall_app. split; [exact Hitems|].
           constructor; [|constructor].
           apply (titleItem_stored i m seenUrls Hacc).
        -- rewrite List.length_app in H2. simpl in H2. lia.
        -- etransitivity; [|exact H3]. apply prefix_app_r. reflexivity.
      * apply IH.
    + split; [auto|]. split; [lia | reflexivity].
Qed.

Lemma linkLoop_spec (toUrl : list N -> list N) (matches : list LinkMatch) :
  (forall href, startsWith (toUrl href) (lit "http") = true) ->
  forall i seenUrls items,
  let result := snd (linkLoop idPrefix limit isoNow dateNow toUrl i matches
                       seenUrls items) in
  (Forall storedItem items -> Forall storedItem result) /\
  (length result <= Nat.max (length items) limit)%nat /\
  items `prefix_of` result.
Proof.
  intros Hurl.
  induction matches as [|m rest IH]; intros i seenUrls items; simpl.
  - split; [auto|]. split; [lia | reflexivity].
  - destruct (Nat.ltb_spec (length items) limit) as [Hlt|Hge]; simpl.
    + destruct (accepts seenUrls _ _) eqn:Hacc.
      * destruct (IH (S i) ({[toUrl (lm_href m)]} ∪ seenUrls)
                    (items ++ [linkItem idPrefix isoNow dateNow i
                                 (toUrl (lm_href m)) (trim (lm_text m))]))
          as (H1 & H2 & H3).
        split; [|split].
        -- intros Hitems. apply H1. apply Forall_app. split; [exact Hitems|].
           constructor; [|constructor].
           apply (linkItem_stored toUrl i m seenUrls (Hurl _) Hacc).
        -- rewrite List.length_app in H2. simpl in H2. lia.
        -- etransitivity; [|exact H3]. apply prefix_app_r. reflexivity.
      * apply IH.
    + split; [auto|]. split; [lia | reflexivity].
Qed.

End Loops.

Section LakeExpoFacts.

Context (Date_parse : list N -> option Z)
        (isoNow : nat -> list N) (dateNow : nat -> Z).

Lemma parseArticles_spec (i : nat) (page : Page) :
  Forall storedItem (parseArticles isoNow dateNow i page) /\
  (length (parseArticles isoNow dateNow i page) <= 50)%nat.
Proof.
  unfold parseArticles.
  pose proof (titleLoop_spec lakeExpo (lit "lakeexpo-") 50 isoNow dateNow
                eq_refl (titleMatches page) i ∅ []) as (H1 & H2 & _).
  destruct (titleLoop _ _ _ _ _ _ _ _ _) as [seenUrls articles].
  cbn [snd] in H1, H2. specialize (H1 (List.Forall_nil _)). simpl in H2.
  destruct (Nat.ltb (length articles) 5); [|split; [exact H1 | lia]].
  pose proof (linkLoop_spec (lit "lakeexpo-") 50 isoNow dateNow
                (fun href => lakeExpo ++ href) (linkMatches page)
                (fun href => startsWith_app (lit "http")
                               (lit "s://www.lakeexpo.com" ++ href))
                (i + length (titleMatches page)) seenUrls articles)
    as (H3 & H4 & _).
  split; [exact (H3 H1) | lia].
Qed.

Lemma addUnseen_merged (state : gset (list N) * list Article) (article : Article) :
  merged state -> merged (addUnseen state article).
Proof.
  destruct state as [seenUrls articles]. intros [Hnd Hseen]. unfold addUnseen.
  case_bool_decide as Hin; [split; assumption|].
  split; cbn [fst snd] in *.
  - rewrite List.map_app. simpl. apply NoDup_app. split; [exact Hnd|].
    split; [|apply NoDup_singleton].
    intros u Hu Hu'. apply list_elem_of_singleton in Hu'. subst u.
    apply list_elem_of_In, List.in_map_iff in Hu as (a & Ha & Hain).
    apply Hin. rewrite <- Ha. apply Hseen, Hain.
  - intros a Ha. apply List.in_app_iff in Ha as [Ha|[<-|[]]].
    + apply elem_of_union_r, Hseen, Ha.
    + apply elem_of_union_l, elem_of_singleton. reflexivity.
Qed.

Lemma addUnseen_fold (articles : list Article) :
  forall state P,
  merged state -> Forall P (snd state) -> Forall P articles ->
  merged (fold_left addUnseen articles state) /\
  Forall P (snd (fold_left addUnseen articles state)).
Proof.
  induction articles as [|a articles IH]; intros state P Hm Hs Ha; simpl;
    [split; assumption|].
  inversion Ha as [|? ? Hpa Hrest]; subst.
  apply IH; [apply addUnseen_merged, Hm| |exact Hrest].
  destruct state as [seenUrls kept]. unfold addUnseen.
  case_bool_decide; [exact Hs|]. cbn [snd] in *.
  apply Forall_app. split; [exact Hs|]. constructor; [exact Hpa | constructor].
Qed.

Lemma addSection_spec (i : nat) (response : SettledPage)
    (state state' : gset (list N) * list Article) :
  addSection isoNow dateNow i response state = Normal state' ->
  merged state -> Forall storedItem (snd state) ->
  merged state' /\ Forall storedItem (snd state').
Proof.
  unfold addSection. intros H Hm Hs.
  destruct response as [value|]; [|injection H as <-; auto].
  destruct (pr_ok value); [|injection H as <-; auto].
  destruct (pr_text value) as [page|]; [|discriminate].
  simpl in H. injection H as <-.
  apply addUnseen_fold; [exact Hm | exact Hs |].
  apply parseArticles_spec.
Qed.

End LakeExpoFacts.

End RouteFacts.

Lemma firstn_In_inv {A} (n : nat) (l : list A) (x : A) :
  In x (firstn n l) -> In x l.
Proof.
  revert n. induction l as [|y l IH]; intros [|n]; simpl; try tauto.
  intros [H|H]; [left; exact H | right; exact (IH n H)].
Qed.

Lemma NoDup_firstn {A} (n : nat) (l : list A) : NoDup l -> NoDup (firstn n l).
Proof.
  revert n. induction l as [|x l IH]; intros [|n] H; simpl;
    try apply NoDup_nil_2.
  apply NoDup_cons in H as [Hx Hl].
  apply NoDup_cons. split; [|apply IH, Hl].
  intros Hin. apply Hx. apply list_elem_of_In. apply list_elem_of_In in Hin.
  exact (firstn_In_inv n l x Hin).
Qed.


Lemma lakeExpoNews_spec (Date_parse : list N -> option Z)
    (isoNow : nat -> list N) (dateNow : nat -> Z) (i : nat)
    (crimeResponse communityResponse : NewsRoutes.SettledPage) :
  let result :=
    NewsRoutes.lakeExpoNews Date_parse isoNow dateNow i
      crimeResponse communityResponse in
  Forall NewsRoutes.storedItem result /\
  (length result <= 50)%nat /\
  NoDup (List.map Aggregator.art_url result).
Proof.
  intros result. subst result.
  unfold NewsRoutes.lakeExpoNews, NewsRoutes.lakeExpoNews_body.
  destruct (NewsRoutes.addSection isoNow dateNow 0 crimeResponse (∅, []))
    as [state1|] eqn:E1; simpl;
    [|split; [constructor | split; [simpl; lia | apply NoDup_nil_2]]].
  destruct (addSection_spec isoNow dateNow 0 crimeResponse (∅, []) state1 E1)
    as [Hm1 Hs1].
  { split; [apply NoDup_nil_2 | intros a []]. }
  { constructor. }
  destruct (NewsRoutes.addSection isoNow dateNow i communityResponse state1)
    as [state2|] eqn:E2; simpl;
    [|split; [constructor | split; [simpl; lia | apply NoDup_nil_2]]].
  destruct (addSection_spec isoNow dateNow i communityResponse state1 state2 E2
              Hm1 Hs1) as [[Hnd _] Hs2].
  pose proof (sortWith_Permutation (NewsRoutes.compareArticles Date_parse)
                (snd state2)) as Hperm.
  split; [|split].
  - apply firstn_Forall.
    apply List.Forall_forall. intros a Ha.
    rewrite List.Forall_forall in Hs2. apply Hs2.
    apply (Permutation_in _ (Permutation_sym Hperm) Ha).
  - apply List.firstn_le_length.
  - rewrite <- List.firstn_map. apply NoDup_firstn.
    rewrite <- (Permutation_map Aggregator.art_url Hperm). exact Hnd.
Qed.

(** X23. Every item the two news routes answer with has been sanitised:
    its address is the placeholder # or starts with http:// or https://,
    its title is longer than ten code units, and neither the title nor the
    summary holds an angle bracket or a quote.  The city route answers with
    at most 30 items. *)
Theorem X23_route_items_are_sanitised
    (Date_parse : list N -> option Z)
    (isoNow : nat -> list N) (dateNow : nat -> Z) (i : nat)
    (crimeResponse communityResponse : NewsRoutes.SettledPage)
    (cityResponse : option (NewsRoutes.PageResponse NewsRoutes.CityPage)) :
  Forall NewsRoutes.storedItem
    (NewsRoutes.lakeExpoNews Date_parse isoNow dateNow i
       crimeResponse communityResponse) /\
  Forall NewsRoutes.storedItem
    (NewsRoutes.cityAnnouncements isoNow dateNow cityResponse) /\
  (length (NewsRoutes.cityAnnouncements isoNow dateNow cityResponse) <= 30)%nat.
Proof.
  split; [apply lakeExpoNews_spec|].
  unfold NewsRoutes.cityAnnouncements.
  destruct cityResponse as [response|]; [|split; [constructor | simpl; lia]].
  destruct (NewsRoutes.pr_ok response); simpl;
    [|split; [constructor | simpl; lia]].
  destruct (NewsRoutes.pr_text response) as [page|];
    [|split; [constructor | simpl; lia]].
  pose proof (titleLoop_spec NewsRoutes.city (lit "city-") 30 isoNow dateNow
                eq_refl (NewsRoutes.headings page) 0 ∅ []) as (H1 & H2 & _).
  destruct (NewsRoutes.titleLoop _ _ _ _ _ _ _ _ _) as [seenUrls announcements].
  cbn [snd] in H1, H2. specialize (H1 (List.Forall_nil _)). simpl in H2.
  destruct announcements as [|a announcements]; [|split; [exact H1 | lia]].
  destruct (NewsRoutes.newsSection page) as [links|];
    [|split; [constructor | simpl; lia]].
  pose proof (linkLoop_spec (lit "city-") 30 isoNow dateNow
                (NewsRoutes.absoluteUrl NewsRoutes.city) links
                (absoluteUrl_http NewsRoutes.city eq_refl)
                (length (NewsRoutes.headings page)) seenUrls [])
    as (H3 & H4 & _).
  split; [exact (H3 H1) | simpl in H4; lia].
Qed.

(** X24. The route of Lake Expo answers with at most 50 articles, no two
    of them with the same address.  When the body of one page cannot be
    read although its response is [ok], the answer has no article at all,
    whatever the other page holds. *)
Theorem X24_lakeExpoNews_merge
    (Date_parse : list N -> option Z)
    (isoNow : nat -> list N) (dateNow : nat -> Z) (i : nat)
    (crimeResponse communityResponse : NewsRoutes.SettledPage) :
  let news := NewsRoutes.lakeExpoNews Date_parse isoNow dateNow i in
  (length (news crimeResponse communityResponse) <= 50)%nat /\
  NoDup (List.map Aggregator.art_url (news crimeResponse communityResponse)) /\
  (forall value,
     NewsRoutes.pr_ok value = true ->
     NewsRoutes.pr_text value = Aggregator.Throw ->
     news (NewsRoutes.fulfilledPage value) communityResponse = [] /\
     news crimeResponse (NewsRoutes.fulfilledPage value) = []).
Proof.
  intros news. subst news.
  split; [apply lakeExpoNews_spec|]. split; [apply lakeExpoNews_spec|].
  intros value Hok Hthrow.
  unfold NewsRoutes.lakeExpoNews, NewsRoutes.lakeExpoNews_body. split.
  - unfold NewsRoutes.addSection at 1. rewrite Hok, Hthrow. reflexivity.
  - destruct (NewsRoutes.addSection isoNow dateNow 0 crimeResponse (∅, []))
      as [state|]; simpl; [|reflexivity].
    unfold NewsRoutes.addSection. rewrite Hok, Hthrow. reflexivity.
Qed.

Lemma X24_lakeExpoNews_merge_witness :
  let heading href :=
    {| NewsRoutes.tm_href := lit href;
       NewsRoutes.tm_text := lit "  Deputies investigate <b>dock</b> theft ";
       NewsRoutes.tm_summary := None;
       NewsRoutes.tm_date := Some (lit "2024-01-12") |} in
  let page hrefs :=
    NewsRoutes.fulfilledPage
      {| NewsRoutes.pr_ok := true;
         NewsRoutes.pr_text :=
           Aggregator.Normal
             {| NewsRoutes.titleMatches := List.map heading hrefs;
                NewsRoutes.linkMatches := [] |} |} in
  let unreadable :=
    {| NewsRoutes.pr_ok := true; NewsRoutes.pr_text := Aggregator.Throw |} in
  let news :=
    NewsRoutes.lakeExpoNews IsoDate.parse
      (fun _ => lit "2024-01-15T10:30:00.000Z") (fun _ => 1705314600000%Z) 2 in
  List.map Aggregator.art_url
    (news (page ["/news/crime/a"; "http-b"]%string)
          (page ["/news/crime/a"; "http-c"]%string))
    = [lit "https://www.lakeexpo.com/news/crime/a"; lit "#"] /\
  news (page ["/news/crime/a"]%string) (NewsRoutes.fulfilledPage unreadable) = [].
Proof.
  intros heading page unreadable news.
  split; [vm_compute; reflexivity|].
  exact (proj2 (proj2 (proj2
           (X24_lakeExpoNews_merge IsoDate.parse
              (fun _ => lit "2024-01-15T10:30:00.000Z")
              (fun _ => 1705314600000%Z) 2
              (page ["/news/crime/a"]%string) NewsRoutes.rejectedPage))
           unreadable eq_refl eq_refl)).
Defined.


(** ** Time labels and the incident list *)

Section ViewFacts.

Import Aggregator.

Context (Date_parse : list N -> option Z).

Lemma sortWith_sorted_id (l : list LocalIncident) :
  StronglySorted (newerOrEqual Date_parse) l ->
  sortWith (compareIncidents Date_parse) l = l.
Proof.
  induction 1 as [|x l Hl IH Hx]; [reflexivity|].
  simpl. rewrite IH. destruct l as [|y l]; [reflexivity|].
  inversion Hx as [|? ? (ta & tb & Ha & Hb & Hle) _]; subst.
  simpl. unfold compareIncidents. rewrite Ha, Hb. simpl.
  assert (E : (tb - ta <=? 0)%Z = true) by (apply Z.leb_le; lia).
  rewrite E. reflexivity.
Qed.

End ViewFacts.

(** X25. The three time labels of the interface agree with each other for
    a date between one minute and one day old, for a date three days old or
    more, and for a string that is not a date.  Under one minute the banner
    of the top story writes the number of minutes, zero or negative, where
    the two others write Just now. *)
Theorem X25_time_labels_agree (Date_parse : list N -> option Z) (now : Z)
    (toLocaleDateString : option Z -> list N) (timestamp : list N) :
  let since := LocalIntel.formatTimeSince Date_parse now toLocaleDateString timestamp in
  let banner := Views.bannerTimestamp Date_parse now toLocaleDateString timestamp in
  let panel := Views.panelTimestamp Date_parse now toLocaleDateString timestamp in
  (Date_parse timestamp = None ->
     banner = toLocaleDateString None /\ panel = toLocaleDateString None /\
     since = toLocaleDateString None) /\
  (forall t, Date_parse timestamp = Some t ->
     ((60000 <= now - t < 86400000)%Z \/ (259200000 <= now - t)%Z ->
        banner = since /\ panel = since) /\
     ((86400000 <= now - t < 259200000)%Z ->
        banner = toLocaleDateString (Some t) /\
        panel = toLocaleDateString (Some t)) /\
     ((now - t < 60000)%Z ->
        panel = lit "Just now" /\ since = lit "Just now" /\
        banner = LocalIntel.numberToString (Some ((now - t) / 60000)%Z)
                   ++ lit " min ago" /\
        ((now - t) / 60000 <= 0)%Z)).
Proof.
  intros since banner panel. subst since banner panel.
  unfold LocalIntel.formatTimeSince, Views.bannerTimestamp, Views.panelTimestamp.
  split.
  - intros ->. simpl. auto.
  - intros t ->. simpl option_map. unfold LocalIntel.floorDiv. simpl option_map.
    set (d := (now - t)%Z).
    rewrite floor_minutes_hours_days, floor_minutes_hours.
    unfold LocalIntel.num_lt, LocalIntel.num_not_one.
    rewrite !div_lt_iff by lia.
    change (1 * 60000)%Z with 60000%Z. change (60 * 60000)%Z with 3600000%Z.
    change (24 * 3600000)%Z with 86400000%Z. change (3 * 86400000)%Z with 259200000%Z.
    split; [|split].
    + intros H.
      assert (E1 : (d <? 60000)%Z = false) by (apply Z.ltb_ge; lia).
      rewrite E1.
      destruct (d <? 3600000)%Z eqn:E2; [split; reflexivity|].
      destruct (d <? 86400000)%Z eqn:E3; [split; reflexivity|].
      apply Z.ltb_ge in E3.
      assert (E4 : (d <? 259200000)%Z = false) by (apply Z.ltb_ge; lia).
      rewrite E4. split; reflexivity.
    + intros [H1 H2].
      assert (E1 : (d <? 60000)%Z = false) by (apply Z.ltb_ge; lia).
      assert (E2 : (d <? 3600000)%Z = false) by (apply Z.ltb_ge; lia).
      assert (E3 : (d <? 86400000)%Z = false) by (apply Z.ltb_ge; lia).
      rewrite E1, E2, E3. split; reflexivity.
    + intros H.
      assert (E1 : (d <? 60000)%Z = true) by (apply Z.ltb_lt; lia).
      assert (E2 : (d <? 3600000)%Z = true) by (apply Z.ltb_lt; lia).
      rewrite E1, E2. repeat split.
      pose proof (Z.div_mod d 60000 ltac:(lia)).
      pose proof (Z.mod_pos_bound d 60000 ltac:(lia)). lia.
Qed.

Lemma X25_time_labels_agree_witness :
  let locale := fun _ : option Z => lit "1/15/2024" in
  let timestamp := lit "2024-01-15T10:29:30.000Z" in
  Views.panelTimestamp IsoDate.parse 1705314600000 locale timestamp
    = lit "Just now" /\
  LocalIntel.formatTimeSince IsoDate.parse 1705314600000 locale timestamp
    = lit "Just now" /\
  Views.bannerTimestamp IsoDate.parse 1705314600000 locale timestamp
    = lit "0 min ago".
Proof.
  intros locale timestamp.
  assert (Hd : IsoDate.parse timestamp = Some 1705314570000%Z)
    by (vm_compute; reflexivity).
  destruct (proj2 (proj2 (proj2 (X25_time_labels_agree IsoDate.parse 1705314600000
                                   locale timestamp) 1705314570000%Z Hd)))
    as (H1 & H2 & H3 & _); [lia|].
  split; [exact H1|]. split; [exact H2|].
  rewrite H3. vm_compute. reflexivity.
Defined.

(** X26. The incident list sorts the local incidents again with the
    comparator [fetchLocalIncidents] sorted them with: for every list that
    function returns the second sort changes nothing, so the list shows the
    incidents in the order they were fetched in. *)
Theorem X26_list_view_keeps_fetched_order
    (Date_parse : list N -> option Z) (clock : nat -> Z)
    (lakeExpoResponse cityResponse : Aggregator.Settled) :
  let localIncidents :=
    Aggregator.fetchLocalIncidents Date_parse clock lakeExpoResponse cityResponse in
  Views.sortedIncidents Date_parse localIncidents = localIncidents.
Proof.
  intros localIncidents. unfold Views.sortedIncidents.
  apply sortWith_sorted_id. apply fetchLocalIncidents_sorted.
Qed.


(** ** Embed addresses *)

Section EmbedFacts.

Import Sanitize Aggregator Embed.

Lemma startsWith_Forall (P : N -> Prop) (s p : list N) :
  startsWith s p = true -> Forall P s -> Forall P p.
Proof.
  intros H Hs. apply startsWith_inv in H as [r ->].
  apply Forall_app in Hs. apply Hs.
Qed.

Lemma startsWith_word (s p : list N) :
  wordChars s -> ~ wordChars p -> startsWith s p = false.
Proof.
  intros Hs Hp. destruct (startsWith s p) eqn:E; [|reflexivity].
  exfalso. apply Hp. exact (startsWith_Forall _ s p E Hs).
Qed.

Lemma includes_word (s p : list N) :
  wordChars s -> ~ wordChars p -> includes s p = false.
Proof.
  intros Hs Hp. induction Hs as [|c s Hc Hs IH]; simpl.
  - rewrite (startsWith_word [] p); [reflexivity | constructor | exact Hp].
  - rewrite (startsWith_word (c :: s) p); [exact IH | constructor; assumption | exact Hp].
Qed.

Lemma includes_cons_false (c : N) (s p : list N) :
  startsWith (c :: s) p = false -> includes (c :: s) p = includes s p.
Proof. intros H. simpl includes. rewrite H. reflexivity. Qed.

Lemma search_cons_none {X} (m : list N -> option X) (c : N) (s : list N) :
  m (c :: s) = None -> search m (c :: s) = search m s.
Proof. intros H. simpl. rewrite H. reflexivity. Qed.

Lemma search_none {X} (m : list N -> option X) (s : list N) :
  (forall t, wordChars t -> m t = None) -> wordChars s -> search m s = None.
Proof.
  intros Hm Hs. induction Hs as [|c s Hc Hs IH]; simpl.
  - rewrite (Hm [] (List.Forall_nil _)). reflexivity.
  - rewrite (Hm (c :: s) (List.Forall_cons _ c s Hc Hs)). exact IH.
Qed.

Lemma takeWhile_all (p : N -> bool) (s : list N) :
  Forall (fun c => p c = true) s -> takeWhile p s = s.
Proof.
  induction 1 as [|c s Hc _ IH]; simpl; [reflexivity|].
  rewrite Hc, IH. reflexivity.
Qed.

Lemma dotted_not_word (p : list N) : In 46 p -> ~ wordChars p.
Proof.
  intros Hin Hp. unfold wordChars in Hp. rewrite List.Forall_forall in Hp.
  specialize (Hp 46 Hin). discriminate.
Qed.

Lemma slashed_not_word (p : list N) : In 47 p -> ~ wordChars p.
Proof.
  intros Hin Hp. unfold wordChars in Hp. rewrite List.Forall_forall in Hp.
  specialize (Hp 47 Hin). discriminate.
Qed.

Lemma videoAt_word (t : list N) : wordChars t -> videoAt t = None.
Proof.
  intros Ht. unfold videoAt.
  rewrite (startsWith_word t (lit "twitch.tv/videos/") Ht); [reflexivity|].
  apply dotted_not_word. vm_compute. tauto.
Qed.

Lemma clipAt_word (t : list N) : wordChars t -> clipAt t = None.
Proof.
  intros Ht. unfold clipAt.
  rewrite (startsWith_word t (lit "clips.twitch.tv/") Ht)
    by (apply dotted_not_word; vm_compute; tauto).
  rewrite (startsWith_word t (lit "twitch.tv/") Ht)
    by (apply dotted_not_word; vm_compute; tauto).
  reflexivity.
Qed.

Lemma word_not_slash (s : list N) :
  wordChars s -> Forall (fun c => negb (c =? 47) = true) s.
Proof.
  apply List.Forall_impl. intros c Hc.
  destruct (N.eqb_spec c 47) as [->|]; [discriminate | reflexivity].
Qed.

Lemma digits_word (s : list N) :
  Forall (fun c => isDigit c = true) s -> wordChars s.
Proof.
  apply List.Forall_impl. intros c Hc. unfold isWordChar. rewrite Hc.
  rewrite orb_true_r. reflexivity.
Qed.

Lemma search_here {X} (m : list N -> option X) (s : list N) (x : X) :
  m s = Some x -> search m s = Some x.
Proof. intros H. destruct s; simpl; rewrite H; reflexivity. Qed.

Lemma videoAt_channel (t name : list N) :
  t = lit "twitch.tv/" ++ name -> wordChars name -> videoAt t = None.
Proof.
  intros -> Hname. unfold videoAt.
  change (startsWith (lit "twitch.tv/" ++ name) (lit "twitch.tv/videos/"))
    with (startsWith name (lit "videos/")).
  rewrite (startsWith_word name (lit "videos/") Hname); [reflexivity|].
  apply slashed_not_word. vm_compute. tauto.
Qed.

Lemma clipAt_channel (t name : list N) :
  t = lit "twitch.tv/" ++ name -> wordChars name -> clipAt t = None.
Proof.
  intros -> Hname. unfold clipAt.
  change (startsWith (lit "twitch.tv/" ++ name) (lit "clips.twitch.tv/")) with false.
  rewrite startsWith_app. cbv iota.
  change (skipn 10 (lit "twitch.tv/" ++ name)) with name.
  cbv zeta. rewrite (takeWhile_all _ name (word_not_slash name Hname)).
  destruct name as [|c name]; [reflexivity|].
  rewrite List.skipn_all. reflexivity.
Qed.

Lemma channelAt_channel (t name : list N) :
  t = lit "twitch.tv/" ++ name -> wordChars name -> name <> [] ->
  channelAt t = Some name.
Proof.
  intros -> Hname Hne. unfold channelAt.
  rewrite startsWith_app. cbv iota.
  change (skipn 10 (lit "twitch.tv/" ++ name)) with name.
  cbv zeta. rewrite (takeWhile_all _ name Hname).
  destruct name as [|c name]; [congruence|].
  rewrite List.skipn_all. reflexivity.
Qed.

Lemma videoAt_video (t digits : list N) :
  t = lit "twitch.tv/videos/" ++ digits ->
  Forall (fun c => isDigit c = true) digits -> digits <> [] ->
  videoAt t = Some digits.
Proof.
  intros -> Hd Hne. unfold videoAt.
  rewrite startsWith_app.
  change (skipn 17 (lit "twitch.tv/videos/" ++ digits)) with digits.
  unfold run1. rewrite (takeWhile_all _ digits Hd).
  destruct digits; [congruence | reflexivity].
Qed.

Lemma includes_part (s pre k post : list N) :
  includes s k = false -> includes s (pre ++ k ++ post) = false.
Proof.
  intros H. destruct (includes s (pre ++ k ++ post)) eqn:E; [|reflexivity].
  apply includes_inv in E as (a & b & ->).
  rewrite <- H. symmetry.
  replace (a ++ (pre ++ k ++ post) ++ b) with ((a ++ pre) ++ k ++ (post ++ b))
    by (rewrite <- !List.app_assoc; reflexivity).
  apply includes_app.
Qed.

End EmbedFacts.

(** X27. [processEmbedUrl] returns an address without twitch.tv as it is.
    The address of a channel, https://www.twitch.tv/ and a name of letters,
    digits and underscores other than videos and clip, becomes the player
    address of that channel, and the address of a video, with its number,
    the player address of that video, each with the parent host and muted
    set to false. *)
Theorem X27_processEmbedUrl_twitch (parent : list N)
    (withParams : list N -> bool -> Aggregator.completion (list N)) :
  let embed := Embed.processEmbedUrl parent withParams in
  let tail := lit "&parent=" ++ parent ++ lit "&muted=false" in
  (forall url, includes url (lit "twitch.tv") = false -> embed url = url) /\
  (forall name,
     name <> [] -> Embed.wordChars name ->
     name <> lit "videos" -> name <> lit "clip" ->
     embed (lit "https://www.twitch.tv/" ++ name)
       = lit "https://player.twitch.tv/?channel=" ++ name ++ tail) /\
  (forall digits,
     digits <> [] -> Forall (fun c => Sanitize.isDigit c = true) digits ->
     embed (lit "https://www.twitch.tv/videos/" ++ digits)
       = lit "https://player.twitch.tv/?video=" ++ digits ++ tail).
Proof.
  intros embed tail. subst embed tail. split; [|split].
  - intros url H. unfold Embed.processEmbedUrl.
    destruct url as [|c url]; [reflexivity|].
    rewrite H.
    rewrite (includes_part (c :: url) (lit "player.") (lit "twitch.tv") [] H
             : includes (c :: url) (lit "player.twitch.tv") = false).
    rewrite (includes_part (c :: url) (lit "clips.") (lit "twitch.tv") [] H
             : includes (c :: url) (lit "clips.twitch.tv") = false).
    reflexivity.
  - intros name Hne Hname Hv Hc.
    assert (Hdot : forall p, In 46 p -> includes name p = false)
      by (intros p Hp; apply includes_word; [exact Hname | apply dotted_not_word, Hp]).
    assert (E1 : includes (lit "https://www.twitch.tv/" ++ name)
                   (lit "player.twitch.tv") = false).
    { let p := eval vm_compute in (lit "https://www.twitch.tv/") in
      change (lit "https://www.twitch.tv/") with p.
      cbn [app]. rewrite !includes_cons_false by reflexivity.
      apply Hdot. vm_compute. tauto. }
    assert (E2 : includes (lit "https://www.twitch.tv/" ++ name)
                   (lit "clips.twitch.tv/embed") = false).
    { let p := eval vm_compute in (lit "https://www.twitch.tv/") in
      change (lit "https://www.twitch.tv/") with p.
      cbn [app]. rewrite !includes_cons_false by reflexivity.
      apply Hdot. vm_compute. tauto. }
    assert (E3 : Embed.search Embed.videoAt (lit "https://www.twitch.tv/" ++ name)
                 = None).
    { let p := eval vm_compute in (lit "https://www.twitch.tv/") in
      change (lit "https://www.twitch.tv/") with p.
      cbn [app]. rewrite !search_cons_none by reflexivity.
      rewrite search_cons_none
        by (apply (videoAt_channel _ name); [reflexivity | exact Hname]).
      rewrite !search_cons_none by reflexivity.
      apply search_none; [apply videoAt_word | exact Hname]. }
    assert (E4 : Embed.search Embed.clipAt (lit "https://www.twitch.tv/" ++ name)
                 = None).
    { let p := eval vm_compute in (lit "https://www.twitch.tv/") in
      change (lit "https://www.twitch.tv/") with p.
      cbn [app]. rewrite !search_cons_none by reflexivity.
      rewrite search_cons_none
        by (apply (clipAt_channel _ name); [reflexivity | exact Hname]).
      rewrite !search_cons_none by reflexivity.
      apply search_none; [apply clipAt_word | exact Hname]. }
    assert (E5 : Embed.search Embed.channelAt (lit "https://www.twitch.tv/" ++ name)
                 = Some name).
    { let p := eval vm_compute in (lit "https://www.twitch.tv/") in
      change (lit "https://www.twitch.tv/") with p.
      cbn [app]. rewrite !search_cons_none by reflexivity.
      apply search_here.
      apply (channelAt_channel _ name); [reflexivity | exact Hname | exact Hne]. }
    unfold Embed.processEmbedUrl, Embed.processTwitchUrl.
    rewrite E1, E2, E3, E4, E5.
    rewrite (includes_app (lit "https://www.") (lit "twitch.tv") (lit "/" ++ name)
             : includes (lit "https://www.twitch.tv/" ++ name) (lit "twitch.tv") = true).
    rewrite !bool_decide_eq_false_2 by assumption.
    reflexivity.
  - intros digits Hne Hd.
    pose proof (digits_word digits Hd) as Hw.
    assert (Hdot : forall p, In 46 p -> includes digits p = false)
      by (intros p Hp; apply includes_word; [exact Hw | apply dotted_not_word, Hp]).
    assert (E1 : includes (lit "https://www.twitch.tv/videos/" ++ digits)
                   (lit "player.twitch.tv") = false).
    { let p := eval vm_compute in (lit "https://www.twitch.tv/videos/") in
      change (lit "https://www.twitch.tv/videos/") with p.
      cbn [app]. rewrite !includes_cons_false by reflexivity.
      apply Hdot. vm_compute. tauto. }
    assert (E2 : includes (lit "https://www.twitch.tv/videos/" ++ digits)
                   (lit "clips.twitch.tv/embed") = false).
    { let p := eval vm_compute in (lit "https://www.twitch.tv/videos/") in
      change (lit "https://www.twitch.tv/videos/") with p.
      cbn [app]. rewrite !includes_cons_false by reflexivity.
      apply Hdot. vm_compute. tauto. }
    assert (E3 : Embed.search Embed.videoAt
                   (lit "https://www.twitch.tv/videos/" ++ digits) = Some digits).
    { let p := eval vm_compute in (lit "https://www.") in
      change (lit "https://www.twitch.tv/videos/" ++ digits)
        with (p ++ lit "twitch.tv/videos/" ++ digits).
      cbn [app]. rewrite !search_cons_none by reflexivity.
      apply search_here.
      apply (videoAt_video _ digits); [reflexivity | exact Hd | exact Hne]. }
    unfold Embed.processEmbedUrl, Embed.processTwitchUrl.
    rewrite E1, E2, E3.
    rewrite (includes_app (lit "https://www.") (lit "twitch.tv")
               (lit "/videos/" ++ digits)
             : includes (lit "https://www.twitch.tv/videos/" ++ digits)
                 (lit "twitch.tv") = true).
    reflexivity.
Qed.

Lemma X27_processEmbedUrl_twitch_witness :
  let withParams := fun (_ : list N) (_ : bool) => @Aggregator.Throw (list N) in
  let embed := Embed.processEmbedUrl (lit "loz.watch") withParams in
  embed (lit "https://www.youtube.com/embed/abc") = lit "https://www.youtube.com/embed/abc" /\
  embed (lit "https://www.twitch.tv/lakecam_1")
    = lit "https://player.twitch.tv/?channel=lakecam_1&parent=loz.watch&muted=false" /\
  embed (lit "https://www.twitch.tv/videos/2024")
    = lit "https://player.twitch.tv/?video=2024&parent=loz.watch&muted=false".
Proof.
  intros withParams embed.
  destruct (X27_processEmbedUrl_twitch (lit "loz.watch") withParams)
    as (Hother & Hchannel & Hvideo).
  split; [apply Hother; vm_compute; reflexivity|]. split.
  - apply (Hchannel (lit "lakecam_1")).
    + discriminate.
    + repeat (constructor; [reflexivity|]). constructor.
    + discriminate.
    + discriminate.
  - apply (Hvideo (lit "2024")).
    + discriminate.
    + repeat (constructor; [reflexivity|]). constructor.
Defined.
